(** * Verification of the mpy-test-ext HIL test runner

    Shallow embedding of [uhubctl.py] (the power-control output parser),
    of the device records of [devs.py] and of the result tracker and
    execution loop of [run_test_plan.py], with the properties of the
    project specification proved (or refuted) over them.

    Conventions.
    - A Python [str] is a [string]; a character is an [ascii] standing for
      the code point of the same number (0..255).
    - A Python [int] is a [Z].
    - [None] is [None]: an [Optional] value is an [option].
    - What the outside world answers (the exit status and the streams of
      the power-control tool, the devices that enumerate, the exit status
      of a test process) is an explicit argument of the function that asks
      for it. *)

From Stdlib Require Import ZArith List Bool Ascii String Lia Arith.
From Stdlib Require Import DecimalString.
Import ListNotations.

Local Open Scope string_scope.
Local Open Scope list_scope.

(** ** Python string primitives *)

Module PyStr.

Definition newline : ascii := ascii_of_nat 10.

(** [str.isspace] on one character, for code points below 256:
    TAB..CR, FS..US, SPACE, NEL and NBSP. *)
Definition isspace (c : ascii) : bool :=
  let n := nat_of_ascii c in
  (((9 <=? n) && (n <=? 13)) || ((28 <=? n) && (n <=? 32))
   || (n =? 133) || (n =? 160))%nat.

(** [\d] of the [re] module, for code points below 256. *)
Definition isdigit (c : ascii) : bool :=
  let n := nat_of_ascii c in ((48 <=? n) && (n <=? 57))%nat.

Fixpoint lstrip (s : string) : string :=
  match s with
  | EmptyString => EmptyString
  | String c s' => if isspace c then lstrip s' else s
  end.

Fixpoint rstrip (s : string) : string :=
  match s with
  | EmptyString => EmptyString
  | String c s' =>
      match rstrip s' with
      | EmptyString => if isspace c then EmptyString else String c EmptyString
      | r => String c r
      end
  end.

(** [s.strip()] *)
Definition strip (s : string) : string := rstrip (lstrip s).

(** [s.split('\n')]: never empty, [''.split('\n') == ['']]. *)
Fixpoint split_lines (s : string) : list string :=
  match s with
  | EmptyString => [EmptyString]
  | String c s' =>
      if Ascii.eqb c newline then EmptyString :: split_lines s'
      else match split_lines s' with
           | l :: ls => String c l :: ls
           | [] => [String c EmptyString]
           end
  end.

(** [s.startswith(p)] *)
Definition startswith (s p : string) : bool := String.prefix p s.

(** [sub in s] *)
Fixpoint contains (sub s : string) : bool :=
  String.prefix sub s
  || match s with
     | EmptyString => false
     | String _ s' => contains sub s'
     end.

(** [s[n:]] *)
Fixpoint drop (n : nat) (s : string) : string :=
  match n, s with
  | O, _ => s
  | S n', String _ s' => drop n' s'
  | S _, EmptyString => EmptyString
  end.

(** The longest prefix of [s] whose characters satisfy [p], and the rest. *)
Fixpoint span (p : ascii -> bool) (s : string) : string * string :=
  match s with
  | EmptyString => (EmptyString, EmptyString)
  | String c s' =>
      if p c then let '(a, b) := span p s' in (String c a, b)
      else (EmptyString, s)
  end.

(** [int(ds)] for a string of decimal digits, most significant first. *)
Fixpoint int_digits (acc : Z) (ds : string) : Z :=
  match ds with
  | EmptyString => acc
  | String c ds' =>
      int_digits (10 * acc + Z.of_nat (nat_of_ascii c - 48)) ds'
  end.

Definition int (ds : string) : Z := int_digits 0 ds.

(** Truth value of a [str] and of an [int]. *)
Definition truthy_str (s : string) : bool :=
  match s with EmptyString => false | _ => true end.

Definition truthy_int (n : Z) : bool := negb (Z.eqb n 0).

(** [f"{n}"] for an [int] *)
Definition str_of_int (n : Z) : string :=
  NilEmpty.string_of_int (Z.to_int n).

(** [sep.join(ls)] with [sep = '\n']. *)
Fixpoint unlines (ls : list string) : string :=
  match ls with
  | [] => EmptyString
  | [l] => l
  | l :: ls' => l ++ String newline (unlines ls')
  end.

End PyStr.

(** ** uhubctl.py *)

Module Uhubctl.
Import PyStr.

(** The instance state: the single "last output" slot. *)
Record t := mk { last_cmd_output : string }.

(** [Uhubctl.__init__] *)
Definition init : t := mk "".

(** What [subprocess.run] hands back, with the streams already decoded. *)
Record CompletedProcess := mkProc {
  returncode : Z;
  stdout : string;
  stderr : string
}.

(** [Uhubctl.__are_devices_detected] *)
Definition are_devices_detected (uhubctl_stderr : string) : bool :=
  if contains "No compatible devices detected!" uhubctl_stderr
  then false else true.

(** A line the wrapper prints:
    [error: uhubctl command '<cmd_args>' failed]. *)
Inductive Printed := command_failed (cmd_args : list string).

(** [Uhubctl.__run_cmd]: the new instance state and what was printed.
    The early [return] is the first branch; the other non-zero branch
    prints, stores the empty string and then falls through to the last
    assignment of the method, which stores the decoded stdout. *)
Definition run_cmd (cmd_args : list string) (uhub_proc : CompletedProcess)
    (self : t) : t * list Printed :=
  let uhub_err := stderr uhub_proc in
  if negb (Z.eqb (returncode uhub_proc) 0) then
    if negb (are_devices_detected uhub_err) then
      (mk "", [])
    else
      let printed := [command_failed cmd_args] in
      let self := mk "" in
      let self := mk (stdout uhub_proc) in
      (self, printed)
  else
    (mk (stdout uhub_proc), []).

(** [re.search(r'hub (\S+)', line)], group 1: the leftmost place where
    ["hub "] is followed by a non-space character, and the run of
    non-space characters from there. *)
Fixpoint re_search_hub (line : string) : option string :=
  match line with
  | EmptyString => None
  | String _ rest =>
      if String.prefix "hub " line then
        match fst (span (fun c => negb (isspace c)) (drop 4 line)) with
        | EmptyString => re_search_hub rest
        | tok => Some tok
        end
      else re_search_hub rest
  end.

(** [re.search(r'Port (\d+):', line)], group 1 as an [int]: the leftmost
    place where ["Port "] is followed by digits and then a colon. *)
Fixpoint re_search_port (line : string) : option Z :=
  match line with
  | EmptyString => None
  | String _ rest =>
      if String.prefix "Port " line then
        match span isdigit (drop 5 line) with
        | (String d ds, String ":" _) => Some (int (String d ds))
        | _ => re_search_port rest
        end
      else re_search_port rest
  end.

(** [Uhubctl.__line_search_update_hub] *)
Definition line_search_update_hub (output_line : string)
    (current_hub : option string) : option string :=
  if startswith output_line "Current status for hub" then
    match re_search_hub output_line with
    | Some hub => Some hub
    | None => current_hub
    end
  else current_hub.

(** [Uhubctl.__line_search_port] *)
Definition line_search_port (output_line : string) : option Z :=
  if startswith output_line "Port" then re_search_port output_line
  else None.

(** [self.last_cmd_output.strip().split('\n')] *)
Definition output_lines (self : t) : list string :=
  split_lines (strip (last_cmd_output self)).

(** Truth value of an optional hub and of an optional port. *)
Definition truthy_hub (h : option string) : bool :=
  match h with Some s => truthy_str s | None => false end.

Definition truthy_port (p : option Z) : bool :=
  match p with Some n => truthy_int n | None => false end.

(** A current hub is either unset or a non-empty token. *)
Definition hub_ok (h : option string) : Prop :=
  match h with
  | Some s => truthy_str s = true
  | None => True
  end.

(** [hub == current_hub] and [port == current_port] *)
Definition hub_eq (hub : string) (current_hub : option string) : bool :=
  match current_hub with Some h => String.eqb hub h | None => false end.

Definition port_eq (port : Z) (current_port : option Z) : bool :=
  match current_port with Some p => Z.eqb port p | None => false end.

(** The loop of [Uhubctl.__output_search_hub_port_by_desc]. *)
Fixpoint search_hub_port_by_desc_loop (desc_match : string)
    (lines : list string) (current_hub : option string)
    : option string * option Z :=
  match lines with
  | [] => (None, None)
  | raw :: rest =>
      let line := strip raw in
      let current_hub := line_search_update_hub line current_hub in
      let current_port := line_search_port line in
      if truthy_hub current_hub && truthy_port current_port
         && contains desc_match line
      then (current_hub, current_port)
      else search_hub_port_by_desc_loop desc_match rest current_hub
  end.

(** [Uhubctl.__output_search_hub_port_by_desc] *)
Definition output_search_hub_port_by_desc (self : t) (desc_match : string)
    : option string * option Z :=
  search_hub_port_by_desc_loop desc_match (output_lines self) None.

(** The four status strings. *)
Definition off : string := "off".
Definition on : string := "on".
Definition on_connected : string := "on connected".
Definition unknown : string := "unknown".

(** The loop of [Uhubctl.__output_search_port_status]. *)
Fixpoint search_port_status_loop (hub : string) (port : Z)
    (lines : list string) (current_hub : option string) : string :=
  match lines with
  | [] => unknown
  | raw :: rest =>
      let line := strip raw in
      let current_hub := line_search_update_hub line current_hub in
      let current_port := line_search_port line in
      if hub_eq hub current_hub && port_eq port current_port then
        if contains " off" line then off
        else if contains " power" line && contains "enable connect" line
        then on_connected
        else if contains " power" line then on
        else unknown
      else search_port_status_loop hub port rest current_hub
  end.

(** [Uhubctl.__output_search_port_status] *)
Definition output_search_port_status (self : t) (hub : string) (port : Z)
    : string :=
  search_port_status_loop hub port (output_lines self) None.

(** The loop of [Uhubctl.__output_scan_hub_ports]. *)
Fixpoint scan_hub_ports_loop (lines : list string)
    (current_hub : option string) : list (string * Z) :=
  match lines with
  | [] => []
  | raw :: rest =>
      let line := strip raw in
      let current_hub := line_search_update_hub line current_hub in
      let current_port := line_search_port line in
      match current_hub, current_port with
      | Some h, Some p =>
          if truthy_str h && truthy_int p
          then (h, p) :: scan_hub_ports_loop rest current_hub
          else scan_hub_ports_loop rest current_hub
      | _, _ => scan_hub_ports_loop rest current_hub
      end
  end.

(** [Uhubctl.__output_scan_hub_ports] *)
Definition output_scan_hub_ports (self : t) : list (string * Z) :=
  scan_hub_ports_loop (output_lines self) None.

(** [Uhubctl.get_status]: run the tool, then search what it printed.
    [uhub_proc] is what the tool answers to this invocation. *)
Definition get_status (uhub_proc : CompletedProcess) (self : t)
    (hub : string) (port : Z) : t * string :=
  let self' :=
    fst (run_cmd ["--location"; hub; "--port"; str_of_int port]
           uhub_proc self) in
  (self', output_search_port_status self' hub port).

(** [Uhubctl.get_hub_port_by_desc] *)
Definition get_hub_port_by_desc (uhub_proc : CompletedProcess) (self : t)
    (desc_match : string) : t * (option string * option Z) :=
  let self' := fst (run_cmd ["--search"; desc_match] uhub_proc self) in
  (self', output_search_hub_port_by_desc self' desc_match).

(** [Uhubctl.scan_hubs_ports] *)
Definition scan_hubs_ports (uhub_proc : CompletedProcess) (self : t)
    : t * list (string * Z) :=
  let self' := fst (run_cmd [] uhub_proc self) in
  (self', output_scan_hub_ports self').

(** *** The reading of the specification

    The classification protocol as section 4.1 words it: every trimmed
    line is paired with the hub of the section it lies in (the hub named
    by the last header line up to and including it) and with the port
    number it carries, and an operation looks for the first such line
    that satisfies its condition. *)

Record Observed := mkObserved {
  obs_hub : option string;
  obs_port : option Z;
  obs_line : string
}.

Fixpoint observe (lines : list string) (current_hub : option string)
    : list Observed :=
  match lines with
  | [] => []
  | raw :: rest =>
      let line := strip raw in
      let hub := line_search_update_hub line current_hub in
      mkObserved hub (line_search_port line) line :: observe rest hub
  end.

Definition observations (self : t) : list Observed :=
  observe (output_lines self) None.

(** The classification of one line, rule by rule in the order given. *)
Definition classify (line : string) : string :=
  if contains " off" line then off
  else if contains " power" line && contains "enable connect" line
  then on_connected
  else if contains " power" line then on
  else unknown.

(** The line matches the queried hub/port pair. *)
Definition matches_hub_port (hub : string) (port : Z) (o : Observed)
    : bool :=
  hub_eq hub (obs_hub o) && port_eq port (obs_port o).

(** A port line within a hub section whose text contains the substring,
    as the specification words the description search. *)
Definition is_desc_line (desc_match : string) (o : Observed) : bool :=
  match obs_hub o, obs_port o with
  | Some _, Some _ => contains desc_match (obs_line o)
  | _, _ => false
  end.

Definition desc_spec (self : t) (desc_match : string)
    : option string * option Z :=
  match find (is_desc_line desc_match) (observations self) with
  | Some o => (obs_hub o, obs_port o)
  | None => (None, None)
  end.

(** The same, for port lines whose number is not zero. *)
Definition is_desc_line_nonzero (desc_match : string) (o : Observed)
    : bool :=
  match obs_hub o, obs_port o with
  | Some _, Some p => negb (Z.eqb p 0) && contains desc_match (obs_line o)
  | _, _ => false
  end.

(** *** Sample outputs *)

(** The sample block of section 8 of the specification. *)
Definition sample_status_output : string :=
  unlines
    [ "Current status for hub 2-1 [...]";
      "  Port 3: 0263 power 5gbps U3 enable connect [...]";
      "Current status for hub 1-1.3 [...]";
      "  Port 1: 0100 off";
      "  Port 3: 0103 power enable connect [...]" ].

(** The example of the docstring of
    [__output_search_hub_port_by_desc]. *)
Definition sample_desc_output : string :=
  unlines
    [ "Current status for hub 2-1 [0bda:0411 Generic USB3.2 Hub, USB 3.20, 4 ports, ppps]";
      "  Port 2: 02a0 power 5gbps Rx.Detect";
      "Current status for hub 1-1 [0bda:5411 Generic USB2.1 Hub, USB 2.10, 4 ports, ppps]";
      "  Port 2: 0103 power enable connect [04b4:f155 Cypress Semiconductor KitProg3 CMSIS-DAP 1106035A012D2400]" ].

(** The tool prints the section 8 block and exits 0. *)
Definition status_proc : CompletedProcess :=
  mkProc 0 sample_status_output "".

(** The tool prints the docstring example and exits 0. *)
Definition desc_proc : CompletedProcess :=
  mkProc 0 sample_desc_output "".

(** The tool prints the section 8 block and exits 1 with a complaint
    that is not the "no devices" one. *)
Definition failing_proc : CompletedProcess :=
  mkProc 1 sample_status_output "Error: permission problem".

(** An output with a line for port 0. *)
Definition port_zero_output : string :=
  unlines
    [ "Current status for hub 1-1 [0bda:5411 Generic USB2.1 Hub]";
      "  Port 0: 0103 power enable connect [04b4:f155 KitProg3 AB12]";
      "  Port 2: 0103 power enable connect [04b4:f155 KitProg3 AB12]" ].

End Uhubctl.

(** ** devs.py: the device records *)

Module Devs.

Record DevSwitch := mkSwitch { hub : string; port : Z }.

Record DevAccessSerial := mkAccess { address : string }.

(** [DevAccessSerial.get_address] *)
Definition get_address (a : DevAccessSerial) : string := address a.

Record Device := mkDevice {
  name : string;
  uid : string;
  features : list string;
  access : option DevAccessSerial;
  switch : option DevSwitch
}.

(** A device record with no access endpoint and no switch: what
    [Device(name='', uid='', features=[])] is when no serial port and
    no hub port answers to the empty uid. The strategies of the worlds
    below hand it to the loop for a device that is not connected. *)
Definition unbound : Device := mkDevice "" "" [] None None.

(** [Device(...)], the constructor that [@dataclass] generates, followed
    by [__post_init__]. [name], [uid] and [features] have no default: a
    call that leaves one of them out raises [TypeError] ([None]) before
    [__post_init__] runs. [lookup uid] is what the two [create_from_uid]
    of [__post_init__] find for a uid at that moment. *)
Definition new (lookup : string -> option DevAccessSerial * option DevSwitch)
    (name uid : option string) (features : option (list string))
    : option Device :=
  match name, uid, features with
  | Some n, Some u, Some f =>
      Some (mkDevice n u f (fst (lookup u)) (snd (lookup u)))
  | _, _, _ => None
  end.

End Devs.

(** ** run_test_plan.py: TestRunner *)

Module TestRunner.
Import PyStr.

Inductive DeviceRole := DUT | STUB.

(** One entry of a [device:] list of the plan, read with [dict.get]. *)
Record SupportedDev := mkSupported {
  board : option string;
  version : option string
}.

Record t := mk {
  name : string;
  test_script_list : list string;
  test_exclude_list : list string;
  post_test_delay_ms : Z;
  stub_script : option string;
  supported_dut_dev_list : list SupportedDev;
  supported_stub_dev_list : list SupportedDev;
  post_stub_delay_ms : Z;
  custom_args : list string;
  type : string
}.

(** [TestRunner.__determine_implicit_type] *)
Definition determine_implicit_type (stub_script : option string)
    (post_test_delay_ms : Z) : string :=
  match stub_script with
  | Some _ => "multi_stub"
  | None =>
      if (post_test_delay_ms >? 0)%Z then "single_post_delay"
      else "single"
  end.

(** [TestRunner.__init__]: the [type] attribute. *)
Definition init_type (test_type : option string)
    (stub_script : option string) (post_test_delay_ms : Z) : string :=
  match test_type with
  | Some ty => ty
  | None => determine_implicit_type stub_script post_test_delay_ms
  end.

(** [TestRunner.__init__] *)
Definition init (name : string) (test_script_list : list string)
    (test_exclude_list : list string) (post_test_delay_ms : Z)
    (stub_script : option string)
    (supported_dut_dev_list supported_stub_dev_list : list SupportedDev)
    (post_stub_delay_ms : Z) (test_type : option string)
    (custom_args : list string) : t :=
  mk name test_script_list test_exclude_list post_test_delay_ms stub_script
     supported_dut_dev_list supported_stub_dev_list post_stub_delay_ms
     custom_args (init_type test_type stub_script post_test_delay_ms).

(** The five runner methods. *)
Inductive Runner :=
| run_single_test_f
| run_single_post_delay_test_f
| run_multi_stub_test_f
| run_multi_test_f
| custom_test_f.

(** [TestRunner.__get_runner_func]: a dictionary lookup, [None] for a
    type that is not a key. *)
Definition get_runner_func (ty : string) : option Runner :=
  if String.eqb ty "single" then Some run_single_test_f
  else if String.eqb ty "single_post_delay"
  then Some run_single_post_delay_test_f
  else if String.eqb ty "multi_stub" then Some run_multi_stub_test_f
  else if String.eqb ty "multi" then Some run_multi_test_f
  else if String.eqb ty "custom" then Some custom_test_f
  else None.

(** [TestRunner.requires_multiple_devs] *)
Definition requires_multiple_devs (self : t) : bool :=
  contains "multi" (type self).

(** [TestRunner.are_supported_devs_available] *)
Definition are_supported_devs_available (self : t)
    (dut_port stub_port : option string) : bool :=
  match dut_port with
  | None => false
  | Some _ =>
      if requires_multiple_devs self
         && match stub_port with None => true | Some _ => false end
      then false
      else true
  end.

Definition opt_str_eqb (a b : option string) : bool :=
  match a, b with
  | Some x, Some y => String.eqb x y
  | None, None => true
  | _, _ => false
  end.

(** [TestRunner.get_supported_dev_list] *)
Definition get_supported_dev_list (self : t) (dev_role : DeviceRole)
    (board_name : string) (version_req : option string)
    : list SupportedDev :=
  let device_list :=
    match dev_role with
    | DUT => supported_dut_dev_list self
    | STUB =>
        if String.eqb "multi" (type self) then supported_dut_dev_list self
        else supported_stub_dev_list self
    end in
  filter
    (fun device =>
       opt_str_eqb (Some board_name) (board device)
       && match version_req with
          | None => true
          | Some v => opt_str_eqb (version device) (Some v)
          end)
    device_list.

(** What the processes started by one call of [run] answer, and what
    the file system shows it. *)
Record Procs := mkProcs {
  (** exit status of the k-th [run-tests.py -t port:...] process *)
  run_tests_rc : nat -> Z;
  (** exit status of the [mpremote ... run] process of the stub *)
  stub_rc : Z;
  (** exit status of the [run-multitests.py] process *)
  multitests_rc : Z;
  (** exit status of the process of the k-th custom script *)
  custom_rc : nat -> Z;
  (** [None] when the path is no directory, else the [.py] files
      [os.walk] finds below it *)
  walk_py : string -> option (list string)
}.

(** [TestRunner.__run_single_test_cmd], the k-th of this run. *)
Definition run_single_test_cmd (procs : Procs) (k : nat) : Z :=
  run_tests_rc procs k.

(** [TestRunner.__run_single_test] *)
Definition run_single_test (self : t) (procs : Procs) : Z :=
  run_single_test_cmd procs 0.

(** [list.remove(x)]: drops the first element equal to [x]. *)
Fixpoint remove_first (x : string) (l : list string) : list string :=
  match l with
  | [] => []
  | y :: l' => if String.eqb y x then l' else y :: remove_first x l'
  end.

(** The two local helpers of [__run_single_post_delay_test]. *)
Definition get_test_list_args (self : t) (procs : Procs) : list string :=
  flat_map
    (fun test => match walk_py procs test with
                 | Some files => files
                 | None => [test]
                 end)
    (test_script_list self).

Definition remove_excluded_tests (self : t) (test_list_args : list string)
    : list string :=
  fold_left (fun args excluded => remove_first excluded args)
            (test_exclude_list self) test_list_args.

Fixpoint post_delay_loop (procs : Procs) (k : nat) (tests : list string)
    : Z :=
  match tests with
  | [] => 0%Z
  | _ :: rest =>
      let return_code := run_single_test_cmd procs k in
      if negb (Z.eqb return_code 0) then return_code
      else post_delay_loop procs (S k) rest
  end.

(** [TestRunner.__run_single_post_delay_test] *)
Definition run_single_post_delay_test (self : t) (procs : Procs) : Z :=
  post_delay_loop procs 0
    (remove_excluded_tests self (get_test_list_args self procs)).

(** [TestRunner.__run_stub]. The port and the script go into the
    argument list as they are, and [subprocess.run] raises [TypeError]
    ([None]) on an argument list that holds [None]. *)
Definition run_stub (self : t) (procs : Procs) (stub_port : option string)
    : option Z :=
  match stub_port, stub_script self with
  | Some _, Some _ => Some (stub_rc procs)
  | _, _ => None
  end.

(** [TestRunner.__run_multi_stub_test] *)
Definition run_multi_stub_test (self : t) (procs : Procs)
    (stub_port : option string) : option Z :=
  match run_stub self procs stub_port with
  | None => None
  | Some return_code =>
      if negb (Z.eqb return_code 0) then Some return_code
      else Some (run_single_test self procs)
  end.

(** [TestRunner.__run_multi_test] *)
Definition run_multi_test (self : t) (procs : Procs) : Z :=
  multitests_rc procs.

Fixpoint custom_loop (procs : Procs) (k : nat) (tests : list string)
    (result : Z) : Z :=
  match tests with
  | [] => result
  | _ :: rest =>
      custom_loop procs (S k) rest
        (if negb (Z.eqb (custom_rc procs k) 0) then 1%Z else result)
  end.

(** [TestRunner.__custom_test], called with a port that is a [str] *)
Definition custom_test (self : t) (procs : Procs) : Z :=
  custom_loop procs 0 (test_script_list self) 0%Z.

(** [TestRunner.__custom_test], called with the port [run] passes: the
    port goes into the argument list of each script as it is, and with
    a script to run and [None] for the port [subprocess.run] raises
    [TypeError] ([None]). *)
Definition custom_test_call (self : t) (procs : Procs)
    (dut_port : option string) : option Z :=
  match dut_port, test_script_list self with
  | None, _ :: _ => None
  | _, _ => Some (custom_test self procs)
  end.

(** [TestRunner.run]: [None] when the call raises, for want of a
    runner ([runner_func] is [None]) or inside the runner. The other
    three runners format the port into a string and do not raise on
    [None]. *)
Definition run (self : t) (procs : Procs) (dut_port : option string)
    (stub_port : option string) : option Z :=
  match get_runner_func (type self) with
  | None => None
  | Some run_single_test_f => Some (run_single_test self procs)
  | Some run_single_post_delay_test_f =>
      Some (run_single_post_delay_test self procs)
  | Some run_multi_stub_test_f => run_multi_stub_test self procs stub_port
  | Some run_multi_test_f => Some (run_multi_test self procs)
  | Some custom_test_f => custom_test_call self procs dut_port
  end.

End TestRunner.

(** ** run_test_plan.py: TestPlanResults *)

Module TestPlanResults.

Record TestRetries := mkRetry { test_name : string; retries : Z }.

Record t := mk {
  pass_test_name_list : list string;
  skip_test_name_list : list string;
  fail_test_name_list : list string;
  max_retries : Z;
  retry_test_list : list TestRetries
}.

(** [TestPlanResults.__init__] *)
Definition init (max_retries : Z) : t := mk [] [] [] max_retries [].

(** [x in l] for a list of names *)
Definition mem (x : string) (l : list string) : bool :=
  existsb (String.eqb x) l.

(** [l.remove(x)] for a name that is in [l]: the first occurrence goes. *)
Fixpoint remove_name (x : string) (l : list string) : list string :=
  match l with
  | [] => []
  | y :: l' => if String.eqb y x then l' else y :: remove_name x l'
  end.

(** Equality of two [TestRetries], as the dataclass defines it. *)
Definition retry_eqb (a b : TestRetries) : bool :=
  String.eqb (test_name a) (test_name b) && Z.eqb (retries a) (retries b).

(** [l.remove(obj)] on the retry list *)
Fixpoint remove_retry (obj : TestRetries) (l : list TestRetries)
    : list TestRetries :=
  match l with
  | [] => []
  | y :: l' => if retry_eqb y obj then l' else y :: remove_retry obj l'
  end.

(** [TestPlanResults.__get_test_retry_index] *)
Fixpoint retry_index_from (i : nat) (name : string) (l : list TestRetries)
    : option nat :=
  match l with
  | [] => None
  | r :: l' =>
      if String.eqb (test_name r) name then Some i
      else retry_index_from (S i) name l'
  end.

Definition get_test_retry_index (self : t) (name : string) : option nat :=
  retry_index_from 0 name (retry_test_list self).

(** [l[i].retries -= 1] *)
Fixpoint decrement_at (i : nat) (l : list TestRetries) : list TestRetries :=
  match l, i with
  | [], _ => []
  | r :: l', O => mkRetry (test_name r) (retries r - 1) :: l'
  | r :: l', S i' => r :: decrement_at i' l'
  end.

(** [TestPlanResults.register_skip] *)
Definition register_skip (self : t) (name : string) : t :=
  mk (pass_test_name_list self)
     (skip_test_name_list self ++ [name])
     (fail_test_name_list self)
     (max_retries self)
     (retry_test_list self).

(** [TestPlanResults.register_fail] *)
Definition register_fail (self : t) (name : string) : t :=
  if negb (mem name (fail_test_name_list self)) then
    mk (pass_test_name_list self)
       (skip_test_name_list self)
       (fail_test_name_list self ++ [name])
       (max_retries self)
       (retry_test_list self ++ [mkRetry name (max_retries self)])
  else
    match get_test_retry_index self name with
    | Some test_retry_index =>
        mk (pass_test_name_list self)
           (skip_test_name_list self)
           (fail_test_name_list self)
           (max_retries self)
           (decrement_at test_retry_index (retry_test_list self))
    | None => self
    end.

(** [TestPlanResults.register_pass] *)
Definition register_pass (self : t) (name : string) : t :=
  let self1 :=
    if mem name (fail_test_name_list self) then
      let fails := remove_name name (fail_test_name_list self) in
      let retry_list :=
        match get_test_retry_index self name with
        | Some test_retry_index =>
            match nth_error (retry_test_list self) test_retry_index with
            | Some test_retry_obj =>
                remove_retry test_retry_obj (retry_test_list self)
            | None => retry_test_list self
            end
        | None => retry_test_list self
        end in
      mk (pass_test_name_list self) (skip_test_name_list self) fails
         (max_retries self) retry_list
    else self in
  if negb (mem name (pass_test_name_list self1)) then
    mk (pass_test_name_list self1 ++ [name])
       (skip_test_name_list self1)
       (fail_test_name_list self1)
       (max_retries self1)
       (retry_test_list self1)
  else self1.

(** [TestPlanResults.filter_retries]: the two nested loops. *)
Definition filter_retries (self : t) (test_list : list TestRunner.t)
    : list TestRunner.t :=
  flat_map
    (fun test =>
       flat_map
         (fun retry =>
            if String.eqb (TestRunner.name test) (test_name retry)
               && (retries retry >? 0)%Z
            then [test] else [])
         (retry_test_list self))
    test_list.

(** The remaining retries of a name, when it has a ledger entry. *)
Definition remaining (self : t) (name : string) : option Z :=
  match get_test_retry_index self name with
  | Some i => option_map retries (nth_error (retry_test_list self) i)
  | None => None
  end.

(** No entry of the ledger bears the name. *)
Definition no_entry (name : string) (l : list TestRetries) : Prop :=
  Forall (fun r => test_name r <> name) l.

(** The names of the ledger, in order, are the failed list, and the
    failed list holds no name twice. *)
Definition ledger_ok (self : t) : Prop :=
  map test_name (retry_test_list self) = fail_test_name_list self
  /\ NoDup (fail_test_name_list self).

(** The retries the ledger still grants, all entries together. *)
Definition weight (r : TestRetries) : nat := Z.to_nat (retries r).

Definition budget (self : t) : nat :=
  list_sum (map weight (retry_test_list self)).

(** Two name lists share no name. *)
Definition disjoint (a b : list string) : Prop :=
  forall x, In x a -> ~ In x b.

End TestPlanResults.

(** ** run_test_plan.py: TestPlanRunner *)

Module TestPlanRunner.
Import Devs.

(** The calls of the logger, in order. *)
Inductive Event :=
| test_skip_info (name : string)
| dev_switch_info
| test_info (name : string) (dut_port stub_port : option string)
| test_fail_info (name : string)
| test_pass_info (name : string)
| test_info_footer
| test_retries_info (names : list string)
| test_summary_info (passed failed skipped : list string).

(** What the world answers to the loop. The loop asks once per loop
    iteration; [tick] counts the iterations of the whole run.
    [get_test_devs] is the abstract method: the strategy selected for
    the run, asked at that moment. *)
Record World := mkWorld {
  get_test_devs : nat -> TestRunner.t -> Device * Device;
  procs : nat -> TestRunner.Procs
}.

(** [TestPlanRunner.__get_test_list] over the loaded plan *)
Definition get_test_list (test_plan_list : list TestRunner.t)
    (test_name_list : list string) : list TestRunner.t :=
  match test_name_list with
  | [] => test_plan_list
  | _ =>
      flat_map
        (fun test_name =>
           filter (fun test => String.eqb (TestRunner.name test) test_name)
                  test_plan_list)
        test_name_list
  end.

(** [TestPlanRunner.__get_test_ports] *)
Definition get_test_ports (dut_dev stub_dev : Device)
    : option string * option string :=
  (option_map get_address (access dut_dev),
   option_map get_address (access stub_dev)).

(** [TestPlanRunner.__reset_switchable_devs]: what it logs. The power
    cycle and the poll of at most 5 rounds that follow act on the
    switch alone; the tracker is not in their reach. *)
Definition reset_switchable_devs (dut_dev stub_dev : Device) : list Event :=
  flat_map
    (fun dev => match switch dev with
                | Some _ => [dev_switch_info]
                | None => []
                end)
    [dut_dev; stub_dev].

(** One iteration of the [for] loop of [run]. *)
Inductive Iteration :=
| Continue (events : list Event) (test_results : TestPlanResults.t)
| Raise (events : list Event).

Definition iteration (w : World) (tick : nat) (test : TestRunner.t)
    (test_results : TestPlanResults.t) : Iteration :=
  let '(dut_dev, stub_dev) := get_test_devs w tick test in
  let '(dut_port, stub_port) := get_test_ports dut_dev stub_dev in
  if negb (TestRunner.are_supported_devs_available test dut_port stub_port)
  then
    Continue [test_skip_info (TestRunner.name test)]
      (TestPlanResults.register_skip test_results (TestRunner.name test))
  else
    let ev :=
      reset_switchable_devs dut_dev stub_dev
      ++ [test_info (TestRunner.name test) dut_port stub_port] in
    match TestRunner.run test (procs w tick) dut_port stub_port with
    | None => Raise ev
    | Some ret_code =>
        if negb (Z.eqb ret_code 0) then
          Continue (ev ++ [test_fail_info (TestRunner.name test)])
            (TestPlanResults.register_fail test_results
               (TestRunner.name test))
        else
          Continue (ev ++ [test_pass_info (TestRunner.name test)])
            (TestPlanResults.register_pass test_results
               (TestRunner.name test))
    end.

(** One pass: the [for] loop. [pass_states] lists the tracker after
    each iteration, [pass_results] is the tracker when the pass ends. *)
Record Pass := mkPass {
  pass_tests : list TestRunner.t;
  pass_events : list Event;
  pass_states : list TestPlanResults.t;
  pass_results : TestPlanResults.t;
  pass_tick : nat;
  pass_raised : bool
}.

Fixpoint for_tests (w : World) (tests : list TestRunner.t) (tick : nat)
    (test_results : TestPlanResults.t)
    : list Event * list TestPlanResults.t * TestPlanResults.t * nat * bool :=
  match tests with
  | [] => ([], [], test_results, tick, false)
  | test :: rest =>
      match iteration w tick test test_results with
      | Raise ev => (ev, [], test_results, S tick, true)
      | Continue ev test_results' =>
          let '(evs, sts, final, tick', raised) :=
            for_tests w rest (S tick) test_results' in
          (ev ++ evs, test_results' :: sts, final, tick', raised)
      end
  end.

Definition run_pass (w : World) (test_list : list TestRunner.t)
    (tick : nat) (test_results : TestPlanResults.t) : Pass :=
  let '(evs, sts, final, tick', raised) :=
    for_tests w test_list tick test_results in
  mkPass test_list evs sts final tick' raised.

(** How a run ends. *)
Inductive Outcome :=
| Exit (status : Z) (test_results : TestPlanResults.t)
| Raised (test_results : TestPlanResults.t)
| Pending (test_list : list TestRunner.t) (test_results : TestPlanResults.t).

(** The end of [run]: [sys.exit(1)] when the fail list is not empty. *)
Definition exit_status (test_results : TestPlanResults.t) : Z :=
  match TestPlanResults.fail_test_name_list test_results with
  | [] => 0%Z
  | _ :: _ => 1%Z
  end.

(** The [while pending_retries] loop, for at most [fuel] passes. *)
Fixpoint while_pending (fuel : nat) (w : World)
    (test_list : list TestRunner.t) (tick : nat)
    (test_results : TestPlanResults.t) : list Pass * Outcome :=
  match fuel with
  | O => ([], Pending test_list test_results)
  | S fuel' =>
      let p := run_pass w test_list tick test_results in
      if pass_raised p then ([p], Raised (pass_results p))
      else
        let test_list' :=
          TestPlanResults.filter_retries (pass_results p) test_list in
        match test_list' with
        | [] => ([p], Exit (exit_status (pass_results p)) (pass_results p))
        | _ :: _ =>
            let '(ps, out) :=
              while_pending fuel' w test_list' (pass_tick p)
                (pass_results p) in
            (p :: ps, out)
        end
  end.

(** [TestPlanRunner.run] *)
Definition run (fuel : nat) (w : World) (test_plan_list : list TestRunner.t)
    (test_name_list : list string) (max_retries : Z)
    : list Pass * Outcome :=
  while_pending fuel w (get_test_list test_plan_list test_name_list) 0
    (TestPlanResults.init max_retries).

(** The availability gate as the loop sees it at [tick]. *)
Definition available_at (w : World) (tick : nat) (test : TestRunner.t)
    : bool :=
  let '(dut_dev, stub_dev) := get_test_devs w tick test in
  let '(dut_port, stub_port) := get_test_ports dut_dev stub_dev in
  TestRunner.are_supported_devs_available test dut_port stub_port.

(** The invariant behind the disjointness of the passed and the failed
    list: the ledger follows the failed list, the two lists share no
    name, the tests still to run in the pass bear distinct names, and
    none of them has passed. *)
Definition pass_fail_inv (rest : list TestRunner.t)
    (s : TestPlanResults.t) : Prop :=
  TestPlanResults.ledger_ok s
  /\ TestPlanResults.disjoint (TestPlanResults.pass_test_name_list s)
                              (TestPlanResults.fail_test_name_list s)
  /\ NoDup (map TestRunner.name rest)
  /\ (forall t, In t rest ->
                ~ In (TestRunner.name t)
                     (TestPlanResults.pass_test_name_list s)).

(** The invariant behind the disjointness of the skipped list, when
    the gate answers [avail test] for a test of [tests0] at every
    iteration: a skipped name is the name of a test the gate refuses,
    a passed or failed name the name of a test it lets through. *)
Definition gate_inv (tests0 : list TestRunner.t)
    (avail : TestRunner.t -> bool) (rest : list TestRunner.t)
    (s : TestPlanResults.t) : Prop :=
  incl rest tests0
  /\ (forall n, In n (TestPlanResults.skip_test_name_list s) ->
                exists t, In t tests0 /\ TestRunner.name t = n
                          /\ avail t = false)
  /\ (forall n, In n (TestPlanResults.pass_test_name_list s)
                \/ In n (TestPlanResults.fail_test_name_list s) ->
                exists t, In t tests0 /\ TestRunner.name t = n
                          /\ avail t = true).

(** The invariant behind termination, for a pass over a retry list of
    [l] tests that started with a budget of [c]: the tests still to run
    bear distinct names, pass the gate at every iteration and hold a
    ledger entry with retries left, and every test already run has taken
    at least one retry off the budget. *)
Definition retry_inv (w : World) (l c : nat) (rest : list TestRunner.t)
    (s : TestPlanResults.t) : Prop :=
  TestPlanResults.ledger_ok s
  /\ NoDup (map TestRunner.name rest)
  /\ (forall t, In t rest ->
                (forall tick, available_at w tick t = true)
                /\ exists r,
                     In (TestPlanResults.mkRetry (TestRunner.name t) r)
                        (TestPlanResults.retry_test_list s)
                     /\ (0 < r)%Z)
  /\ (TestPlanResults.budget s + l <= c + List.length rest)%nat.

(** The run comes to an end: it exits or raises. *)
Definition ended (out : Outcome) : Prop :=
  match out with
  | Exit _ _ => True
  | Raised _ => True
  | Pending _ _ => False
  end.

(** Every tracker state of a run, from the initial one on. *)
Definition states_of (max_retries : Z) (passes : list Pass)
    : list TestPlanResults.t :=
  TestPlanResults.init max_retries :: flat_map pass_states passes.

(** The second half of the availability gate as the specification
    words it: a test that is skipped in a pass is in the list of no
    later pass. *)
Definition skip_terminal (w : World) : Prop :=
  forall (fuel : nat) (plan : list TestRunner.t) (names : list string)
         (max : Z) (k j : nat) (pk pj : Pass) (test : TestRunner.t),
    nth_error (fst (run fuel w plan names max)) k = Some pk ->
    nth_error (fst (run fuel w plan names max)) j = Some pj ->
    (k < j)%nat ->
    In (test_skip_info (TestRunner.name test)) (pass_events pk) ->
    forall t, In t (pass_tests pj) ->
              TestRunner.name t <> TestRunner.name test.

(** The invariant of section 3 as the specification words it: the
    three name lists are pairwise disjoint. *)
Definition pairwise_disjoint (s : TestPlanResults.t) : Prop :=
  TestPlanResults.disjoint (TestPlanResults.pass_test_name_list s)
                           (TestPlanResults.fail_test_name_list s)
  /\ TestPlanResults.disjoint (TestPlanResults.skip_test_name_list s)
                              (TestPlanResults.pass_test_name_list s)
  /\ TestPlanResults.disjoint (TestPlanResults.skip_test_name_list s)
                              (TestPlanResults.fail_test_name_list s).

End TestPlanRunner.

(** ** run_test_plan.py: TestPlanRunnerHIL *)

Module TestPlanRunnerHIL.
Import Devs.

(** What [Device.load_device_list_from_yml] returns at its n-th call:
    the registry entries with whatever is bound at that moment. *)
Definition Registry := nat -> list Device.

Definition feature_mem (v : string) (fs : list string) : bool :=
  existsb (String.eqb v) fs.

(** [TestPlanRunnerHIL.__get_devs_for_role]; [calls] counts the loads. *)
Fixpoint devs_for_supported (load : Registry) (calls : nat)
    (supported_dev_list : list TestRunner.SupportedDev)
    : list Device * nat :=
  match supported_dev_list with
  | [] => ([], calls)
  | supported_dev :: rest =>
      let available_devs := load calls in
      let found :=
        filter
          (fun dev =>
             TestRunner.opt_str_eqb (Some (name dev))
               (TestRunner.board supported_dev)
             && match TestRunner.version supported_dev with
                | None => true
                | Some v => feature_mem v (features dev)
                end)
          available_devs in
      let '(more, calls') := devs_for_supported load (S calls) rest in
      (found ++ more, calls')
  end.

Definition get_devs_for_role (load : Registry) (calls : nat)
    (test : TestRunner.t) (board : string)
    (device_role : TestRunner.DeviceRole) : list Device * nat :=
  devs_for_supported load calls
    (TestRunner.get_supported_dev_list test device_role board None).

(** The first loop of [get_test_devs]: the first accessible device. *)
Fixpoint first_accessible (dut_dev : Device) (devs : list Device) : Device :=
  match devs with
  | [] => dut_dev
  | dev :: rest =>
      match access dev with
      | Some _ => dev
      | None => first_accessible dut_dev rest
      end
  end.

(** The second loop: the first accessible device at another address. *)
Fixpoint first_other (dut_address : string) (stub_dev : Device)
    (devs : list Device) : Device :=
  match devs with
  | [] => stub_dev
  | dev :: rest =>
      match access dev with
      | Some a =>
          if negb (String.eqb (get_address a) dut_address) then dev
          else first_other dut_address stub_dev rest
      | None => first_other dut_address stub_dev rest
      end
  end.

(** [TestPlanRunnerHIL.get_test_devs] below its first two lines: the
    resolution, entered with the two devices those lines bind. *)
Definition resolve_test_devs (dut_dev stub_dev : Device) (load : Registry)
    (calls : nat) (board : string) (test : TestRunner.t)
    : Device * Device * nat :=
  let '(dut_dev_list, calls) :=
    get_devs_for_role load calls test board TestRunner.DUT in
  match dut_dev_list with
  | [] => (dut_dev, stub_dev, calls)
  | _ :: _ =>
      let dut_dev := first_accessible dut_dev dut_dev_list in
      match access dut_dev with
      | None => (dut_dev, stub_dev, calls)
      | Some dut_access =>
          if TestRunner.requires_multiple_devs test then
            let '(stub_dev_list, calls) :=
              get_devs_for_role load calls test board TestRunner.STUB in
            (dut_dev,
             first_other (get_address dut_access) stub_dev stub_dev_list,
             calls)
          else (dut_dev, stub_dev, calls)
      end
  end.

(** [TestPlanRunnerHIL.get_test_devs]. Its first two lines are
    [dut_dev = Device()] and [stub_dev = Device()]; [None] is the
    [TypeError] of the constructor. *)
Definition get_test_devs
    (lookup : string -> option DevAccessSerial * option DevSwitch)
    (load : Registry) (calls : nat) (board : string) (test : TestRunner.t)
    : option (Device * Device * nat) :=
  match new lookup None None None with
  | None => None
  | Some dut_dev =>
      match new lookup None None None with
      | None => None
      | Some stub_dev =>
          Some (resolve_test_devs dut_dev stub_dev load calls board test)
      end
  end.

End TestPlanRunnerHIL.

(** ** Worlds and plans used as concrete inputs *)

Module Scenario.
Import Devs TestPlanRunner.

Definition single_test (name : string) : TestRunner.t :=
  TestRunner.init name ["basics/a.py"] [] 0
    None [TestRunner.mkSupported (Some "BOARD") None] [] 0 None [].

Definition T3 : TestRunner.t := single_test "T3".

Definition connected (address : string) : Device :=
  mkDevice "BOARD" "0D170C5A012D2400" [] (Some (mkAccess address)) None.

Definition always_exit (rc : Z) : TestRunner.Procs :=
  TestRunner.mkProcs (fun _ => rc) rc rc (fun _ => rc) (fun _ => None).

(** The board is there at every pass and the script always exits 1. *)
Definition world_always_failing : World :=
  mkWorld (fun _ _ => (connected "/dev/ttyACM0", unbound))
          (fun _ => always_exit 1).

(** The board is there for the first iteration and gone afterwards; the
    script exits 1. *)
Definition world_board_lost : World :=
  mkWorld
    (fun tick _ =>
       match tick with
       | O => (connected "/dev/ttyACM0", unbound)
       | S _ => (unbound, unbound)
       end)
    (fun _ => always_exit 1).

(** The board is missing during the second iteration only; the script
    exits 1. *)
Definition world_board_blinks : World :=
  mkWorld
    (fun tick _ =>
       match tick with
       | 1%nat => (unbound, unbound)
       | _ => (connected "/dev/ttyACM0", unbound)
       end)
    (fun _ => always_exit 1).

(** The board is there at every pass; the script exits 0 at the first
    iteration and 1 afterwards. *)
Definition world_flaky : World :=
  mkWorld (fun _ _ => (connected "/dev/ttyACM0", unbound))
          (fun tick => match tick with
                       | O => always_exit 0
                       | S _ => always_exit 1
                       end).

Definition T1 : TestRunner.t := single_test "T1".

(** No board is ever there for the test named [T1]; the board of every
    other test is there at every pass and the script always exits 1. *)
Definition world_no_board_for_T1 : World :=
  mkWorld
    (fun _ test =>
       if String.eqb (TestRunner.name test) "T1" then (unbound, unbound)
       else (connected "/dev/ttyACM0", unbound))
    (fun _ => always_exit 1).

Definition T2 : TestRunner.t := single_test "T2".

(** No board is ever there for the test named [T1]; the board of every
    other test is there at every pass, and every script exits 0 except
    the one run at the third iteration, which exits 1. *)
Definition world_mixed : World :=
  mkWorld
    (fun _ test =>
       if String.eqb (TestRunner.name test) "T1" then (unbound, unbound)
       else (connected "/dev/ttyACM0", unbound))
    (fun tick => match tick with
                 | 2%nat => always_exit 1
                 | _ => always_exit 0
                 end).

(** No board is ever there for the test named [T1]; the board of every
    other test is there at every pass and every script exits 0. *)
Definition world_passing_no_board_for_T1 : World :=
  mkWorld
    (fun _ test =>
       if String.eqb (TestRunner.name test) "T1" then (unbound, unbound)
       else (connected "/dev/ttyACM0", unbound))
    (fun _ => always_exit 0).

(** A tracker with one failed test that has a retry left and one that
    has none. *)
Definition tracker_one_retry_left : TestPlanResults.t :=
  TestPlanResults.mk ["T2"] [] ["T3"; "T1"] 1
    [TestPlanResults.mkRetry "T3" 1; TestPlanResults.mkRetry "T1" 0].

(** A pass in which nothing happened. *)
Definition no_pass : Pass :=
  mkPass [] [] [] (TestPlanResults.init 0) 0 false.



End Scenario.

(** ** uhubctl.py: the actions *)

Module UhubctlActions.
Import PyStr Uhubctl.

(** [Uhubctl.Cmd] and its [value] *)
Inductive Cmd := Cmd_on | Cmd_off | Cmd_cycle | Cmd_toggle.

Definition value (action : Cmd) : string :=
  match action with
  | Cmd_on => "on"
  | Cmd_off => "off"
  | Cmd_cycle => "cycle"
  | Cmd_toggle => "toggle"
  end.

(** The command line [Uhubctl.run_action] builds. *)
Definition action_args (action : Cmd) (hub : option string)
    (port : option Z) : list string :=
  let cmd := ["--action"; value action] in
  let cmd := match hub with
             | Some h => cmd ++ ["--location"; h]
             | None => cmd
             end in
  let cmd := match port with
             | Some p => cmd ++ ["--port"; str_of_int p]
             | None => cmd
             end in
  cmd.

(** [Uhubctl.run_action] *)
Definition run_action (action : Cmd) (hub : option string) (port : option Z)
    (uhub_proc : CompletedProcess) (self : t) : t * list Printed :=
  run_cmd (action_args action hub port) uhub_proc self.

End UhubctlActions.

(** ** devs.py: binding devices to what is plugged *)

Module DevsBinding.
Import PyStr Uhubctl UhubctlActions Devs.

(** One entry of [comports()]: the device path and the serial number,
    which a port may lack. *)
Record ListPortInfo := mkPort {
  device : string;
  serial_number : option string
}.

(** [DevAccessSerial.create_from_uid] over what [comports()] lists *)
Fixpoint access_create_from_uid (comports : list ListPortInfo)
    (uid : string) : option DevAccessSerial :=
  match comports with
  | [] => None
  | port :: rest =>
      if match serial_number port with
         | Some sn => String.eqb sn uid
         | None => false
         end
      then Some (mkAccess (device port))
      else access_create_from_uid rest uid
  end.

(** [DevSwitch.create_from_uid]; [hw_controller] is the controller the
    class shares. *)
Definition switch_create_from_uid (uhub_proc : CompletedProcess)
    (hw_controller : Uhubctl.t) (uid : string)
    : Uhubctl.t * option DevSwitch :=
  let '(hw_controller, (hub, port)) :=
    get_hub_port_by_desc uhub_proc hw_controller uid in
  if truthy_hub hub && truthy_port port then
    match hub, port with
    | Some h, Some p => (hw_controller, Some (mkSwitch h p))
    | _, _ => (hw_controller, None)
    end
  else (hw_controller, None).

(** [DevSwitch.scan] *)
Definition switch_scan (uhub_proc : CompletedProcess)
    (hw_controller : Uhubctl.t) : Uhubctl.t * list DevSwitch :=
  let '(hw_controller, hub_port) := scan_hubs_ports uhub_proc hw_controller in
  (hw_controller, map (fun hp => mkSwitch (fst hp) (snd hp)) hub_port).

(** [DevSwitch.status] *)
Definition switch_status (self : DevSwitch) (uhub_proc : CompletedProcess)
    (hw_controller : Uhubctl.t) : Uhubctl.t * string :=
  get_status uhub_proc hw_controller (hub self) (port self).

(** [DevSwitch.reset] *)
Definition switch_reset (self : DevSwitch) (uhub_proc : CompletedProcess)
    (hw_controller : Uhubctl.t) : Uhubctl.t * list Printed :=
  run_action Cmd_cycle (Some (hub self)) (Some (port self)) uhub_proc
    hw_controller.

(** The loop of [DevSwitch.reset_all]: one [cycle] per hub, no port
    given; the command lines issued are collected. [uhub_procs k] is
    what the tool answers to the k-th of them. *)
Fixpoint cycle_hubs (hubs : list string) (k : nat)
    (uhub_procs : nat -> CompletedProcess) (hw_controller : Uhubctl.t)
    : Uhubctl.t * list (list string) :=
  match hubs with
  | [] => (hw_controller, [])
  | h :: rest =>
      let hw_controller :=
        fst (run_action Cmd_cycle (Some h) None (uhub_procs k) hw_controller) in
      let '(hw_controller, issued) :=
        cycle_hubs rest (S k) uhub_procs hw_controller in
      (hw_controller, action_args Cmd_cycle (Some h) None :: issued)
  end.

(** [DevSwitch.reset_all]. [set_iter l] is the order in which Python
    iterates over [set(l)]: the language fixes the elements, not the
    order. *)
Definition reset_all (set_iter : list string -> list string)
    (scan_proc : CompletedProcess) (uhub_procs : nat -> CompletedProcess)
    (hw_controller : Uhubctl.t) : Uhubctl.t * list (list string) :=
  let '(hw_controller, hubs_ports) :=
    scan_hubs_ports scan_proc hw_controller in
  let unique_hubs := set_iter (map fst hubs_ports) in
  cycle_hubs unique_hubs 0 uhub_procs hw_controller.

(** What [set_iter] is known to do. *)
Definition iterates_set (set_iter : list string -> list string) : Prop :=
  forall l, NoDup (set_iter l) /\ (forall x, In x (set_iter l) <-> In x l).

(** What is plugged in when a [Device] is built: the serial ports that
    enumerate and what the power-control tool answers. *)
Record Plugged := mkPlugged {
  comports : list ListPortInfo;
  uhub_answer : CompletedProcess
}.

(** [Device.__init__] followed by [__post_init__]: the two bindings are
    looked up by [uid], whatever was passed for them. *)
Definition device_init (name uid : string) (features : list string)
    (passed_access : option DevAccessSerial) (passed_switch : option DevSwitch)
    (plugged : Plugged) (hw_controller : Uhubctl.t)
    : Device * Uhubctl.t :=
  let self := mkDevice name uid features passed_access passed_switch in
  let access := access_create_from_uid (comports plugged) (Devs.uid self) in
  let '(hw_controller, switch) :=
    switch_create_from_uid (uhub_answer plugged) hw_controller
      (Devs.uid self) in
  (mkDevice (Devs.name self) (Devs.uid self) (Devs.features self)
     access switch,
   hw_controller).

(** One record of the registry document, read with [dict.get]. *)
Record DevEntry := mkEntry {
  entry_name : option string;
  entry_uid : option string;
  entry_features : option (list string)
}.

Definition get_or {A : Type} (v : option A) (default : A) : A :=
  match v with Some x => x | None => default end.

(** The loop of [Device.load_device_list_from_yml] over the parsed
    document; [plugged k] is what is plugged in when the k-th device is
    built. *)
Fixpoint load_devices (entries : list DevEntry) (k : nat)
    (plugged : nat -> Plugged) (hw_controller : Uhubctl.t)
    : list Device * Uhubctl.t :=
  match entries with
  | [] => ([], hw_controller)
  | dev :: rest =>
      let '(device, hw_controller) :=
        device_init (get_or (entry_name dev) "") (get_or (entry_uid dev) "")
          (get_or (entry_features dev) []) None None (plugged k)
          hw_controller in
      let '(devices, hw_controller) :=
        load_devices rest (S k) plugged hw_controller in
      (device :: devices, hw_controller)
  end.

(** [Device.load_device_list_from_yml] *)
Definition load_device_list_from_yml (entries : list DevEntry)
    (plugged : nat -> Plugged) (hw_controller : Uhubctl.t)
    : list Device * Uhubctl.t :=
  load_devices entries 0 plugged hw_controller.

End DevsBinding.

(** ** run_test_plan.py: the call of the runner method *)

Module TestRunnerCalls.
Import PyStr TestRunner.




End TestRunnerCalls.

(** ** run_test_plan.py: the test plan document *)

Module TestPlanYaml.










End TestPlanYaml.

(** ** run_test_plan.py: sequences of calls of the tracker *)

Module TrackerCalls.
Import TestPlanResults.

Inductive Call :=
| call_skip (name : string)
| call_fail (name : string)
| call_pass (name : string).

Definition call_name (c : Call) : string :=
  match c with
  | call_skip n | call_fail n | call_pass n => n
  end.

Definition apply_call (self : t) (c : Call) : t :=
  match c with
  | call_skip n => register_skip self n
  | call_fail n => register_fail self n
  | call_pass n => register_pass self n
  end.

Definition apply_calls (calls : list Call) (self : t) : t :=
  fold_left apply_call calls self.

(** [n] consecutive failures of one name *)
Fixpoint fail_times (n : nat) (name : string) (self : t) : t :=
  match n with
  | O => self
  | S n' => register_fail (fail_times n' name self) name
  end.

End TrackerCalls.

(** ** run_test_plan.py: the wait after a power cycle *)

Module SwitchReset.

(** The [while] loop of [__reset_switchable_devs]: [status k] is what
    the k-th call of [dev.switch.status()] answers; the result is
    [timeout] when the loop is left, the number of one-second sleeps.
    The loop is given [fuel] rounds. *)
Fixpoint poll (status : nat -> string) (timeout : nat) (fuel : nat) : nat :=
  match fuel with
  | O => timeout
  | S fuel' =>
      if negb (String.eqb (status timeout) "on connected")
         && (timeout <? 5)%nat
      then poll status (S timeout) fuel'
      else timeout
  end.

(** The seconds slept for one device with a switch: the polls and the
    settle delay of 2. *)
Definition reset_seconds (status : nat -> string) : nat :=
  (poll status 0 5 + 2)%nat.

End SwitchReset.

(** ** run_test_plan.py: the command line *)

Module TestPlanRunnerCLI.
Import PyStr.

(** The parsed arguments. *)
Record Namespace := mkArgs {
  test_suite : list string;
  test_plan : option string;
  hil_devs : option string;
  board : option string;
  dut_port : option string;
  stub_port : option string;
  max_retries : Z;
  mpy_root_dir : option string;
  mpy_root_path : option string
}.

(** Truth value of an optional string. *)
Definition truthy (v : option string) : bool :=
  match v with Some s => truthy_str s | None => false end.

Definition is_none {A : Type} (v : option A) : bool :=
  match v with Some _ => false | None => true end.

(** The file system as the validation uses it: [os.path.abspath], the
    default plan next to the script and the default root two levels
    up. *)
Record Paths := mkPaths {
  abspath : string -> string;
  default_test_plan : string;
  default_mpy_root : string
}.

(** [TestPlanRunnerCLI.__set_validate_args]; [inr msg] is
    [parser.error(msg)], which ends the process. *)
Definition set_validate_args (fs : Paths) (args : Namespace)
    : Namespace + string :=
  let step1 : Namespace + string :=
    if truthy (hil_devs args) then
      let hil := option_map (abspath fs) (hil_devs args) in
      if is_none (board args) then
        inr "--board is required when --hil-devs is provided"
      else if truthy (dut_port args) || truthy (stub_port args) then
        inr "--dut-port and --stub-port are not supported when --hil-devs is provided"
      else
        inl (mkArgs (test_suite args) (test_plan args) hil (board args)
               (dut_port args) (stub_port args) (max_retries args)
               (mpy_root_dir args) (mpy_root_path args))
    else
      if negb (is_none (board args)) then
        inr "--hil-devs is required when --board is provided"
      else
        let dut := match dut_port args with
                   | None => Some "/dev/ttyACM0"
                   | Some d => Some d
                   end in
        let stub := match stub_port args with
                    | None => Some "/dev/ttyACM1"
                    | Some d => Some d
                    end in
        inl (mkArgs (test_suite args) (test_plan args) (hil_devs args)
               (board args) dut stub (max_retries args)
               (mpy_root_dir args) (mpy_root_path args)) in
  match step1 with
  | inr msg => inr msg
  | inl args =>
      let plan := match test_plan args with
                  | None => Some (abspath fs (default_test_plan fs))
                  | Some p => Some (abspath fs p)
                  end in
      let root_path := match mpy_root_dir args with
                       | None => Some (abspath fs (default_mpy_root fs))
                       | Some _ => mpy_root_path args
                       end in
      inl (mkArgs (test_suite args) plan (hil_devs args) (board args)
             (dut_port args) (stub_port args) (max_retries args)
             (mpy_root_dir args) root_path)
  end.

(** The runner [main_run_test_plan] builds from the validated
    arguments; [No_runner] is the case in which neither branch assigns
    one and the call of [run] that follows raises. *)
Inductive Selected :=
| Runner_HIL (test_plan hil_devs board : option string)
| Runner_Ports (test_plan dut_port stub_port : option string)
| No_runner.

Definition select_runner (tpr_args : Namespace) : Selected :=
  if truthy (hil_devs tpr_args) then
    Runner_HIL (test_plan tpr_args) (hil_devs tpr_args) (board tpr_args)
  else if truthy (dut_port tpr_args) then
    Runner_Ports (test_plan tpr_args) (dut_port tpr_args)
      (stub_port tpr_args)
  else No_runner.

End TestPlanRunnerCLI.

(** ** devs_query.py: the filters of the command line *)

Module DevsQueryCLI.
Import PyStr.

(** One element of [args.filter]: with [nargs="*"] and
    [action="append"] every [-f] gives a list; the code also takes an
    element that is no list. *)
Inductive FilterArg :=
| Single (f : string)
| Several (fs : list string).

(** The flattening loop of [__set_validate_args] *)
Definition flatten (filter : list FilterArg) : list string :=
  flat_map (fun f => match f with
                     | Single s => [s]
                     | Several l => l
                     end) filter.

Definition has_eq (f : string) : bool := contains "=" f.

(** [DevsQueryCLI.__set_validate_args]: the new [args.filter], or
    [inr msg] for [parser.error(msg)]. An empty or absent [args.filter]
    is left as it is. *)
Definition set_validate_args (filter : option (list FilterArg))
    : option (list string) + string :=
  match filter with
  | None => inl None
  | Some [] => inl (Some [])
  | Some fl =>
      let simple_filter_list := flatten fl in
      if forallb has_eq simple_filter_list then inl (Some simple_filter_list)
      else inr "filter must be in format 'attribute=value'"
  end.

(** [f.split('=', 1)] *)
Fixpoint split_eq (f : string) : list string :=
  match f with
  | EmptyString => [EmptyString]
  | String c rest =>
      if Ascii.eqb c "="%char then [EmptyString; rest]
      else match split_eq rest with
           | a :: others => String c a :: others
           | [] => [String c EmptyString]
           end
  end.

(** [ObjectAttrQuerier.AttrQueryFilter] as [parse_filters] builds it *)
Record AttrQueryFilter := mkFilter {
  attr_key : string;
  attr_value : string;
  exact : bool
}.

(** [DevsQueryCLI.parse_filters]; [None] when the unpacking of a split
    raises. *)
Fixpoint parse_filters (filter_str_list : list string)
    : option (list AttrQueryFilter) :=
  match filter_str_list with
  | [] => Some []
  | filter_str :: rest =>
      match split_eq filter_str with
      | [attr_name; attr_value] =>
          match parse_filters rest with
          | Some filter_list =>
              Some (mkFilter attr_name attr_value true :: filter_list)
          | None => None
          end
      | _ => None
      end
  end.

End DevsQueryCLI.

(** ** run_test_plan.py: invariants of the passes of [run] *)

Module RetryRounds.
Import TestPlanResults TestPlanRunner.


(** No entry of the ledger grants more than [max_retries]. *)
Definition bounded_inv (max : Z) (s : t) : Prop :=
  max_retries s = max
  /\ Forall (fun r => (retries r <= max)%Z) (retry_test_list s).

(** Every name the tracker holds is the name of a test of [tests0],
    and so is every test still to run. *)
Definition names_inv (tests0 rest : list TestRunner.t) (s : t) : Prop :=
  incl rest tests0
  /\ forall n,
       In n (pass_test_name_list s) \/ In n (fail_test_name_list s)
       \/ In n (skip_test_name_list s) ->
       In n (map TestRunner.name tests0).

(** The invariant behind the bound on the number of passes, for a pass
    over the retry list [tests] at level [v]: next to [retry_inv], an
    entry of the ledger has no retry left, or belongs to a test still to
    run and grants at most [v], or belongs to a test of the pass that
    has run and grants at most [v - 1]. *)
Definition level_inv (w : World) (tests : list TestRunner.t) (v : Z)
    (l c : nat) (rest : list TestRunner.t) (s : t) : Prop :=
  retry_inv w l c rest s
  /\ incl rest tests
  /\ forall e, In e (retry_test_list s) ->
       (retries e <= 0)%Z
       \/ (In (test_name e) (map TestRunner.name rest)
           /\ (retries e <= v)%Z)
       \/ ((retries e <= v - 1)%Z
           /\ In (test_name e) (map TestRunner.name tests)).

End RetryRounds.

(** * Properties *)

(** ** The power-control output parser *)

Section UhubctlProperties.
Import PyStr Uhubctl.

Lemma re_search_hub_truthy (line hub : string) :
  re_search_hub line = Some hub -> truthy_str hub = true.
Proof.
  induction line as [|c rest IH]; [discriminate|].
  cbn [re_search_hub].
  destruct (String.prefix "hub " (String c rest)); [|exact IH].
  destruct (fst (span (fun c0 => negb (isspace c0)) (drop 4 (String c rest))))
    as [|d tok]; [exact IH|].
  intros H; injection H as <-; reflexivity.
Qed.

Lemma line_search_update_hub_ok (line : string) (cur : option string) :
  hub_ok cur -> hub_ok (line_search_update_hub line cur).
Proof.
  intros Hcur; unfold line_search_update_hub.
  destruct (startswith line "Current status for hub"); [|exact Hcur].
  destruct (re_search_hub line) as [hub|] eqn:E; [|exact Hcur].
  simpl; eapply re_search_hub_truthy; eassumption.
Qed.

Lemma truthy_hub_ok (h : option string) :
  hub_ok h -> truthy_hub h = match h with Some _ => true | None => false end.
Proof. destruct h; simpl; auto. Qed.

Lemma search_port_status_loop_find (hub : string) (port : Z)
    (lines : list string) :
  forall cur,
    search_port_status_loop hub port lines cur =
    match find (matches_hub_port hub port) (observe lines cur) with
    | Some o => classify (obs_line o)
    | None => unknown
    end.
Proof.
  induction lines as [|raw rest IH]; intros cur; [reflexivity|].
  cbn [search_port_status_loop observe find].
  unfold matches_hub_port at 1; cbn [obs_hub obs_port obs_line].
  fold (classify (strip raw)).
  destruct (hub_eq hub (line_search_update_hub (strip raw) cur)
            && port_eq port (line_search_port (strip raw))).
  - reflexivity.
  - apply IH.
Qed.

Lemma search_hub_port_by_desc_loop_find (desc_match : string)
    (lines : list string) :
  forall cur,
    hub_ok cur ->
    search_hub_port_by_desc_loop desc_match lines cur =
    match find (is_desc_line_nonzero desc_match) (observe lines cur) with
    | Some o => (obs_hub o, obs_port o)
    | None => (None, None)
    end.
Proof.
  induction lines as [|raw rest IH]; intros cur Hcur; [reflexivity|].
  cbn [search_hub_port_by_desc_loop observe find].
  pose proof (line_search_update_hub_ok (strip raw) cur Hcur) as Hnew.
  unfold is_desc_line_nonzero at 1; cbn [obs_hub obs_port obs_line].
  rewrite (truthy_hub_ok _ Hnew).
  specialize (IH _ Hnew).
  destruct (line_search_update_hub (strip raw) cur) as [h|];
    destruct (line_search_port (strip raw)) as [p|];
    cbn [truthy_port andb]; try exact IH.
  unfold truthy_int.
  destruct (negb (p =? 0)%Z && contains desc_match (strip raw)).
  - reflexivity.
  - exact IH.
Qed.

Lemma matches_hub_port_iff (hub : string) (port : Z) (o : Observed) :
  matches_hub_port hub port o = true <->
  obs_hub o = Some hub /\ obs_port o = Some port.
Proof.
  unfold matches_hub_port, hub_eq, port_eq.
  destruct (obs_hub o) as [h|], (obs_port o) as [p|];
    rewrite ?andb_true_iff, ?String.eqb_eq, ?Z.eqb_eq;
    split; intros [H1 H2]; try discriminate; split; congruence.
Qed.

(** The "no devices" exit: the slot is emptied and nothing is printed,
    whatever the tool wrote to stdout. *)
Lemma run_cmd_no_devices (cmd_args : list string)
    (uhub_proc : CompletedProcess) (self : t) :
  returncode uhub_proc <> 0%Z ->
  contains "No compatible devices detected!" (stderr uhub_proc) = true ->
  run_cmd cmd_args uhub_proc self = (mk "", []).
Proof.
  intros Hrc Herr; unfold run_cmd, are_devices_detected.
  apply Z.eqb_neq in Hrc; rewrite Hrc, Herr; reflexivity.
Qed.

(** Any other non-zero exit: the message is printed and the slot ends
    up holding the decoded stdout. *)
Lemma run_cmd_other_failure (cmd_args : list string)
    (uhub_proc : CompletedProcess) (self : t) :
  returncode uhub_proc <> 0%Z ->
  contains "No compatible devices detected!" (stderr uhub_proc) = false ->
  run_cmd cmd_args uhub_proc self =
  (mk (stdout uhub_proc), [command_failed cmd_args]).
Proof.
  intros Hrc Herr; unfold run_cmd, are_devices_detected.
  apply Z.eqb_neq in Hrc; rewrite Hrc, Herr; reflexivity.
Qed.

(** The four queries of section 8, evaluated. *)
Lemma sample_status_2_1_port_3 :
  snd (get_status status_proc init "2-1" 3) = on_connected.
Proof. vm_compute. reflexivity. Qed.

Lemma sample_status_1_1_3_port_1 :
  snd (get_status status_proc init "1-1.3" 1) = off.
Proof. vm_compute. reflexivity. Qed.

Lemma sample_status_1_1_3_port_3 :
  snd (get_status status_proc init "1-1.3" 3) = on_connected.
Proof. vm_compute. reflexivity. Qed.

Lemma sample_status_1_1_3_port_2 :
  snd (get_status status_proc init "1-1.3" 2) = unknown.
Proof. vm_compute. reflexivity. Qed.

(** C1. [getStatus] answers with the classification of the first line
    of the captured output that matches the queried hub/port pair: a
    line holding [" off"] gives [off]; else one holding [" power"] and
    ["enable connect"] gives [on_connected]; else one holding [" power"]
    gives [on]; any other matching line gives [unknown]; and when no
    line matches the answer is [unknown]. A line matches when the hub of
    its section and the port it carries are the queried ones
    ([matches_hub_port_iff]). On the sample block of section 8 the
    four queries of the specification give [on_connected], [off],
    [on_connected] and [unknown]. *)
Theorem get_status_classifies_first_match :
  (forall (self : t) (hub : string) (port : Z),
     output_search_port_status self hub port =
     match find (matches_hub_port hub port) (observations self) with
     | Some o =>
         if contains " off" (obs_line o) then off
         else if contains " power" (obs_line o)
                 && contains "enable connect" (obs_line o)
         then on_connected
         else if contains " power" (obs_line o) then on
         else unknown
     | None => unknown
     end)
  /\ (forall (uhub_proc : CompletedProcess) (self : t) (hub : string)
             (port : Z),
        snd (get_status uhub_proc self hub port) =
        output_search_port_status (fst (get_status uhub_proc self hub port))
          hub port)
  /\ snd (get_status status_proc init "2-1" 3) = on_connected
  /\ snd (get_status status_proc init "1-1.3" 1) = off
  /\ snd (get_status status_proc init "1-1.3" 3) = on_connected
  /\ snd (get_status status_proc init "1-1.3" 2) = unknown.
Proof.
  refine (conj _ (conj _ (conj sample_status_2_1_port_3
           (conj sample_status_1_1_3_port_1
              (conj sample_status_1_1_3_port_3
                 sample_status_1_1_3_port_2))))).
  - intros self hub port; unfold output_search_port_status, observations.
    rewrite search_port_status_loop_find.
    destruct (find _ _); reflexivity.
  - intros; reflexivity.
Qed.

Lemma failing_proc_run_cmd :
  run_cmd ["--location"; "2-1"; "--port"; "3"] failing_proc init =
  (mk sample_status_output,
   [command_failed ["--location"; "2-1"; "--port"; "3"]]).
Proof. vm_compute. reflexivity. Qed.

Lemma failing_proc_slot :
  last_cmd_output (fst (get_status failing_proc init "2-1" 3))
  = sample_status_output.
Proof. vm_compute. reflexivity. Qed.

Lemma failing_proc_status :
  snd (get_status failing_proc init "2-1" 3) = on_connected.
Proof. vm_compute. reflexivity. Qed.

Lemma sample_status_output_not_empty : sample_status_output <> "".
Proof. vm_compute. discriminate. Qed.

(** C2, at the failing input: the tool exits 1, complains on stderr
    about something else than missing devices, and has printed the
    section 8 block. The failure is printed, but the slot holds the
    block, not the empty string, and the status query that follows
    answers [on_connected], not [unknown]. *)
Theorem run_cmd_failure_keeps_stdout :
  run_cmd ["--location"; "2-1"; "--port"; "3"] failing_proc init =
    (mk sample_status_output,
     [command_failed ["--location"; "2-1"; "--port"; "3"]])
  /\ last_cmd_output (fst (get_status failing_proc init "2-1" 3)) <> ""
  /\ snd (get_status failing_proc init "2-1" 3) = on_connected.
Proof.
  refine (conj failing_proc_run_cmd (conj _ failing_proc_status)).
  rewrite failing_proc_slot; exact sample_status_output_not_empty.
Qed.

Lemma port_zero_spec :
  desc_spec (mk port_zero_output) "AB12" = (Some "1-1", Some 0%Z).
Proof. vm_compute. reflexivity. Qed.

Lemma port_zero_search :
  output_search_hub_port_by_desc (mk port_zero_output) "AB12"
  = (Some "1-1", Some 2%Z).
Proof. vm_compute. reflexivity. Qed.

Lemma sample_desc_search :
  snd (get_hub_port_by_desc desc_proc init "1106035A012D2400")
  = (Some "1-1", Some 2%Z).
Proof. vm_compute. reflexivity. Qed.

Lemma sample_desc_no_line :
  forallb (fun o => negb (contains "no such device" (obs_line o)))
          (observations (mk sample_desc_output)) = true.
Proof. vm_compute. reflexivity. Qed.

(** C3, as stated, fails on a line for port 0: the first port line of
    the hub section that holds the substring is the line of port 0, and
    the search answers with the line of port 2. *)
Lemma desc_search_skips_port_zero :
  desc_spec (mk port_zero_output) "AB12" = (Some "1-1", Some 0%Z)
  /\ output_search_hub_port_by_desc (mk port_zero_output) "AB12"
     = (Some "1-1", Some 2%Z).
Proof. exact (conj port_zero_spec port_zero_search). Qed.

(** C3, amended. [getHubPortByDesc] answers with the hub of the section
    and the port of the first port line with a port number other than 0
    that lies within a hub section and holds the substring, and with
    [(None, None)] when there is no such line; in particular when no
    line holds the substring. On the docstring example it answers
    [("1-1", 2)] for ["1106035A012D2400"]. *)
Theorem get_hub_port_by_desc_first_match :
  (forall (self : t) (desc_match : string),
     output_search_hub_port_by_desc self desc_match =
     match find (is_desc_line_nonzero desc_match) (observations self) with
     | Some o => (obs_hub o, obs_port o)
     | None => (None, None)
     end)
  /\ (forall (uhub_proc : CompletedProcess) (self : t)
             (desc_match : string),
        snd (get_hub_port_by_desc uhub_proc self desc_match) =
        output_search_hub_port_by_desc
          (fst (get_hub_port_by_desc uhub_proc self desc_match)) desc_match)
  /\ (forall (self : t) (desc_match : string),
        (forall o, In o (observations self) ->
                   contains desc_match (obs_line o) = false) ->
        output_search_hub_port_by_desc self desc_match = (None, None))
  /\ snd (get_hub_port_by_desc desc_proc init "1106035A012D2400")
     = (Some "1-1", Some 2%Z).
Proof.
  assert (Hfind : forall self desc_match,
             output_search_hub_port_by_desc self desc_match =
             match find (is_desc_line_nonzero desc_match)
                        (observations self) with
             | Some o => (obs_hub o, obs_port o)
             | None => (None, None)
             end).
  { intros self desc_match.
    unfold output_search_hub_port_by_desc, observations.
    apply search_hub_port_by_desc_loop_find; exact I. }
  refine (conj Hfind (conj _ (conj _ sample_desc_search))).
  { intros; reflexivity. }
  intros self desc_match Hnone; rewrite Hfind.
  destruct (find _ _) as [o|] eqn:E; [|reflexivity].
  apply find_some in E; destruct E as [Hin Hline].
  unfold is_desc_line_nonzero in Hline.
  destruct (obs_hub o), (obs_port o); try discriminate.
  rewrite (Hnone o Hin), andb_false_r in Hline; discriminate.
Qed.

Lemma get_hub_port_by_desc_first_match_witness :
  output_search_hub_port_by_desc (mk sample_desc_output) "no such device"
  = (None, None).
Proof.
  apply (proj1 (proj2 (proj2 get_hub_port_by_desc_first_match))).
  intros o Hin.
  pose proof (proj1 (forallb_forall _ _) sample_desc_no_line o Hin) as H.
  apply negb_true_iff in H; exact H.
Defined.

End UhubctlProperties.

(** ** The test catalog *)

Section TestRunnerProperties.
Import TestRunner.

(** C9. The type of a test record is the explicit type when one is
    given, unchanged; without one it is [multi_stub] when a stub script
    is present, else [single_post_delay] when the post-test delay is
    positive, else [single]; so a type that was not given is never
    inferred as [multi] or [custom]. *)
Theorem test_type_explicit_or_inferred :
  forall (name : string) (scripts excludes : list string)
         (post_test_delay : Z) (stub : option string)
         (dut_devs stub_devs : list SupportedDev) (post_stub_delay : Z)
         (args : list string),
    (forall ty,
        type (init name scripts excludes post_test_delay stub dut_devs
                stub_devs post_stub_delay (Some ty) args) = ty)
    /\ (forall script,
        type (init name scripts excludes post_test_delay (Some script)
                dut_devs stub_devs post_stub_delay None args)
        = "multi_stub")
    /\ type (init name scripts excludes post_test_delay None dut_devs
               stub_devs post_stub_delay None args)
       = (if (post_test_delay >? 0)%Z then "single_post_delay"
          else "single")
    /\ type (init name scripts excludes post_test_delay stub dut_devs
               stub_devs post_stub_delay None args) <> "multi"
    /\ type (init name scripts excludes post_test_delay stub dut_devs
               stub_devs post_stub_delay None args) <> "custom".
Proof.
  intros; cbn [init type init_type]; unfold determine_implicit_type.
  split; [intros ty; reflexivity|].
  split; [intros script; reflexivity|].
  split; [reflexivity|].
  split; destruct stub; try destruct (post_test_delay >? 0)%Z;
    discriminate.
Qed.

End TestRunnerProperties.

(** ** The result tracker *)

Section TestPlanResultsProperties.
Import TestPlanResults.

Lemma mem_true_iff (x : string) (l : list string) :
  mem x l = true <-> In x l.
Proof.
  unfold mem; rewrite existsb_exists; split.
  - intros [y [Hin Heq]]; apply String.eqb_eq in Heq; subst; exact Hin.
  - intros Hin; exists x; split; [exact Hin | apply String.eqb_refl].
Qed.

Lemma mem_false_iff (x : string) (l : list string) :
  mem x l = false <-> ~ In x l.
Proof.
  rewrite <- mem_true_iff; destruct (mem x l); split; intros H;
    try reflexivity; try discriminate; try (intros H'; discriminate).
  exfalso; apply H; reflexivity.
Qed.

Lemma remove_name_app_last (x : string) (l : list string) :
  ~ In x l -> remove_name x (l ++ [x]) = l.
Proof.
  induction l as [|y l IH]; intros Hnin; cbn [app remove_name].
  - rewrite String.eqb_refl; reflexivity.
  - destruct (String.eqb_spec y x) as [->|Hne].
    + exfalso; apply Hnin; left; reflexivity.
    + rewrite IH; [reflexivity|]. intros Hin; apply Hnin; right; exact Hin.
Qed.

Lemma retry_index_from_none (name : string) (l : list TestRetries) :
  forall i, retry_index_from i name l = None <-> no_entry name l.
Proof.
  induction l as [|r l IH]; intros i; cbn [retry_index_from].
  - split; [constructor | reflexivity].
  - destruct (String.eqb_spec (test_name r) name) as [Heq|Hne].
    + split; [discriminate|]. intros H; inversion H; contradiction.
    + rewrite IH; split.
      * intros H; constructor; assumption.
      * intros H; inversion H; assumption.
Qed.

Lemma retry_index_from_app_last (name : string) (rem : Z)
    (l : list TestRetries) :
  forall i,
    no_entry name l ->
    retry_index_from i name (l ++ [mkRetry name rem])
    = Some (i + List.length l)%nat.
Proof.
  induction l as [|r l IH]; intros i Hno; cbn [app retry_index_from].
  - cbn [test_name]; rewrite String.eqb_refl, Nat.add_0_r; reflexivity.
  - inversion Hno as [|? ? Hr Hl]; subst.
    apply String.eqb_neq in Hr; rewrite Hr.
    rewrite IH by assumption; cbn [List.length]; f_equal; lia.
Qed.

Lemma decrement_at_app_last (r : TestRetries) (l : list TestRetries) :
  decrement_at (List.length l) (l ++ [r])
  = l ++ [mkRetry (test_name r) (retries r - 1)].
Proof.
  induction l as [|y l IH]; cbn [app List.length decrement_at].
  - reflexivity.
  - rewrite IH; reflexivity.
Qed.

Lemma nth_error_app_last {A : Type} (x : A) (l : list A) :
  nth_error (l ++ [x]) (List.length l) = Some x.
Proof. induction l as [|y l IH]; [reflexivity | exact IH]. Qed.

Lemma retry_eqb_refl (r : TestRetries) : retry_eqb r r = true.
Proof. unfold retry_eqb; rewrite String.eqb_refl, Z.eqb_refl; reflexivity. Qed.

Lemma remove_retry_app_last (name : string) (rem : Z)
    (l : list TestRetries) :
  no_entry name l ->
  remove_retry (mkRetry name rem) (l ++ [mkRetry name rem]) = l.
Proof.
  induction l as [|y l IH]; intros Hno; cbn [app remove_retry].
  - rewrite retry_eqb_refl; reflexivity.
  - inversion Hno as [|? ? Hy Hl]; subst.
    unfold retry_eqb at 1; cbn [test_name].
    apply String.eqb_neq in Hy; rewrite Hy; cbn [andb].
    rewrite IH by assumption; reflexivity.
Qed.

Lemma filter_retries_names (self : t) (tests : list TestRunner.t)
    (test : TestRunner.t) :
  In test (filter_retries self tests) ->
  In test tests
  /\ exists retry, In retry (retry_test_list self)
                   /\ test_name retry = TestRunner.name test
                   /\ (retries retry > 0)%Z.
Proof.
  unfold filter_retries; intros Hin.
  apply in_flat_map in Hin; destruct Hin as [t0 [Ht0 Hin]].
  apply in_flat_map in Hin; destruct Hin as [retry [Hretry Hin]].
  destruct (String.eqb_spec (TestRunner.name t0) (test_name retry))
    as [Heq|Hne]; cbn [andb] in Hin; [|contradiction].
  destruct (retries retry >? 0)%Z eqn:Hpos; [|contradiction].
  destruct Hin as [<-|[]]; split; [exact Ht0|].
  exists retry; repeat split; [exact Hretry | symmetry; exact Heq |].
  apply Z.gtb_lt in Hpos; lia.
Qed.

(** C4. Retry ledger law. From a tracker in which the name has not
    failed yet and holds no ledger entry (a fresh tracker is one), a
    failure creates the entry with [max_retries] remaining, a second
    failure decrements it once, and a pass removes it: no entry for the
    name is left, the failed list is as before and the name is in the
    passed list. With [max_retries = 0], one failure leaves the name in
    the failed list and [filter_retries] keeps no test of that name. *)
Theorem retry_ledger_law (self : t) (name : string) :
  mem name (fail_test_name_list self) = false ->
  get_test_retry_index self name = None ->
  let s1 := register_fail self name in
  let s2 := register_fail s1 name in
  let s3 := register_pass s2 name in
  remaining s1 name = Some (max_retries self)
  /\ remaining s2 name = Some (max_retries self - 1)%Z
  /\ retry_test_list s2
     = retry_test_list self ++ [mkRetry name (max_retries self - 1)]
  /\ get_test_retry_index s3 name = None
  /\ retry_test_list s3 = retry_test_list self
  /\ fail_test_name_list s3 = fail_test_name_list self
  /\ mem name (pass_test_name_list s3) = true
  /\ (max_retries self = 0%Z ->
      mem name (fail_test_name_list s1) = true
      /\ forall tests test,
           In test (filter_retries s1 tests) -> TestRunner.name test <> name).
Proof.
  intros Hfail Hidx.
  pose proof (proj1 (mem_false_iff _ _) Hfail) as Hnin.
  pose proof (proj1 (retry_index_from_none _ _ _) Hidx) as Hno.
  assert (E1 : register_fail self name =
               mk (pass_test_name_list self) (skip_test_name_list self)
                  (fail_test_name_list self ++ [name]) (max_retries self)
                  (retry_test_list self ++ [mkRetry name (max_retries self)])).
  { unfold register_fail; rewrite Hfail; reflexivity. }
  assert (Hmem1 : mem name (fail_test_name_list self ++ [name]) = true).
  { apply mem_true_iff, in_or_app; right; left; reflexivity. }
  assert (E2 : register_fail (register_fail self name) name =
               mk (pass_test_name_list self) (skip_test_name_list self)
                  (fail_test_name_list self ++ [name]) (max_retries self)
                  (retry_test_list self
                     ++ [mkRetry name (max_retries self - 1)])).
  { rewrite E1; unfold register_fail, get_test_retry_index.
    cbn [fail_test_name_list retry_test_list pass_test_name_list
         skip_test_name_list max_retries].
    rewrite Hmem1; cbn [negb].
    rewrite retry_index_from_app_last by assumption; cbn [Nat.add].
    rewrite decrement_at_app_last; reflexivity. }
  assert (E3 : register_pass (register_fail (register_fail self name) name)
                 name =
               let p := pass_test_name_list self in
               mk (if mem name p then p else p ++ [name])
                  (skip_test_name_list self)
                  (fail_test_name_list self) (max_retries self)
                  (retry_test_list self)).
  { rewrite E2; unfold register_pass, get_test_retry_index.
    cbn [fail_test_name_list retry_test_list pass_test_name_list
         skip_test_name_list max_retries].
    rewrite Hmem1.
    rewrite retry_index_from_app_last by assumption; cbn [Nat.add].
    rewrite nth_error_app_last, remove_retry_app_last by assumption.
    rewrite remove_name_app_last by assumption.
    cbn [fail_test_name_list retry_test_list pass_test_name_list
         skip_test_name_list max_retries].
    destruct (mem name (pass_test_name_list self)); reflexivity. }
  cbv zeta; rewrite E3, E2, E1.
  unfold remaining, get_test_retry_index.
  cbn [fail_test_name_list retry_test_list pass_test_name_list
       skip_test_name_list max_retries].
  rewrite !retry_index_from_app_last by assumption; cbn [Nat.add].
  rewrite !nth_error_app_last; cbn [option_map retries].
  repeat apply conj; try reflexivity.
  - apply retry_index_from_none; exact Hno.
  - destruct (mem name (pass_test_name_list self)) eqn:Hp; [exact Hp|].
    apply mem_true_iff, in_or_app; right; left; reflexivity.
  - intros Hzero; split; [exact Hmem1|].
    intros tests test Hin Hname.
    apply filter_retries_names in Hin.
    destruct Hin as [_ [retry [Hretry [Hrn Hpos]]]].
    cbn [retry_test_list] in Hretry.
    apply in_app_or in Hretry; destruct Hretry as [Hold|[<-|[]]].
    + unfold no_entry in Hno; rewrite Forall_forall in Hno.
      apply (Hno retry Hold); congruence.
    + cbn [retries] in Hpos; lia.
Qed.

Lemma retry_ledger_law_witness :
  let s1 := register_fail (init 0) "T3" in
  let s2 := register_fail s1 "T3" in
  let s3 := register_pass s2 "T3" in
  remaining s1 "T3" = Some 0%Z
  /\ remaining s2 "T3" = Some (0 - 1)%Z
  /\ retry_test_list s2 = [] ++ [mkRetry "T3" (0 - 1)]
  /\ get_test_retry_index s3 "T3" = None
  /\ retry_test_list s3 = []
  /\ fail_test_name_list s3 = []
  /\ mem "T3" (pass_test_name_list s3) = true
  /\ mem "T3" (fail_test_name_list s1) = true
  /\ forall tests test,
       In test (filter_retries s1 tests) -> TestRunner.name test <> "T3".
Proof.
  destruct (retry_ledger_law (init 0) "T3" eq_refl eq_refl)
    as (H1 & H2 & H3 & H4 & H5 & H6 & H7 & H8).
  specialize (H8 eq_refl).
  exact (conj H1 (conj H2 (conj H3 (conj H4 (conj H5 (conj H6 (conj H7 H8))))))).
Defined.

(** *** The ledger follows the failed list *)

Lemma ledger_ok_init (max : Z) : ledger_ok (init max).
Proof. split; [reflexivity | constructor]. Qed.

Lemma ledger_ok_register_skip (self : t) (name : string) :
  ledger_ok self -> ledger_ok (register_skip self name).
Proof. intros H; exact H. Qed.

Lemma map_decrement_at (i : nat) (l : list TestRetries) :
  map test_name (decrement_at i l) = map test_name l.
Proof.
  revert i; induction l as [|r l IH]; intros [|i]; cbn [decrement_at map];
    try reflexivity.
  rewrite IH; reflexivity.
Qed.

Lemma NoDup_app_last (x : string) (l : list string) :
  NoDup l -> ~ In x l -> NoDup (l ++ [x]).
Proof.
  induction l as [|y l IH]; intros Hnd Hnin; cbn [app].
  - constructor; [intros [] | constructor].
  - inversion Hnd as [|? ? Hy Hl]; subst; constructor.
    + intros Hin; apply in_app_or in Hin; destruct Hin as [Hin|[->|[]]].
      * exact (Hy Hin).
      * apply Hnin; left; reflexivity.
    + apply IH; [exact Hl|]. intros Hin; apply Hnin; right; exact Hin.
Qed.

Lemma ledger_ok_register_fail (self : t) (name : string) :
  ledger_ok self -> ledger_ok (register_fail self name).
Proof.
  intros [Hnames Hnd]; unfold register_fail.
  destruct (mem name (fail_test_name_list self)) eqn:Hmem; cbn [negb].
  - destruct (get_test_retry_index self name) as [i|];
      [|split; assumption].
    split; cbn [retry_test_list fail_test_name_list]; [|exact Hnd].
    rewrite map_decrement_at; exact Hnames.
  - apply mem_false_iff in Hmem.
    split; cbn [retry_test_list fail_test_name_list].
    + rewrite map_app, Hnames; reflexivity.
    + apply NoDup_app_last; assumption.
Qed.

Lemma In_remove_name (x y : string) (l : list string) :
  In y (remove_name x l) -> In y l.
Proof.
  induction l as [|z l IH]; cbn [remove_name]; [intros []|].
  destruct (String.eqb z x).
  - intros H; right; exact H.
  - intros [->|H]; [left; reflexivity | right; exact (IH H)].
Qed.

Lemma NoDup_remove_name (x : string) (l : list string) :
  NoDup l -> NoDup (remove_name x l) /\ ~ In x (remove_name x l).
Proof.
  induction l as [|z l IH]; intros Hnd; cbn [remove_name].
  - split; [constructor | intros []].
  - inversion Hnd as [|? ? Hz Hl]; subst.
    destruct (String.eqb_spec z x) as [->|Hne]; [split; assumption|].
    destruct (IH Hl) as [IH1 IH2]; split.
    + constructor; [|exact IH1].
      intros Hin; apply Hz; eapply In_remove_name; exact Hin.
    + intros [Heq|Hin]; [exact (Hne Heq) | exact (IH2 Hin)].
Qed.

(** The entry [register_pass] removes is the first one of that name. *)
Lemma retry_index_from_some (name : string) (l : list TestRetries) :
  forall i idx,
    retry_index_from i name l = Some idx ->
    exists k r,
      idx = (i + k)%nat
      /\ nth_error l k = Some r
      /\ test_name r = name
      /\ map test_name (remove_retry r l)
         = remove_name name (map test_name l).
Proof.
  induction l as [|r0 l IH]; intros i idx; cbn [retry_index_from];
    [discriminate|].
  destruct (String.eqb_spec (test_name r0) name) as [Heq|Hne].
  - intros H; injection H as <-; exists 0%nat, r0.
    cbn [nth_error remove_retry map remove_name].
    rewrite retry_eqb_refl, Heq, String.eqb_refl.
    repeat split; lia.
  - intros H; destruct (IH _ _ H) as [k [r [Hidx [Hnth [Hr Hmap]]]]].
    exists (S k), r; cbn [nth_error remove_retry map remove_name].
    apply String.eqb_neq in Hne.
    unfold retry_eqb at 1; rewrite Hr, Hne; cbn [andb map].
    rewrite Hmap; repeat split; try assumption; lia.
Qed.

Lemma ledger_ok_register_pass (self : t) (name : string) :
  ledger_ok self ->
  ledger_ok (register_pass self name)
  /\ (forall x, In x (fail_test_name_list (register_pass self name)) ->
                In x (fail_test_name_list self) /\ x <> name).
Proof.
  intros [Hnames Hnd].
  assert (Hkeep : forall s' : t,
             ledger_ok s' ->
             ledger_ok
               (if negb (mem name (pass_test_name_list s'))
                then mk (pass_test_name_list s' ++ [name])
                        (skip_test_name_list s') (fail_test_name_list s')
                        (max_retries s') (retry_test_list s')
                else s')).
  { intros s' H; destruct (negb _); exact H. }
  assert (Hfail : forall s' : t,
             fail_test_name_list
               (if negb (mem name (pass_test_name_list s'))
                then mk (pass_test_name_list s' ++ [name])
                        (skip_test_name_list s') (fail_test_name_list s')
                        (max_retries s') (retry_test_list s')
                else s') = fail_test_name_list s').
  { intros s'; destruct (negb _); reflexivity. }
  unfold register_pass; cbv zeta.
  destruct (mem name (fail_test_name_list self)) eqn:Hmem.
  - destruct (NoDup_remove_name name _ Hnd) as [Hnd' Hnin'].
    split.
    + apply Hkeep; split; cbn [retry_test_list fail_test_name_list];
        [|exact Hnd'].
      unfold get_test_retry_index.
      destruct (retry_index_from 0 name (retry_test_list self))
        as [idx|] eqn:Hidx.
      * destruct (retry_index_from_some _ _ _ _ Hidx)
          as [k [r [Hk [Hnth [_ Hmap]]]]].
        cbn [Nat.add] in Hk; subst idx; rewrite Hnth, Hmap, Hnames.
        reflexivity.
      * apply retry_index_from_none in Hidx.
        apply mem_true_iff in Hmem; rewrite <- Hnames in Hmem.
        apply in_map_iff in Hmem; destruct Hmem as [r [Hr Hin]].
        unfold no_entry in Hidx; rewrite Forall_forall in Hidx.
        exfalso; exact (Hidx r Hin Hr).
    + intros x; rewrite Hfail; cbn [fail_test_name_list]; intros Hin.
      split; [eapply In_remove_name; exact Hin|].
      intros ->; exact (Hnin' Hin).
  - apply mem_false_iff in Hmem; split.
    + apply Hkeep; split; assumption.
    + intros x; rewrite Hfail; intros Hin; split; [exact Hin|].
      intros ->; exact (Hmem Hin).
Qed.

Lemma pass_list_register_pass (self : t) (name x : string) :
  In x (pass_test_name_list (register_pass self name)) <->
  In x (pass_test_name_list self) \/ x = name.
Proof.
  unfold register_pass; cbv zeta.
  set (s1 := if mem name (fail_test_name_list self) then _ else self).
  assert (Hp : pass_test_name_list s1 = pass_test_name_list self).
  { subst s1; destruct (mem name (fail_test_name_list self)); reflexivity. }
  destruct (mem name (pass_test_name_list s1)) eqn:Hmem; cbn [negb].
  - rewrite Hp in *; apply mem_true_iff in Hmem; split.
    + intros H; left; exact H.
    + intros [H| ->]; assumption.
  - cbn [pass_test_name_list]; rewrite Hp, in_app_iff; cbn [In].
    split.
    + intros [H|[<-|[]]]; [left; exact H | right; reflexivity].
    + intros [H| ->]; [left; exact H | right; left; reflexivity].
Qed.

Lemma pass_list_register_fail (self : t) (name : string) :
  pass_test_name_list (register_fail self name) = pass_test_name_list self.
Proof.
  unfold register_fail; destruct (negb _); [reflexivity|].
  destruct (get_test_retry_index self name); reflexivity.
Qed.

Lemma skip_list_register_fail (self : t) (name : string) :
  skip_test_name_list (register_fail self name) = skip_test_name_list self.
Proof.
  unfold register_fail; destruct (negb _); [reflexivity|].
  destruct (get_test_retry_index self name); reflexivity.
Qed.

Lemma skip_list_register_pass (self : t) (name : string) :
  skip_test_name_list (register_pass self name) = skip_test_name_list self.
Proof.
  unfold register_pass; cbv zeta.
  destruct (mem name (fail_test_name_list self));
    destruct (negb _); reflexivity.
Qed.

Lemma fail_list_register_fail (self : t) (name x : string) :
  In x (fail_test_name_list (register_fail self name)) <->
  In x (fail_test_name_list self) \/ x = name.
Proof.
  unfold register_fail.
  destruct (mem name (fail_test_name_list self)) eqn:Hmem; cbn [negb].
  - apply mem_true_iff in Hmem.
    assert (E : fail_test_name_list
                  match get_test_retry_index self name with
                  | Some i =>
                      mk (pass_test_name_list self)
                         (skip_test_name_list self)
                         (fail_test_name_list self) (max_retries self)
                         (decrement_at i (retry_test_list self))
                  | None => self
                  end = fail_test_name_list self).
    { destruct (get_test_retry_index self name); reflexivity. }
    rewrite E; split; [intros H; left; exact H|].
    intros [H| ->]; assumption.
  - cbn [fail_test_name_list]; rewrite in_app_iff; cbn [In].
    split.
    + intros [H|[<-|[]]]; [left; exact H | right; reflexivity].
    + intros [H| ->]; [left; exact H | right; left; reflexivity].
Qed.

(** The tests [filter_retries] keeps are tests of the list whose name
    is in the failed list. *)
Lemma filter_retries_failed (self : t) (tests : list TestRunner.t)
    (test : TestRunner.t) :
  ledger_ok self ->
  In test (filter_retries self tests) ->
  In test tests /\ In (TestRunner.name test) (fail_test_name_list self).
Proof.
  intros [Hnames _] Hin; apply filter_retries_names in Hin.
  destruct Hin as [Hin [retry [Hretry [Hname _]]]]; split; [exact Hin|].
  rewrite <- Hnames, <- Hname; apply in_map; exact Hretry.
Qed.

(** With one entry per name, [filter_retries] keeps a test at most
    once. *)
Lemma filter_retries_inner (name : string) (l : list TestRetries)
    (test : TestRunner.t) :
  NoDup (map test_name l) ->
  let kept :=
    flat_map
      (fun retry =>
         if String.eqb name (test_name retry) && (retries retry >? 0)%Z
         then [test] else [])
      l in
  kept = [] \/ kept = [test].
Proof.
  induction l as [|r l IH]; intros Hnd; cbn [flat_map map] in *.
  - left; reflexivity.
  - inversion Hnd as [|? ? Hr Hl]; subst.
    destruct (String.eqb_spec name (test_name r)) as [Heq|Hne];
      cbn [andb]; [|exact (IH Hl)].
    assert (Hrest : flat_map
                      (fun retry =>
                         if String.eqb name (test_name retry)
                            && (retries retry >? 0)%Z
                         then [test] else []) l = []).
    { clear IH Hnd Hl. induction l as [|y l IHl]; [reflexivity|].
      cbn [flat_map].
      destruct (String.eqb_spec name (test_name y)) as [Hy|Hy]; cbn [andb].
      - exfalso; apply Hr; left; congruence.
      - apply IHl. intros Hin; apply Hr; right; exact Hin. }
    rewrite Hrest.
    destruct (retries r >? 0)%Z; [right | left]; reflexivity.
Qed.

Lemma filter_retries_NoDup (self : t) (tests : list TestRunner.t) :
  ledger_ok self ->
  NoDup (map TestRunner.name tests) ->
  NoDup (map TestRunner.name (filter_retries self tests)).
Proof.
  intros [Hnames Hnd] Htests; rewrite <- Hnames in Hnd.
  unfold filter_retries.
  induction tests as [|t tests IH]; cbn [flat_map map]; [constructor|].
  inversion Htests as [|? ? Ht Hts]; subst.
  destruct (filter_retries_inner (TestRunner.name t) _ t Hnd) as [E|E];
    cbv zeta in E; rewrite E; cbn [app]; [exact (IH Hts)|].
  cbn [map]; constructor; [|exact (IH Hts)].
  intros Hin; apply Ht.
  apply in_map_iff in Hin; destruct Hin as [t' [Hname Hin]].
  apply in_flat_map in Hin; destruct Hin as [t0 [Ht0 Hin]].
  assert (Ht' : t' = t0).
  { apply in_flat_map in Hin; destruct Hin as [retry [_ Hin]].
    destruct (_ && _); [destruct Hin as [<-|[]]; reflexivity | destruct Hin]. }
  subst t'; rewrite <- Hname; apply in_map; exact Ht0.
Qed.

(** *** The budget *)

Lemma unique_entry (n : string) (r : Z) (r0 : TestRetries)
    (l : list TestRetries) :
  NoDup (map test_name (r0 :: l)) ->
  In (mkRetry n r) (r0 :: l) ->
  test_name r0 = n ->
  r0 = mkRetry n r.
Proof.
  cbn [map]; intros Hnd [Hin|Hin] Hname; [exact Hin|].
  inversion Hnd as [|? ? Hhead _]; subst.
  exfalso; apply Hhead.
  change (test_name r0) with (test_name (mkRetry (test_name r0) r)).
  apply in_map; exact Hin.
Qed.

Lemma list_sum_cons (x : nat) (l : list nat) :
  list_sum (x :: l) = (x + list_sum l)%nat.
Proof. reflexivity. Qed.

Lemma decrement_entry (n : string) (r : Z) (l : list TestRetries) :
  NoDup (map test_name l) ->
  In (mkRetry n r) l ->
  (0 < r)%Z ->
  forall k,
    exists i,
      retry_index_from k n l = Some (k + i)%nat
      /\ (list_sum (map weight (decrement_at i l)) + 1
          = list_sum (map weight l))%nat
      /\ (forall m r', m <> n -> In (mkRetry m r') l ->
                       In (mkRetry m r') (decrement_at i l)).
Proof.
  induction l as [|r0 l IH]; intros Hnd Hin Hpos k; [destruct Hin|].
  cbn [retry_index_from].
  destruct (String.eqb_spec (test_name r0) n) as [Heq|Hne].
  - pose proof (unique_entry n r r0 l Hnd Hin Heq) as ->.
    exists 0%nat; cbn [decrement_at map test_name retries]; rewrite !list_sum_cons.
    split; [f_equal; lia|]. split.
    + unfold weight; cbn [retries]; lia.
    + intros m r' Hm [H|H]; [injection H as <- _; contradiction|].
      right; exact H.
  - cbn [map] in Hnd; inversion Hnd as [|? ? _ Hnd']; subst.
    destruct Hin as [Hin|Hin]; [subst r0; contradiction|].
    destruct (IH Hnd' Hin Hpos (S k)) as [i [Hidx [Hsum Hothers]]].
    exists (S i); cbn [decrement_at map]; rewrite !list_sum_cons.
    split; [rewrite Hidx; f_equal; lia|]. split; [lia|].
    intros m r' Hm [H|H]; [left; exact H | right; exact (Hothers m r' Hm H)].
Qed.

Lemma remove_entry (n : string) (r : Z) (l : list TestRetries) :
  NoDup (map test_name l) ->
  In (mkRetry n r) l ->
  forall k,
    exists i,
      retry_index_from k n l = Some (k + i)%nat
      /\ nth_error l i = Some (mkRetry n r)
      /\ (list_sum (map weight (remove_retry (mkRetry n r) l))
          + Z.to_nat r = list_sum (map weight l))%nat
      /\ (forall m r', m <> n -> In (mkRetry m r') l ->
                       In (mkRetry m r') (remove_retry (mkRetry n r) l)).
Proof.
  induction l as [|r0 l IH]; intros Hnd Hin k; [destruct Hin|].
  cbn [retry_index_from].
  destruct (String.eqb_spec (test_name r0) n) as [Heq|Hne].
  - pose proof (unique_entry n r r0 l Hnd Hin Heq) as ->.
    exists 0%nat; cbn [nth_error remove_retry map]; rewrite !list_sum_cons.
    rewrite retry_eqb_refl.
    split; [f_equal; lia|]. split; [reflexivity|]. split.
    + unfold weight; cbn [retries]; lia.
    + intros m r' Hm [H|H]; [injection H as <- _; contradiction | exact H].
  - cbn [map] in Hnd; inversion Hnd as [|? ? _ Hnd']; subst.
    destruct Hin as [Hin|Hin]; [subst r0; contradiction|].
    destruct (IH Hnd' Hin (S k)) as [i [Hidx [Hnth [Hsum Hothers]]]].
    exists (S i); cbn [nth_error remove_retry map].
    assert (Hneq : retry_eqb r0 (mkRetry n r) = false).
    { unfold retry_eqb; cbn [test_name].
      apply String.eqb_neq in Hne; rewrite Hne; reflexivity. }
    rewrite !Hneq; cbn [map]; rewrite !list_sum_cons.
    split; [rewrite Hidx; f_equal; lia|]. split; [exact Hnth|].
    split; [lia|].
    intros m r' Hm [H|H]; [left; exact H | right; exact (Hothers m r' Hm H)].
Qed.

Lemma ledger_names_NoDup (self : t) :
  ledger_ok self -> NoDup (map test_name (retry_test_list self)).
Proof. intros [Hnames Hnd]; rewrite Hnames; exact Hnd. Qed.

Lemma ledger_entry_failed (self : t) (n : string) (r : Z) :
  ledger_ok self ->
  In (mkRetry n r) (retry_test_list self) ->
  mem n (fail_test_name_list self) = true.
Proof.
  intros [Hnames _] Hin; apply mem_true_iff; rewrite <- Hnames.
  change n with (test_name (mkRetry n r)); apply in_map; exact Hin.
Qed.

(** A failure of a name with retries left takes one retry off the
    budget and leaves the other entries alone. *)
Lemma register_fail_existing (self : t) (n : string) (r : Z) :
  ledger_ok self ->
  In (mkRetry n r) (retry_test_list self) ->
  (0 < r)%Z ->
  (budget (register_fail self n) + 1 = budget self)%nat
  /\ (forall m r', m <> n ->
                   In (mkRetry m r') (retry_test_list self) ->
                   In (mkRetry m r') (retry_test_list (register_fail self n))).
Proof.
  intros Hok Hin Hpos.
  pose proof (ledger_entry_failed self n r Hok Hin) as Hmem.
  destruct (decrement_entry n r _ (ledger_names_NoDup self Hok) Hin Hpos 0)
    as [i [Hidx [Hsum Hothers]]].
  unfold register_fail, get_test_retry_index; rewrite Hmem, Hidx.
  cbn [negb Nat.add]; unfold budget; cbn [retry_test_list].
  split; [exact Hsum | exact Hothers].
Qed.

(** A pass of a name with a ledger entry takes the entry, and with it
    its retries, off the budget and leaves the other entries alone. *)
Lemma register_pass_existing (self : t) (n : string) (r : Z) :
  ledger_ok self ->
  In (mkRetry n r) (retry_test_list self) ->
  (budget (register_pass self n) + Z.to_nat r = budget self)%nat
  /\ (forall m r', m <> n ->
                   In (mkRetry m r') (retry_test_list self) ->
                   In (mkRetry m r') (retry_test_list (register_pass self n))).
Proof.
  intros Hok Hin.
  pose proof (ledger_entry_failed self n r Hok Hin) as Hmem.
  destruct (remove_entry n r _ (ledger_names_NoDup self Hok) Hin 0)
    as [i [Hidx [Hnth [Hsum Hothers]]]].
  unfold register_pass, get_test_retry_index; cbv zeta.
  rewrite Hmem, Hidx; cbn [Nat.add]; rewrite Hnth.
  cbn [pass_test_name_list].
  destruct (negb (mem n (pass_test_name_list self)));
    unfold budget; cbn [retry_test_list]; split; assumption.
Qed.

End TestPlanResultsProperties.

(** ** Device resolution from the HIL catalog *)

Section TestPlanRunnerHILProperties.
Import Devs TestPlanRunnerHIL Scenario.

Lemma first_other_differs (dut_address : string) (stub_dev : Device)
    (devs : list Device) (a : DevAccessSerial) :
  access stub_dev = None ->
  access (first_other dut_address stub_dev devs) = Some a ->
  get_address a <> dut_address.
Proof.
  intros Hstub; induction devs as [|dev rest IH]; cbn [first_other].
  - rewrite Hstub; discriminate.
  - destruct (access dev) as [b|] eqn:Hb; [|exact IH].
    destruct (String.eqb_spec (get_address b) dut_address) as [Heq|Hne];
      cbn [negb]; [exact IH|].
    rewrite Hb; intros H; injection H as <-; exact Hne.
Qed.

(** The resolution below the two placeholder lines does what C10
    says: entered with a stub placeholder that has no access, a stub it
    returns with an access lies at another address than the device
    under test, which has an access too. *)
Lemma resolution_stub_address_differs (dut_dev0 stub_dev0 : Device)
    (load : Registry) (calls : nat) (board : string) (test : TestRunner.t)
    (dut_dev stub_dev : Device) (calls' : nat)
    (stub_access : DevAccessSerial) :
  access stub_dev0 = None ->
  resolve_test_devs dut_dev0 stub_dev0 load calls board test
  = (dut_dev, stub_dev, calls') ->
  access stub_dev = Some stub_access ->
  exists dut_access,
    access dut_dev = Some dut_access
    /\ get_address stub_access <> get_address dut_access.
Proof.
  intros Hstub0; unfold resolve_test_devs.
  destruct (get_devs_for_role load calls test board TestRunner.DUT)
    as [dut_dev_list calls1].
  destruct dut_dev_list as [|d ds].
  - intros H; injection H as <- <- <-; rewrite Hstub0; discriminate.
  - destruct (access (first_accessible dut_dev0 (d :: ds)))
      as [dut_access|] eqn:Hdut.
    + destruct (TestRunner.requires_multiple_devs test).
      * destruct (get_devs_for_role load calls1 test board TestRunner.STUB)
          as [stub_dev_list calls2].
        intros H; injection H as <- <- <-; intros Hstub.
        exists dut_access; split; [exact Hdut|].
        eapply first_other_differs; [exact Hstub0 | exact Hstub].
      * intros H; injection H as <- <- <-; rewrite Hstub0; discriminate.
    + intros H; injection H as <- <- <-; rewrite Hstub0; discriminate.
Qed.



End TestPlanRunnerHILProperties.

(** ** The execution loop *)

Section LoopInvariant.
Import TestPlanResults TestPlanRunner.

Variable w : World.

(** What one iteration does to the tracker. *)
Lemma iteration_cases (tick : nat) (test : TestRunner.t) (s : t) :
  match iteration w tick test s with
  | Continue ev s' =>
      (available_at w tick test = false
       /\ ev = [test_skip_info (TestRunner.name test)]
       /\ s' = register_skip s (TestRunner.name test))
      \/ (available_at w tick test = true
          /\ (s' = register_fail s (TestRunner.name test)
              \/ s' = register_pass s (TestRunner.name test)))
  | Raise _ => available_at w tick test = true
  end.
Proof.
  unfold iteration, available_at.
  destruct (get_test_devs w tick test) as [dut_dev stub_dev].
  destruct (get_test_ports dut_dev stub_dev) as [dut_port stub_port].
  destruct (TestRunner.are_supported_devs_available test dut_port stub_port);
    cbn [negb].
  - destruct (TestRunner.run test (procs w tick) dut_port stub_port)
      as [ret_code|]; [|reflexivity].
    destruct (negb (ret_code =? 0)%Z); right; split; auto.
  - left; repeat split.
Qed.

(** An invariant [J] of the loop: it speaks of the tests still to run
    in the pass and of the tracker; [T] is what it asks of the list of
    a pass. *)
Variable J : list TestRunner.t -> t -> Prop.
Variable T : list TestRunner.t -> Prop.

Hypothesis J_step :
  forall tick test rest s ev s',
    J (test :: rest) s ->
    iteration w tick test s = Continue ev s' ->
    J rest s'.

Hypothesis J_next :
  forall tests s,
    T tests -> J [] s ->
    T (filter_retries s tests) /\ J (filter_retries s tests) s.

Lemma for_tests_invariant (tests : list TestRunner.t) :
  forall tick s evs sts final tick' raised,
    for_tests w tests tick s = (evs, sts, final, tick', raised) ->
    J tests s ->
    Forall (fun s' => exists rest, J rest s') sts
    /\ (raised = false -> J [] final).
Proof.
  induction tests as [|test rest IH];
    intros tick s evs sts final tick' raised; cbn [for_tests].
  - intros H HJ; injection H as <- <- <- <- <-.
    split; [constructor | intros _; exact HJ].
  - destruct (iteration w tick test s) as [ev s'|ev] eqn:Hit.
    + destruct (for_tests w rest (S tick) s')
        as [[[[evs0 sts0] final0] tick0] raised0] eqn:Hrest.
      intros H HJ; injection H as <- <- <- <- <-.
      pose proof (J_step _ _ _ _ _ _ HJ Hit) as HJ'.
      destruct (IH _ _ _ _ _ _ _ Hrest HJ') as [Hsts Hfinal].
      split; [|exact Hfinal].
      constructor; [exists rest; exact HJ' | exact Hsts].
    + intros H HJ; injection H as <- <- <- <- <-.
      split; [constructor | discriminate].
Qed.

Lemma while_pending_invariant (fuel : nat) :
  forall tests tick s,
    T tests -> J tests s ->
    Forall (fun s' => exists rest, J rest s')
           (flat_map pass_states (fst (while_pending fuel w tests tick s)))
    /\ Forall (fun p => pass_raised p = false -> J [] (pass_results p))
              (fst (while_pending fuel w tests tick s)).
Proof.
  induction fuel as [|fuel IH]; intros tests tick s HT HJ;
    cbn [while_pending].
  - split; constructor.
  - unfold run_pass.
    destruct (for_tests w tests tick s)
      as [[[[evs sts] final] tick'] raised] eqn:Hfor.
    destruct (for_tests_invariant _ _ _ _ _ _ _ _ Hfor HJ) as [Hsts Hfin].
    cbn [pass_raised pass_results pass_tick].
    destruct raised.
    + cbn [fst flat_map pass_states]; rewrite app_nil_r.
      split; [exact Hsts|].
      constructor; [cbn [pass_raised]; discriminate | constructor].
    + specialize (Hfin eq_refl).
      destruct (J_next tests final HT Hfin) as [HT' HJ'].
      destruct (filter_retries final tests) as [|t ts] eqn:Hflt.
      * cbn [fst flat_map pass_states]; rewrite app_nil_r.
        split; [exact Hsts|].
        constructor; [intros _; exact Hfin | constructor].
      * destruct (IH (t :: ts) tick' final HT' HJ') as [IH1 IH2].
        destruct (while_pending fuel w (t :: ts) tick' final)
          as [ps out].
        cbn [fst flat_map pass_states] in *.
        split.
        -- apply Forall_app; split; assumption.
        -- constructor; [intros _; exact Hfin | exact IH2].
Qed.

End LoopInvariant.

Section LoopProperties.
Import TestPlanResults TestPlanRunner.

Variable w : World.

Lemma pass_fail_inv_step (tick : nat) (test : TestRunner.t)
    (rest : list TestRunner.t) (s : t) (ev : list Event) (s' : t) :
  pass_fail_inv (test :: rest) s ->
  iteration w tick test s = Continue ev s' ->
  pass_fail_inv rest s'.
Proof.
  intros [Hok [Hdis [Hnd Hrest]]] Hit.
  cbn [map] in Hnd; inversion Hnd as [|? ? Hhead Hnd']; subst.
  assert (Hn : ~ In (TestRunner.name test) (pass_test_name_list s)).
  { apply Hrest; left; reflexivity. }
  assert (Hrest' : forall t, In t rest ->
             ~ In (TestRunner.name t) (pass_test_name_list s)
             /\ TestRunner.name t <> TestRunner.name test).
  { intros t Ht; split; [apply Hrest; right; exact Ht|].
    intros Heq; apply Hhead; rewrite <- Heq; apply in_map; exact Ht. }
  pose proof (iteration_cases w tick test s) as Hcases; rewrite Hit in Hcases.
  destruct Hcases as [[_ [_ ->]] | [_ [-> | ->]]].
  - split; [exact Hok|]. split; [exact Hdis|]. split; [exact Hnd'|].
    intros t Ht; apply (Hrest' t Ht).
  - split; [apply ledger_ok_register_fail; exact Hok|].
    rewrite pass_list_register_fail.
    split; [|split; [exact Hnd'|intros t Ht; apply (Hrest' t Ht)]].
    intros x Hp Hf; apply fail_list_register_fail in Hf.
    destruct Hf as [Hf | ->]; [exact (Hdis x Hp Hf) | exact (Hn Hp)].
  - destruct (ledger_ok_register_pass s (TestRunner.name test) Hok)
      as [Hok' Hfail'].
    split; [exact Hok'|].
    split; [|split; [exact Hnd'|]].
    + intros x Hp Hf; apply pass_list_register_pass in Hp.
      destruct (Hfail' x Hf) as [Hf0 Hne].
      destruct Hp as [Hp | ->]; [exact (Hdis x Hp Hf0) | exact (Hne eq_refl)].
    + intros t Ht Hp; apply pass_list_register_pass in Hp.
      destruct (Hrest' t Ht) as [Hnp Hne].
      destruct Hp as [Hp | Heq]; [exact (Hnp Hp) | exact (Hne Heq)].
Qed.

Lemma pass_fail_inv_next (tests : list TestRunner.t) (s : t) :
  NoDup (map TestRunner.name tests) ->
  pass_fail_inv [] s ->
  NoDup (map TestRunner.name (filter_retries s tests))
  /\ pass_fail_inv (filter_retries s tests) s.
Proof.
  intros Hnd [Hok [Hdis _]].
  pose proof (filter_retries_NoDup s tests Hok Hnd) as Hnd'.
  split; [exact Hnd'|].
  split; [exact Hok|]. split; [exact Hdis|]. split; [exact Hnd'|].
  intros t Ht Hp.
  destruct (filter_retries_failed s tests t Hok Ht) as [_ Hf].
  exact (Hdis _ Hp Hf).
Qed.

(** In every state of a run over tests with distinct names, no name is
    both in the passed and in the failed list. *)
Lemma run_pass_fail_disjoint (fuel : nat) (tests : list TestRunner.t)
    (max : Z) (s : t) :
  NoDup (map TestRunner.name tests) ->
  In s (states_of max (fst (while_pending fuel w tests 0 (init max)))) ->
  disjoint (pass_test_name_list s) (fail_test_name_list s).
Proof.
  intros Hnd [<-|Hin]; [intros x []|].
  assert (H0 : pass_fail_inv tests (init max)).
  { split; [apply ledger_ok_init|].
    split; [intros x []|]. split; [exact Hnd|]. intros t _ []. }
  destruct (while_pending_invariant w pass_fail_inv
              (fun l => NoDup (map TestRunner.name l))
              pass_fail_inv_step pass_fail_inv_next
              fuel tests 0%nat (init max) Hnd H0) as [Hall _].
  rewrite Forall_forall in Hall.
  destruct (Hall s Hin) as [rest [_ [Hdis _]]]; exact Hdis.
Qed.

(** The ledger follows the failed list when a pass ends. *)
Lemma run_ledger_ok (fuel : nat) (tests : list TestRunner.t)
    (tick : nat) (s : t) :
  ledger_ok s ->
  Forall (fun p => pass_raised p = false -> ledger_ok (pass_results p))
         (fst (while_pending fuel w tests tick s)).
Proof.
  intros Hok.
  refine (proj2 (while_pending_invariant w (fun _ s' => ledger_ok s')
                   (fun _ => True) _ _ fuel tests tick s I Hok)).
  - intros tick0 test rest s0 ev s' Hs0 Hit.
    pose proof (iteration_cases w tick0 test s0) as Hcases.
    rewrite Hit in Hcases.
    destruct Hcases as [[_ [_ ->]] | [_ [-> | ->]]].
    + exact Hs0.
    + apply ledger_ok_register_fail; exact Hs0.
    + apply ledger_ok_register_pass; exact Hs0.
  - intros l s0 _ Hs0; split; [exact I | exact Hs0].
Qed.

Lemma NoDup_name_inj (l : list TestRunner.t) :
  NoDup (map TestRunner.name l) ->
  forall t1 t2, In t1 l -> In t2 l ->
                TestRunner.name t1 = TestRunner.name t2 -> t1 = t2.
Proof.
  induction l as [|t l IH]; intros Hnd t1 t2 Hin1 Hin2 Heq;
    [destruct Hin1|].
  cbn [map] in Hnd; inversion Hnd as [|? ? Hhead Hnd']; subst.
  destruct Hin1 as [<-|Hin1], Hin2 as [<-|Hin2].
  - reflexivity.
  - exfalso; apply Hhead; rewrite Heq; apply in_map; exact Hin2.
  - exfalso; apply Hhead; rewrite <- Heq; apply in_map; exact Hin1.
  - exact (IH Hnd' t1 t2 Hin1 Hin2 Heq).
Qed.

Section Gate.
Variable tests0 : list TestRunner.t.
Variable avail : TestRunner.t -> bool.
Hypothesis names_distinct : NoDup (map TestRunner.name tests0).
Hypothesis gate_stable :
  forall tick t, In t tests0 -> available_at w tick t = avail t.

Lemma gate_inv_step (tick : nat) (test : TestRunner.t)
    (rest : list TestRunner.t) (s : t) (ev : list Event) (s' : t) :
  gate_inv tests0 avail (test :: rest) s ->
  iteration w tick test s = Continue ev s' ->
  gate_inv tests0 avail rest s'.
Proof.
  intros [Hincl [Hskip Hrun]] Hit.
  assert (Hin : In test tests0) by (apply Hincl; left; reflexivity).
  assert (Hincl' : incl rest tests0).
  { intros t Ht; apply Hincl; right; exact Ht. }
  pose proof (iteration_cases w tick test s) as Hcases.
  rewrite Hit in Hcases.
  rewrite (gate_stable tick test Hin) in Hcases.
  destruct Hcases as [[Hav [_ ->]] | [Hav [-> | ->]]];
    (split; [exact Hincl'|]); split.
  - cbn [register_skip skip_test_name_list]; intros n Hn.
    apply in_app_or in Hn; destruct Hn as [Hn|[<-|[]]];
      [exact (Hskip n Hn)|].
    exists test; repeat split; assumption.
  - exact Hrun.
  - rewrite skip_list_register_fail; exact Hskip.
  - rewrite pass_list_register_fail; intros n [Hn|Hn];
      [apply Hrun; left; exact Hn|].
    apply fail_list_register_fail in Hn; destruct Hn as [Hn| ->];
      [apply Hrun; right; exact Hn|].
    exists test; repeat split; assumption.
  - rewrite skip_list_register_pass; exact Hskip.
  - intros n [Hn|Hn].
    + apply pass_list_register_pass in Hn; destruct Hn as [Hn| ->];
        [apply Hrun; left; exact Hn|].
      exists test; repeat split; assumption.
    + destruct (In_dec string_dec (TestRunner.name test)
                  (fail_test_name_list s)) as [Hf|Hf].
      * assert (Hn0 : In n (fail_test_name_list s)).
        { revert Hn; unfold register_pass; cbv zeta.
          apply mem_true_iff in Hf; rewrite Hf.
          destruct (negb _); cbn [fail_test_name_list];
            apply In_remove_name. }
        apply Hrun; right; exact Hn0.
      * assert (Hn0 : In n (fail_test_name_list s)).
        { revert Hn; unfold register_pass; cbv zeta.
          apply mem_false_iff in Hf; rewrite Hf.
          destruct (negb _); cbn [fail_test_name_list]; auto. }
        apply Hrun; right; exact Hn0.
Qed.

Lemma gate_inv_next (tests : list TestRunner.t) (s : t) :
  incl tests tests0 ->
  gate_inv tests0 avail [] s ->
  incl (filter_retries s tests) tests0
  /\ gate_inv tests0 avail (filter_retries s tests) s.
Proof.
  intros Hincl [_ [Hskip Hrun]].
  assert (Hincl' : incl (filter_retries s tests) tests0).
  { intros t Ht; apply Hincl.
    apply (proj1 (filter_retries_names s tests t Ht)). }
  split; [exact Hincl'|]. split; [exact Hincl'|]. split; assumption.
Qed.

(** With a stable gate, a skipped name is neither passed nor
    failed. *)
Lemma run_skip_disjoint (fuel : nat) (max : Z) (s : t) :
  In s (states_of max (fst (while_pending fuel w tests0 0 (init max)))) ->
  disjoint (skip_test_name_list s) (pass_test_name_list s)
  /\ disjoint (skip_test_name_list s) (fail_test_name_list s).
Proof.
  intros [<-|Hin]; [split; intros x []|].
  assert (H0 : gate_inv tests0 avail tests0 (init max)).
  { split; [apply incl_refl|]. split; [intros n []|intros n [[]|[]]]. }
  destruct (while_pending_invariant w (gate_inv tests0 avail)
              (fun l => incl l tests0) gate_inv_step gate_inv_next
              fuel tests0 0%nat (init max) (incl_refl _) H0) as [Hall _].
  rewrite Forall_forall in Hall.
  destruct (Hall s Hin) as [rest [_ [Hskip Hrun]]].
  assert (Hboth : forall x, In x (skip_test_name_list s) ->
             In x (pass_test_name_list s) \/ In x (fail_test_name_list s) ->
             False).
  { intros x Hs Hr.
    destruct (Hskip x Hs) as [t1 [Hin1 [Hn1 Ha1]]].
    destruct (Hrun x Hr) as [t2 [Hin2 [Hn2 Ha2]]].
    assert (Heq : t1 = t2).
    { apply (NoDup_name_inj tests0 names_distinct); try assumption.
      congruence. }
    subst t2; rewrite Ha1 in Ha2; discriminate. }
  split; intros x Hs Hr; apply (Hboth x Hs); [left|right]; exact Hr.
Qed.

End Gate.

End LoopProperties.

(** ** The claims on the execution loop *)

Section RunProperties.
Import Devs TestPlanResults TestPlanRunner Scenario.

Lemma while_pending_S (fuel : nat) (w : World) (test_list : list TestRunner.t)
    (tick : nat) (s : t) :
  while_pending (S fuel) w test_list tick s =
  let p := run_pass w test_list tick s in
  if pass_raised p then ([p], Raised (pass_results p))
  else
    match filter_retries (pass_results p) test_list with
    | [] => ([p], Exit (exit_status (pass_results p)) (pass_results p))
    | t :: ts =>
        let '(ps, out) :=
          while_pending fuel w (t :: ts) (pass_tick p) (pass_results p) in
        (p :: ps, out)
    end.
Proof.
  cbn [while_pending]; cbv zeta.
  destruct (pass_raised _); [reflexivity|].
  destruct (filter_retries _ _); reflexivity.
Qed.

Lemma pass_tests_run_pass (w : World) (tests : list TestRunner.t)
    (tick : nat) (s : t) :
  pass_tests (run_pass w tests tick s) = tests.
Proof.
  unfold run_pass.
  destruct (for_tests w tests tick s) as [[[[evs sts] final] tick'] raised].
  reflexivity.
Qed.

(** The list of every pass is drawn from the list the loop starts
    with. *)
Lemma while_pending_tests_incl (w : World) (fuel : nat) :
  forall tests tick s j pj t,
    nth_error (fst (while_pending fuel w tests tick s)) j = Some pj ->
    In t (pass_tests pj) -> In t tests.
Proof.
  induction fuel as [|fuel IH]; intros tests tick s j pj t.
  - destruct j; discriminate.
  - rewrite while_pending_S; cbv zeta.
    set (p := run_pass w tests tick s).
    assert (Hp : pass_tests p = tests) by apply pass_tests_run_pass.
    assert (Hhead : forall ps,
               nth_error (p :: ps) 0 = Some pj -> In t (pass_tests pj) ->
               In t tests).
    { intros ps H; injection H as <-; rewrite Hp; auto. }
    destruct (pass_raised p).
    { destruct j as [|[|j]]; [apply (Hhead []) | discriminate..]. }
    destruct (filter_retries (pass_results p) tests) as [|t0 ts] eqn:Hflt.
    { destruct j as [|[|j]]; [apply (Hhead []) | discriminate..]. }
    specialize (IH (t0 :: ts) (pass_tick p) (pass_results p)).
    destruct (while_pending fuel w (t0 :: ts) (pass_tick p) (pass_results p))
      as [ps out].
    cbn [fst] in *; destruct j as [|j]; [apply (Hhead ps)|].
    cbn [nth_error]; intros Hnth Hin.
    pose proof (IH j pj t Hnth Hin) as Hin'; rewrite <- Hflt in Hin'.
    apply (proj1 (filter_retries_names _ _ _ Hin')).
Qed.

Lemma run_pass_ledger_ok (w : World) (tests : list TestRunner.t)
    (tick : nat) (s : t) :
  ledger_ok s ->
  pass_raised (run_pass w tests tick s) = false ->
  ledger_ok (pass_results (run_pass w tests tick s)).
Proof.
  intros Hok Hraised.
  pose proof (run_ledger_ok w 1 tests tick s Hok) as Hall.
  rewrite while_pending_S in Hall; cbv zeta in Hall.
  rewrite Hraised in Hall.
  destruct (filter_retries _ tests).
  - cbn [fst] in Hall; inversion Hall as [|? ? Hhead _]; subst.
    exact (Hhead Hraised).
  - cbn [while_pending fst] in Hall; inversion Hall as [|? ? Hhead _]; subst.
    exact (Hhead Hraised).
Qed.

(** The tests of a pass bear names that were in the failed list when
    any earlier pass ended. *)
Lemma later_pass_names_failed (w : World) (fuel : nat) :
  forall tests tick s k j pk pj t,
    ledger_ok s ->
    nth_error (fst (while_pending fuel w tests tick s)) k = Some pk ->
    nth_error (fst (while_pending fuel w tests tick s)) j = Some pj ->
    (k < j)%nat ->
    In t (pass_tests pj) ->
    In (TestRunner.name t) (fail_test_name_list (pass_results pk)).
Proof.
  induction fuel as [|fuel IH]; intros tests tick s k j pk pj t Hok.
  - destruct k; discriminate.
  - rewrite while_pending_S; cbv zeta.
    pose proof (run_pass_ledger_ok w tests tick s Hok) as Hokp.
    set (p := run_pass w tests tick s) in *.
    destruct (pass_raised p).
    { intros _ Hj Hlt; destruct j as [|[|j]]; [lia | discriminate..]. }
    specialize (Hokp eq_refl).
    destruct (filter_retries (pass_results p) tests) as [|t0 ts] eqn:Hflt.
    { intros _ Hj Hlt; destruct j as [|[|j]]; [lia | discriminate..]. }
    pose proof (while_pending_tests_incl w fuel (t0 :: ts) (pass_tick p)
                  (pass_results p)) as Hincl.
    specialize (IH (t0 :: ts) (pass_tick p) (pass_results p)).
    destruct (while_pending fuel w (t0 :: ts) (pass_tick p) (pass_results p))
      as [ps out].
    cbn [fst] in *; intros Hk Hj Hlt Hin.
    destruct j as [|j]; [lia|]. cbn [nth_error] in Hj.
    destruct k as [|k].
    + injection Hk as <-.
      pose proof (Hincl j pj t Hj Hin) as Hin'; rewrite <- Hflt in Hin'.
      apply (proj2 (filter_retries_failed _ _ _ Hokp Hin')).
    + cbn [nth_error] in Hk.
      apply (IH k j pk pj t Hokp Hk Hj); [lia | exact Hin].
Qed.

(** *** The availability gate *)

(** C8, as stated, fails: with [max_retries = 2], [T3] fails in the
    first pass, is skipped in the second because its board is not
    there, and is in the list of the third pass, where it is run
    again. *)
Lemma skip_is_not_terminal : ~ skip_terminal world_board_blinks.
Proof.
  intros H.
  set (passes := fst (run 6 world_board_blinks [T3] [] 2)).
  apply (H 6%nat [T3] [] 2%Z 1%nat 2%nat
           (nth 1 passes no_pass) (nth 2 passes no_pass) T3) with (t := T3).
  - vm_compute; reflexivity.
  - vm_compute; reflexivity.
  - lia.
  - vm_compute; left; reflexivity.
  - vm_compute; left; reflexivity.
  - reflexivity.
Qed.

(** C8, amended. In every pass, a test whose DUT device has no bound
    access endpoint, or that requires two devices and whose stub device
    has none, is registered as skipped and not run: the iteration logs
    the skip alone and the tracker is the old one with the name added
    to the skipped list. A test that is skipped in a pass and whose
    name is not in the failed list when that pass ends is in the list
    of no later pass. *)
Theorem availability_gate (w : World) :
  (forall (tick : nat) (test : TestRunner.t) (s : t),
      access (fst (get_test_devs w tick test)) = None
      \/ (TestRunner.requires_multiple_devs test = true
          /\ access (snd (get_test_devs w tick test)) = None) ->
      iteration w tick test s
      = Continue [test_skip_info (TestRunner.name test)]
                 (register_skip s (TestRunner.name test)))
  /\ (forall (fuel : nat) (plan : list TestRunner.t) (names : list string)
             (max : Z) (k j : nat) (pk pj : Pass) (test : TestRunner.t),
        nth_error (fst (run fuel w plan names max)) k = Some pk ->
        nth_error (fst (run fuel w plan names max)) j = Some pj ->
        (k < j)%nat ->
        In (test_skip_info (TestRunner.name test)) (pass_events pk) ->
        ~ In (TestRunner.name test)
             (fail_test_name_list (pass_results pk)) ->
        forall t, In t (pass_tests pj) ->
                  TestRunner.name t <> TestRunner.name test).
Proof.
  split.
  - intros tick test s Hgate; unfold iteration.
    destruct (get_test_devs w tick test) as [dut_dev stub_dev].
    cbn [fst snd] in Hgate; unfold get_test_ports.
    unfold TestRunner.are_supported_devs_available.
    destruct Hgate as [Hdut | [Hmulti Hstub]].
    + rewrite Hdut; reflexivity.
    + rewrite Hstub, Hmulti; cbn [option_map].
      destruct (access dut_dev); reflexivity.
  - intros fuel plan names max k j pk pj test Hk Hj Hlt _ Hnf t Ht Heq.
    apply Hnf; rewrite <- Heq.
    exact (later_pass_names_failed w fuel _ _ _ k j pk pj t
             (ledger_ok_init max) Hk Hj Hlt Ht).
Qed.

Lemma availability_gate_witness :
  iteration world_no_board_for_T1 0 T1 (init 1)
  = Continue [test_skip_info "T1"] (register_skip (init 1) "T1")
  /\ forall t,
       In t (pass_tests
               (nth 1 (fst (run 4 world_no_board_for_T1 [T1; T3] [] 1))
                    no_pass)) ->
       TestRunner.name t <> "T1".
Proof.
  split.
  - apply (proj1 (availability_gate world_no_board_for_T1) 0%nat T1 (init 1)).
    left; reflexivity.
  - apply (proj2 (availability_gate world_no_board_for_T1)
             4%nat [T1; T3] [] 1%Z 0%nat 1%nat
             (nth 0 (fst (run 4 world_no_board_for_T1 [T1; T3] [] 1)) no_pass)
             (nth 1 (fst (run 4 world_no_board_for_T1 [T1; T3] [] 1)) no_pass)
             T1).
    + vm_compute; reflexivity.
    + vm_compute; reflexivity.
    + lia.
    + vm_compute; left; reflexivity.
    + vm_compute; intros [Hx|[]]; discriminate.
Defined.

(** *** The three result lists *)

(** C5, as stated, fails. With [max_retries = 2], [T3] fails in the
    first pass and is skipped in the second: it is in the failed and in
    the skipped list at once. And when the name [T3] is given twice on
    the command line, the test passes at its first run and fails at its
    second: it is in the passed and in the failed list at once. *)
Lemma result_lists_overlap :
  ~ (forall s,
       In s (states_of 2 (fst (run 6 world_board_blinks [T3] [] 2))) ->
       pairwise_disjoint s)
  /\ ~ (forall s,
          In s (states_of 0 (fst (run 6 world_flaky [T3] ["T3"; "T3"] 0))) ->
          pairwise_disjoint s).
Proof.
  split; intros H.
  - assert (Hin : In (mk [] ["T3"] ["T3"] 2 [mkRetry "T3" 2])
                     (states_of 2 (fst (run 6 world_board_blinks [T3] [] 2)))).
    { vm_compute; right; right; left; reflexivity. }
    destruct (H _ Hin) as [_ [_ Hsf]].
    apply (Hsf "T3"); left; reflexivity.
  - assert (Hin : In (mk ["T3"] [] ["T3"] 0 [mkRetry "T3" 0])
                     (states_of 0
                        (fst (run 6 world_flaky [T3] ["T3"; "T3"] 0)))).
    { vm_compute; right; right; left; reflexivity. }
    destruct (H _ Hin) as [Hpf _].
    apply (Hpf "T3"); left; reflexivity.
Qed.

(** C5, amended. In every state the loop reaches on a test list whose
    names are pairwise distinct, the passed and the failed list share
    no name; and when, in addition, the availability gate gives each
    test of the list the same answer at every iteration, the three
    lists are pairwise disjoint. *)
Theorem result_lists_disjoint (w : World) (fuel : nat)
    (plan : list TestRunner.t) (names : list string) (max : Z) (s : t) :
  NoDup (map TestRunner.name (get_test_list plan names)) ->
  In s (states_of max (fst (run fuel w plan names max))) ->
  disjoint (pass_test_name_list s) (fail_test_name_list s)
  /\ (forall avail : TestRunner.t -> bool,
        (forall tick t, In t (get_test_list plan names) ->
                        available_at w tick t = avail t) ->
        pairwise_disjoint s).
Proof.
  intros Hnd Hin; unfold run in Hin.
  pose proof (run_pass_fail_disjoint w fuel _ max s Hnd Hin) as Hpf.
  split; [exact Hpf|].
  intros avail Hstable; split; [exact Hpf|].
  exact (run_skip_disjoint w _ avail Hnd Hstable fuel max s Hin).
Qed.

Lemma world_mixed_states :
  In (mk ["T2"] ["T1"] ["T3"] 2 [mkRetry "T3" 2])
     (states_of 2 (fst (run 4 world_mixed [T1; T2; T3] [] 2)))
  /\ In (mk ["T2"; "T3"] ["T1"] [] 2 [])
        (states_of 2 (fst (run 4 world_mixed [T1; T2; T3] [] 2))).
Proof.
  vm_compute; split.
  - right; right; right; left; reflexivity.
  - right; right; right; right; left; reflexivity.
Qed.

Lemma world_mixed_gate (tick : nat) (t : TestRunner.t) :
  In t (get_test_list [T1; T2; T3] []) ->
  available_at world_mixed tick t
  = negb (String.eqb (TestRunner.name t) "T1").
Proof.
  intros [<-|[<-|[<-|[]]]]; vm_compute; reflexivity.
Qed.

Lemma result_lists_disjoint_witness :
  (disjoint ["T2"] ["T3"]
   /\ pairwise_disjoint (mk ["T2"] ["T1"] ["T3"] 2 [mkRetry "T3" 2]))
  /\ (disjoint ["T2"; "T3"] []
      /\ pairwise_disjoint (mk ["T2"; "T3"] ["T1"] [] 2 [])).
Proof.
  assert (Hnd : NoDup (map TestRunner.name (get_test_list [T1; T2; T3] []))).
  { cbn [get_test_list map]; repeat constructor; cbn [In]; intros H;
      repeat (destruct H as [H|H]; [discriminate H|]); exact H. }
  split.
  - destruct (result_lists_disjoint world_mixed 4 [T1; T2; T3] [] 2 _ Hnd
                (proj1 world_mixed_states)) as [Hpf Hall].
    split; [exact Hpf|].
    exact (Hall (fun t => negb (String.eqb (TestRunner.name t) "T1"))
             world_mixed_gate).
  - destruct (result_lists_disjoint world_mixed 4 [T1; T2; T3] [] 2 _ Hnd
                (proj2 world_mixed_states)) as [Hpf Hall].
    split; [exact Hpf|].
    exact (Hall (fun t => negb (String.eqb (TestRunner.name t) "T1"))
             world_mixed_gate).
Defined.

(** *** Termination *)

Lemma board_lost_first_pass :
  run_pass world_board_lost [T3] 0 (init 1)
  = mkPass [T3]
      [test_info "T3" (Some "/dev/ttyACM0") None; test_fail_info "T3"]
      [mk [] [] ["T3"] 1 [mkRetry "T3" 1]]
      (mk [] [] ["T3"] 1 [mkRetry "T3" 1]) 1 false.
Proof. vm_compute. reflexivity. Qed.

Lemma board_lost_later_pass (tick : nat) (s : t) :
  run_pass world_board_lost [T3] (S tick) s
  = mkPass [T3] [test_skip_info "T3"] [register_skip s "T3"]
      (register_skip s "T3") (S (S tick)) false.
Proof. reflexivity. Qed.

Lemma board_lost_filter (s : t) :
  retry_test_list s = [mkRetry "T3" 1] ->
  filter_retries s [T3] = [T3].
Proof.
  intros Hretry; unfold filter_retries; rewrite Hretry.
  vm_compute; reflexivity.
Qed.

Lemma board_lost_later (fuel : nat) :
  forall tick s,
    retry_test_list s = [mkRetry "T3" 1] ->
    exists passes res,
      while_pending fuel world_board_lost [T3] (S tick) s
      = (passes, Pending [T3] res)
      /\ List.length passes = fuel
      /\ Forall (fun p => pass_events p = [test_skip_info "T3"]) passes.
Proof.
  induction fuel as [|fuel IH]; intros tick s Hretry.
  - exists [], s; repeat split; constructor.
  - rewrite while_pending_S, board_lost_later_pass; cbv zeta.
    cbn [pass_raised pass_results pass_tick].
    rewrite (board_lost_filter (register_skip s "T3") Hretry).
    destruct (IH (S tick) (register_skip s "T3") Hretry)
      as [passes [res [Hrun [Hlen Hall]]]].
    change [T3] with (T3 :: []) in Hrun; rewrite Hrun.
    eexists; exists res; split; [reflexivity|].
    split; [cbn [List.length]; rewrite Hlen; reflexivity|].
    constructor; [reflexivity | exact Hall].
Qed.

(** C6, at the failing input: one test [T3], [max_retries = 1]; the
    board is there for the first pass, in which the test fails, and is
    gone afterwards. Every later pass skips the test and leaves its
    ledger entry at 1, so the filtered list is never empty: however
    many passes the loop is given, it uses them all and the list
    [[T3]] is still pending. *)
Theorem retry_loop_runs_forever_after_board_loss :
  forall fuel : nat,
    exists passes res,
      run fuel world_board_lost [T3] [] 1 = (passes, Pending [T3] res)
      /\ List.length passes = fuel
      /\ Forall (fun p => pass_events p = [test_skip_info "T3"])
                (tl passes).
Proof.
  intros [|fuel]; unfold run; cbn [get_test_list].
  - exists [], (init 1); repeat split; constructor.
  - rewrite while_pending_S, board_lost_first_pass; cbv zeta.
    cbn [pass_raised pass_results pass_tick].
    rewrite board_lost_filter by reflexivity.
    destruct (board_lost_later fuel 0 (mk [] [] ["T3"] 1 [mkRetry "T3" 1])
                eq_refl) as [passes [res [Hrun [Hlen Hall]]]].
    change [T3] with (T3 :: []) in Hrun; rewrite Hrun.
    eexists; exists res; split; [reflexivity|].
    split; [cbn [List.length]; rewrite Hlen; reflexivity | exact Hall].
Qed.

(** *** The end-to-end scenario *)

Lemma single_iteration_fails (w : World) (t3 : TestRunner.t) (tick : nat)
    (s : t) :
  TestRunner.type t3 = "single" ->
  access (fst (get_test_devs w tick t3)) <> None ->
  TestRunner.run_tests_rc (procs w tick) 0 = 1%Z ->
  exists ev,
    iteration w tick t3 s
    = Continue (ev ++ [test_fail_info (TestRunner.name t3)])
               (register_fail s (TestRunner.name t3))
    /\ ~ In (test_skip_info (TestRunner.name t3)) ev.
Proof.
  intros Htype Hdut Hrc; unfold iteration.
  destruct (get_test_devs w tick t3) as [dut_dev stub_dev].
  cbn [fst] in Hdut; unfold get_test_ports.
  destruct (access dut_dev) as [dut_access|]; [|contradiction].
  cbn [option_map].
  unfold TestRunner.are_supported_devs_available,
    TestRunner.requires_multiple_devs, TestRunner.run,
    TestRunner.run_single_test, TestRunner.run_single_test_cmd.
  rewrite Htype.
  change (PyStr.contains "multi" "single") with false.
  change (TestRunner.get_runner_func "single")
    with (Some TestRunner.run_single_test_f).
  cbn [andb negb]; rewrite Hrc; cbn [Z.eqb negb].
  eexists; split; [reflexivity|].
  unfold reset_switchable_devs; cbn [flat_map].
  destruct (switch dut_dev), (switch stub_dev); cbn [app In];
    intros H; repeat (destruct H as [H|H]; [discriminate|]); exact H.
Qed.

Lemma single_pass_fails (w : World) (t3 : TestRunner.t) (tick : nat)
    (s : t) :
  TestRunner.type t3 = "single" ->
  access (fst (get_test_devs w tick t3)) <> None ->
  TestRunner.run_tests_rc (procs w tick) 0 = 1%Z ->
  exists ev,
    run_pass w [t3] tick s
    = mkPass [t3] (ev ++ [test_fail_info (TestRunner.name t3)])
        [register_fail s (TestRunner.name t3)]
        (register_fail s (TestRunner.name t3)) (S tick) false
    /\ ~ In (test_skip_info (TestRunner.name t3)) ev.
Proof.
  intros Htype Hdut Hrc.
  destruct (single_iteration_fails w t3 tick s Htype Hdut Hrc)
    as [ev [Hit Hev]].
  exists ev; split; [|exact Hev].
  unfold run_pass; cbn [for_tests]; rewrite Hit.
  rewrite app_nil_r; reflexivity.
Qed.

Lemma register_fail_again (p sk : list string) (n : string) (m r : Z) :
  register_fail (mk p sk [n] m [mkRetry n r]) n
  = mk p sk [n] m [mkRetry n (r - 1)].
Proof.
  unfold register_fail, get_test_retry_index, mem.
  cbn [fail_test_name_list retry_test_list existsb retry_index_from
       test_name pass_test_name_list skip_test_name_list max_retries].
  rewrite String.eqb_refl; reflexivity.
Qed.

Lemma filter_retries_one (p sk f : list string) (m r : Z)
    (test : TestRunner.t) :
  filter_retries (mk p sk f m [mkRetry (TestRunner.name test) r]) [test]
  = if (r >? 0)%Z then [test] else [].
Proof.
  unfold filter_retries; cbn [flat_map retry_test_list test_name retries].
  rewrite String.eqb_refl; cbn [andb].
  destruct (r >? 0)%Z; reflexivity.
Qed.

(** C7. One test of type [single] whose devices are available at every
    pass and whose script always exits 1, run with [max_retries = 2]:
    the loop makes exactly three passes, each of which runs the test
    and registers its failure, and then stops; the failed list is the
    test alone and the run exits with status 1. *)
Theorem always_failing_single_test_three_passes (w : World)
    (t3 : TestRunner.t) (fuel : nat) :
  TestRunner.type t3 = "single" ->
  (forall tick, access (fst (get_test_devs w tick t3)) <> None) ->
  (forall tick k, TestRunner.run_tests_rc (procs w tick) k = 1%Z) ->
  (3 <= fuel)%nat ->
  exists p1 p2 p3 res,
    run fuel w [t3] [] 2 = ([p1; p2; p3], Exit 1 res)
    /\ Forall (fun p =>
                 pass_tests p = [t3]
                 /\ In (test_fail_info (TestRunner.name t3)) (pass_events p)
                 /\ ~ In (test_skip_info (TestRunner.name t3))
                         (pass_events p))
              [p1; p2; p3]
    /\ fail_test_name_list res = [TestRunner.name t3]
    /\ pass_test_name_list res = []
    /\ skip_test_name_list res = [].
Proof.
  intros Htype Hdut Hrc Hfuel.
  destruct fuel as [|[|[|fuel]]]; try lia.
  destruct (single_pass_fails w t3 0 (init 2) Htype (Hdut _) (Hrc _ _))
    as [ev1 [H1 Hev1]].
  change (register_fail (init 2) (TestRunner.name t3))
    with (mk [] [] [TestRunner.name t3] 2 [mkRetry (TestRunner.name t3) 2])
    in H1.
  destruct (single_pass_fails w t3 1
              (mk [] [] [TestRunner.name t3] 2
                  [mkRetry (TestRunner.name t3) 2])
              Htype (Hdut _) (Hrc _ _)) as [ev2 [H2 Hev2]].
  rewrite register_fail_again in H2.
  destruct (single_pass_fails w t3 2
              (mk [] [] [TestRunner.name t3] 2
                  [mkRetry (TestRunner.name t3) (2 - 1)])
              Htype (Hdut _) (Hrc _ _)) as [ev3 [H3 Hev3]].
  rewrite register_fail_again in H3.
  unfold run; cbn [get_test_list].
  rewrite while_pending_S, H1; cbv zeta.
  cbn [pass_raised pass_results pass_tick].
  rewrite filter_retries_one; change (2 >? 0)%Z with true; cbv iota.
  rewrite while_pending_S, H2; cbv zeta.
  cbn [pass_raised pass_results pass_tick].
  rewrite filter_retries_one; change (2 - 1 >? 0)%Z with true; cbv iota.
  rewrite while_pending_S, H3; cbv zeta.
  cbn [pass_raised pass_results pass_tick].
  rewrite filter_retries_one; change (2 - 1 - 1 >? 0)%Z with false;
    cbv iota.
  do 4 eexists; split; [reflexivity|].
  assert (Hev : forall ev,
             ~ In (test_skip_info (TestRunner.name t3)) ev ->
             In (test_fail_info (TestRunner.name t3))
                (ev ++ [test_fail_info (TestRunner.name t3)])
             /\ ~ In (test_skip_info (TestRunner.name t3))
                     (ev ++ [test_fail_info (TestRunner.name t3)])).
  { intros ev Hno; split.
    - apply in_or_app; right; left; reflexivity.
    - intros Hin; apply in_app_or in Hin.
      destruct Hin as [Hin|[Hin|[]]]; [exact (Hno Hin) | discriminate]. }
  split.
  - repeat constructor; cbn [pass_events]; apply Hev; assumption.
  - repeat split.
Qed.

Lemma always_failing_single_test_three_passes_witness :
  exists p1 p2 p3 res,
    run 3 world_always_failing [T3] [] 2 = ([p1; p2; p3], Exit 1 res)
    /\ Forall (fun p =>
                 pass_tests p = [T3]
                 /\ In (test_fail_info (TestRunner.name T3)) (pass_events p)
                 /\ ~ In (test_skip_info (TestRunner.name T3))
                         (pass_events p))
              [p1; p2; p3]
    /\ fail_test_name_list res = [TestRunner.name T3]
    /\ pass_test_name_list res = []
    /\ skip_test_name_list res = [].
Proof.
  apply (always_failing_single_test_three_passes world_always_failing T3 3).
  - reflexivity.
  - intros tick; discriminate.
  - intros tick k; reflexivity.
  - lia.
Defined.

(** *** Termination when the gate is stable *)

Lemma run_pass_invariant (w : World)
    (J : list TestRunner.t -> t -> Prop)
    (J_step : forall tick test rest s ev s',
        J (test :: rest) s ->
        iteration w tick test s = Continue ev s' -> J rest s')
    (tests : list TestRunner.t) (tick : nat) (s : t) :
  J tests s ->
  pass_raised (run_pass w tests tick s) = false ->
  J [] (pass_results (run_pass w tests tick s)).
Proof.
  unfold run_pass; intros HJ.
  destruct (for_tests w tests tick s)
    as [[[[evs sts] final] tick'] raised] eqn:Hfor.
  cbn [pass_raised pass_results].
  exact (proj2 (for_tests_invariant w J J_step _ _ _ _ _ _ _ _ Hfor HJ)).
Qed.

Lemma retry_inv_step (w : World) (l c : nat) (tick : nat)
    (test : TestRunner.t) (rest : list TestRunner.t) (s : t)
    (ev : list Event) (s' : t) :
  retry_inv w l c (test :: rest) s ->
  iteration w tick test s = Continue ev s' ->
  retry_inv w l c rest s'.
Proof.
  intros [Hok [Hnd [Hrest Hbud]]] Hit.
  cbn [map] in Hnd; inversion Hnd as [|? ? Hhead Hnd']; subst.
  destruct (Hrest test (or_introl eq_refl)) as [Havail [r [Hentry Hpos]]].
  assert (Hother : forall t, In t rest ->
             TestRunner.name t <> TestRunner.name test).
  { intros t Ht Heq; apply Hhead; rewrite <- Heq; apply in_map; exact Ht. }
  cbn [List.length] in Hbud.
  pose proof (iteration_cases w tick test s) as Hcases; rewrite Hit in Hcases.
  rewrite (Havail tick) in Hcases.
  destruct Hcases as [[Hfalse _] | [_ [-> | ->]]]; [discriminate| |].
  - destruct (register_fail_existing s _ r Hok Hentry Hpos) as [Hb Hkeep].
    split; [apply ledger_ok_register_fail; exact Hok|].
    split; [exact Hnd'|]. split; [|lia].
    intros t Ht; destruct (Hrest t (or_intror Ht)) as [Ha [r' [He Hp]]].
    split; [exact Ha|]. exists r'; split; [|exact Hp].
    apply Hkeep; [apply Hother; exact Ht | exact He].
  - destruct (register_pass_existing s _ r Hok Hentry) as [Hb Hkeep].
    split; [apply ledger_ok_register_pass; exact Hok|].
    split; [exact Hnd'|]. split; [|lia].
    intros t Ht; destruct (Hrest t (or_intror Ht)) as [Ha [r' [He Hp]]].
    split; [exact Ha|]. exists r'; split; [|exact Hp].
    apply Hkeep; [apply Hother; exact Ht | exact He].
Qed.

(** The retry list of the next pass starts the next pass well. *)
Lemma retry_inv_next (w : World) (tests : list TestRunner.t) (s : t) :
  ledger_ok s ->
  NoDup (map TestRunner.name tests) ->
  (forall t, In t (filter_retries s tests) ->
             forall tick, available_at w tick t = true) ->
  retry_inv w (List.length (filter_retries s tests)) (budget s)
            (filter_retries s tests) s.
Proof.
  intros Hok Hnd Havail.
  split; [exact Hok|].
  split; [apply filter_retries_NoDup; assumption|].
  split; [|lia].
  intros t Ht; split; [exact (Havail t Ht)|].
  destruct (filter_retries_names s tests t Ht) as [_ [[n r] [Hin [Hn Hr]]]].
  cbn [test_name retries] in Hn, Hr; subst n.
  exists r; split; [exact Hin | lia].
Qed.

(** Once every test of the list holds a ledger entry and passes the
    gate, each pass takes at least one retry off the budget, and the
    loop ends within as many passes as the budget. *)
Lemma while_pending_ends (w : World) (fuel : nat) :
  forall tests tick s,
    retry_inv w (List.length tests) (budget s) tests s ->
    (budget s < fuel)%nat ->
    ended (snd (while_pending fuel w tests tick s)).
Proof.
  induction fuel as [|fuel IH]; intros tests tick s Hinv Hfuel; [lia|].
  rewrite while_pending_S; cbv zeta.
  pose proof (run_pass_invariant w _ (retry_inv_step w _ _) tests tick s Hinv)
    as Hpass.
  destruct (pass_raised (run_pass w tests tick s)); [exact I|].
  destruct (Hpass eq_refl) as [Hok [_ [_ Hbud]]].
  cbn [List.length] in Hbud; rewrite Nat.add_0_r in Hbud.
  set (final := pass_results (run_pass w tests tick s)) in *.
  destruct (filter_retries final tests) as [|t0 ts] eqn:Hflt; [exact I|].
  assert (Hnext : retry_inv w (List.length (t0 :: ts)) (budget final)
                    (t0 :: ts) final).
  { rewrite <- Hflt; apply retry_inv_next; [exact Hok | |].
    - destruct Hinv as [_ [Hnd _]]; exact Hnd.
    - intros t Ht; destruct Hinv as [_ [_ [Hrest _]]].
      apply (Hrest t), (proj1 (filter_retries_names _ _ _ Ht)). }
  assert (Hlen : (1 <= List.length tests)%nat).
  { assert (Hin : In t0 (filter_retries final tests))
      by (rewrite Hflt; left; reflexivity).
    apply filter_retries_names in Hin; destruct Hin as [Hin _].
    destruct tests; [destruct Hin | cbn [List.length]; lia]. }
  specialize (IH (t0 :: ts) (pass_tick (run_pass w tests tick s)) final Hnext).
  destruct (while_pending fuel w (t0 :: ts) _ final) as [ps out].
  cbn [snd] in *; apply IH; lia.
Qed.

(** On a test list with pairwise distinct names, and with a gate that
    gives each test the same answer at every iteration, the loop ends:
    some number of passes is enough for the run to exit or raise. *)
Lemma run_ends_with_stable_gate (w : World) (plan : list TestRunner.t)
    (names : list string) (max : Z) (avail : TestRunner.t -> bool) :
  NoDup (map TestRunner.name (get_test_list plan names)) ->
  (forall tick t, In t (get_test_list plan names) ->
                  available_at w tick t = avail t) ->
  exists fuel, ended (snd (run fuel w plan names max)).
Proof.
  intros Hnd Hstable; unfold run.
  set (tests0 := get_test_list plan names) in *.
  set (p := run_pass w tests0 0 (init max)).
  exists (S (S (budget (pass_results p)))).
  rewrite while_pending_S; cbv zeta; fold p.
  assert (Hgate : pass_raised p = false ->
                  gate_inv tests0 avail [] (pass_results p)).
  { apply (run_pass_invariant w _ (gate_inv_step w tests0 avail Hstable)).
    split; [apply incl_refl|]. split; [intros n []|intros n [[]|[]]]. }
  pose proof (run_pass_ledger_ok w tests0 0 (init max) (ledger_ok_init max))
    as Hok; fold p in Hok.
  destruct (pass_raised p); [exact I|].
  specialize (Hgate eq_refl); specialize (Hok eq_refl).
  destruct (filter_retries (pass_results p) tests0) as [|t0 ts] eqn:Hflt;
    [exact I|].
  assert (Hnext : retry_inv w (List.length (t0 :: ts))
                    (budget (pass_results p)) (t0 :: ts) (pass_results p)).
  { rewrite <- Hflt; apply retry_inv_next; [exact Hok | exact Hnd |].
    intros t Ht tick.
    destruct (filter_retries_failed _ _ _ Hok Ht) as [Hin Hfailed].
    destruct Hgate as [_ [_ Hrun]].
    destruct (Hrun _ (or_intror Hfailed)) as [t' [Hin' [Hname Havail]]].
    rewrite (NoDup_name_inj tests0 Hnd t' t Hin' Hin Hname) in Havail.
    rewrite (Hstable tick t Hin); exact Havail. }
  pose proof (while_pending_ends w (S (budget (pass_results p))) (t0 :: ts)
                (pass_tick p) (pass_results p) Hnext (Nat.lt_succ_diag_r _))
    as Hend.
  destruct (while_pending (S (budget (pass_results p))) w (t0 :: ts)
              (pass_tick p) (pass_results p)) as [ps out].
  exact Hend.
Qed.

End RunProperties.

(** * Further properties of the code *)

(** ** Strings *)

Section PyStrProperties.
Import PyStr.

Lemma prefix_app (p s : string) :
  String.prefix p s = true -> exists t, s = (p ++ t)%string.
Proof.
  revert s; induction p as [|a p IH]; intros s.
  - intros _; exists s; reflexivity.
  - destruct s as [|b s]; cbn [String.prefix]; [discriminate|].
    destruct (ascii_dec a b) as [<-|]; [|discriminate].
    intros H; destruct (IH s H) as [t ->]; exists t; reflexivity.
Qed.

Lemma prefix_app_intro (p t : string) : String.prefix p (p ++ t) = true.
Proof.
  induction p as [|a p IH]; cbn [String.prefix String.append];
    [destruct t; reflexivity|].
  destruct (ascii_dec a a) as [_|Hne]; [exact IH | contradiction].
Qed.

Lemma append_assoc (a b c : string) :
  ((a ++ b) ++ c = a ++ (b ++ c))%string.
Proof.
  induction a as [|x a IH]; cbn [String.append]; [reflexivity|].
  rewrite IH; reflexivity.
Qed.

Lemma drop_app (p t : string) : drop (String.length p) (p ++ t) = t.
Proof. induction p as [|a p IH]; [destruct t; reflexivity | exact IH]. Qed.

Lemma contains_app (pre sub post : string) :
  contains sub (pre ++ (sub ++ post)) = true.
Proof.
  induction pre as [|a pre IH].
  - cbn [String.append].
    destruct (sub ++ post)%string eqn:E; cbn [contains];
      rewrite <- E, prefix_app_intro; reflexivity.
  - cbn [String.append contains]; rewrite IH; apply orb_true_r.
Qed.

Lemma span_spec (p : ascii -> bool) (s : string) :
  (s = fst (span p s) ++ snd (span p s))%string
  /\ forallb p (list_ascii_of_string (fst (span p s))) = true.
Proof.
  induction s as [|c s [IH1 IH2]]; cbn [span]; [split; reflexivity|].
  destruct (p c) eqn:Hc; [|split; reflexivity].
  destruct (span p s) as [a b]; cbn [fst snd] in *.
  cbn [String.append list_ascii_of_string forallb]; rewrite Hc, IH2.
  split; [f_equal; exact IH1 | reflexivity].
Qed.

Lemma int_digits_nonneg (ds : string) :
  forall acc, (0 <= acc)%Z -> (0 <= int_digits acc ds)%Z.
Proof.
  induction ds as [|c ds IH]; intros acc Hacc; cbn [int_digits]; [exact Hacc|].
  apply IH; lia.
Qed.

End PyStrProperties.

(** ** The parser, line by line *)

Section UhubctlLineProperties.
Import PyStr Uhubctl.

Lemma re_search_hub_sound (line tok : string) :
  re_search_hub line = Some tok ->
  truthy_str tok = true
  /\ forallb (fun c => negb (isspace c)) (list_ascii_of_string tok) = true
  /\ exists pre rest, line = (pre ++ (("hub " ++ tok) ++ rest))%string.
Proof.
  induction line as [|c line IH]; [discriminate|].
  cbn [re_search_hub].
  assert (Hrest : re_search_hub line = Some tok ->
            truthy_str tok = true
            /\ forallb (fun c => negb (isspace c)) (list_ascii_of_string tok)
               = true
            /\ exists pre rest,
                 String c line = (pre ++ (("hub " ++ tok) ++ rest))%string).
  { intros H; destruct (IH H) as [H1 [H2 [pre [rest ->]]]].
    split; [exact H1|]. split; [exact H2|].
    exists (String c pre), rest; reflexivity. }
  destruct (String.prefix "hub " (String c line)) eqn:Hpre; [|exact Hrest].
  destruct (prefix_app _ _ Hpre) as [t Ht].
  assert (Hdrop : drop 4 (String c line) = t).
  { rewrite Ht; exact (drop_app "hub " t). }
  rewrite Hdrop.
  destruct (span_spec (fun c0 => negb (isspace c0)) t) as [Hsplit Hall].
  destruct (fst (span (fun c0 => negb (isspace c0)) t)) as [|d tok'] eqn:Etok;
    [exact Hrest|].
  intros H; injection H as <-.
  split; [reflexivity|]. split; [exact Hall|].
  exists EmptyString, (snd (span (fun c0 => negb (isspace c0)) t)).
  rewrite Ht, Hsplit at 1; cbn [String.append]; reflexivity.
Qed.

Lemma re_search_port_sound (line : string) (p : Z) :
  re_search_port line = Some p ->
  exists ds pre rest,
    ds <> EmptyString
    /\ forallb isdigit (list_ascii_of_string ds) = true
    /\ p = int ds
    /\ line = (pre ++ (("Port " ++ ds ++ ":") ++ rest))%string.
Proof.
  induction line as [|c line IH]; [discriminate|].
  cbn [re_search_port].
  assert (Hrest : re_search_port line = Some p ->
            exists ds pre rest,
              ds <> EmptyString
              /\ forallb isdigit (list_ascii_of_string ds) = true
              /\ p = int ds
              /\ String c line
                 = (pre ++ (("Port " ++ ds ++ ":") ++ rest))%string).
  { intros H; destruct (IH H) as [ds [pre [rest [H1 [H2 [H3 ->]]]]]].
    exists ds, (String c pre), rest; repeat split; assumption. }
  destruct (String.prefix "Port " (String c line)) eqn:Hpre; [|exact Hrest].
  destruct (prefix_app _ _ Hpre) as [t Ht].
  assert (Hdrop : drop 5 (String c line) = t).
  { rewrite Ht; exact (drop_app "Port " t). }
  rewrite Hdrop.
  destruct (span_spec isdigit t) as [Hsplit Hall].
  destruct (span isdigit t) as [ds after]; cbn [fst snd] in *.
  destruct ds as [|d ds]; [exact Hrest|].
  destruct after as [|colon after]; [exact Hrest|].
  destruct (Ascii.eqb_spec colon ":"%char) as [->|Hne].
  - intros H; injection H as <-.
    exists (String d ds), EmptyString, after.
    split; [discriminate|]. split; [exact Hall|]. split; [reflexivity|].
    rewrite Ht, Hsplit; cbn [String.append].
    rewrite ?append_assoc; reflexivity.
  - destruct colon as [[] [] [] [] [] [] [] []]; try exact Hrest.
    exfalso; apply Hne; reflexivity.
Qed.

End UhubctlLineProperties.

(** ** The parser: lines, scan and search *)

Section UhubctlScanProperties.
Import PyStr Uhubctl.

Lemma contains_hub_token (line pre rest tok : string) :
  line = (pre ++ (("hub " ++ tok) ++ rest))%string ->
  contains ("hub " ++ tok) line = true.
Proof. intros ->; apply contains_app. Qed.

Lemma sample_header_hub :
  line_search_update_hub "Current status for hub 2-1 [...]" None
  = Some "2-1".
Proof. vm_compute. reflexivity. Qed.

Lemma sample_port_line : line_search_port "Port 3: 0263 power" = Some 3%Z.
Proof. vm_compute. reflexivity. Qed.

(** X1. What the two line parsers return is in the line. A hub that
    [__line_search_update_hub] newly sets comes from a line that begins
    with the header text; it is a non-empty token without white space
    that follows ["hub "] in the line. A port that
    [__line_search_port] returns comes from a line that begins with
    ["Port"]; it is the value, never negative, of a non-empty run of
    digits that stands between ["Port "] and [":"] in the line. *)
Theorem line_parsers_sound :
  (forall (line : string) (cur : option string) (h : string),
      line_search_update_hub line cur = Some h ->
      cur = Some h
      \/ (startswith line "Current status for hub" = true
          /\ h <> EmptyString
          /\ forallb (fun c => negb (isspace c)) (list_ascii_of_string h)
             = true
          /\ contains ("hub " ++ h) line = true))
  /\ (forall (line : string) (p : Z),
        line_search_port line = Some p ->
        startswith line "Port" = true
        /\ (0 <= p)%Z
        /\ exists ds,
             ds <> EmptyString
             /\ forallb isdigit (list_ascii_of_string ds) = true
             /\ p = int ds
             /\ contains ("Port " ++ ds ++ ":") line = true).
Proof.
  split.
  - intros line cur h; unfold line_search_update_hub.
    destruct (startswith line "Current status for hub") eqn:Hstart;
      [|intros H; left; exact H].
    destruct (re_search_hub line) as [tok|] eqn:Htok;
      [|intros H; left; exact H].
    intros H; injection H as <-; right.
    destruct (re_search_hub_sound line tok Htok) as [H1 [H2 [pre [rest Hl]]]].
    split; [reflexivity|]. split; [intros ->; discriminate|].
    split; [exact H2|]. exact (contains_hub_token line pre rest tok Hl).
  - intros line p; unfold line_search_port.
    destruct (startswith line "Port") eqn:Hstart; [|discriminate].
    intros H; destruct (re_search_port_sound line p H)
      as [ds [pre [rest [H1 [H2 [H3 Hl]]]]]].
    split; [reflexivity|]. split.
    + rewrite H3; apply int_digits_nonneg; lia.
    + exists ds; repeat split; try assumption.
      rewrite Hl; apply contains_app.
Qed.

Lemma line_parsers_sound_witness :
  (Some "2-1" <> None
   /\ startswith "Current status for hub 2-1 [...]" "Current status for hub"
      = true)
  /\ startswith "Port 3: 0263 power" "Port" = true /\ (0 <= 3)%Z.
Proof.
  split.
  - split; [discriminate|].
    destruct (proj1 line_parsers_sound _ None "2-1" sample_header_hub)
      as [H|[H _]]; [discriminate H | exact H].
  - destruct (proj2 line_parsers_sound _ 3%Z sample_port_line) as [H1 [H2 _]].
    exact (conj H1 H2).
Defined.

Lemma scan_loop_observe (lines : list string) :
  forall cur,
    scan_hub_ports_loop lines cur =
    flat_map
      (fun o => match obs_hub o, obs_port o with
                | Some h, Some p =>
                    if truthy_str h && truthy_int p then [(h, p)] else []
                | _, _ => []
                end)
      (observe lines cur).
Proof.
  induction lines as [|raw rest IH]; intros cur; [reflexivity|].
  cbn [scan_hub_ports_loop observe flat_map obs_hub obs_port].
  rewrite <- IH.
  destruct (line_search_update_hub (strip raw) cur) as [h|];
    [|reflexivity].
  destruct (line_search_port (strip raw)) as [p|]; [|reflexivity].
  destruct (truthy_str h && truthy_int p); reflexivity.
Qed.

Lemma observe_hub_ok (lines : list string) :
  forall cur,
    hub_ok cur -> Forall (fun o => hub_ok (obs_hub o)) (observe lines cur).
Proof.
  induction lines as [|raw rest IH]; intros cur Hcur; cbn [observe];
    constructor.
  - cbn [obs_hub]; apply line_search_update_hub_ok; exact Hcur.
  - apply IH, line_search_update_hub_ok; exact Hcur.
Qed.

Lemma scan_iff_observed (self : t) (h : string) (p : Z) :
  In (h, p) (output_scan_hub_ports self) <->
  p <> 0%Z
  /\ exists o, In o (observations self)
               /\ obs_hub o = Some h /\ obs_port o = Some p.
Proof.
  unfold output_scan_hub_ports, observations; rewrite scan_loop_observe.
  pose proof (observe_hub_ok (output_lines self) None I) as Hok.
  rewrite Forall_forall in Hok.
  rewrite in_flat_map; split.
  - intros [o [Hin Hpair]].
    destruct (obs_hub o) as [h'|] eqn:Hh; [|destruct Hpair].
    destruct (obs_port o) as [p'|] eqn:Hp; [|destruct Hpair].
    destruct (truthy_str h' && truthy_int p') eqn:Ht; [|destruct Hpair].
    destruct Hpair as [Heq|[]]; injection Heq as <- <-.
    apply andb_true_iff in Ht; destruct Ht as [_ Ht].
    unfold truthy_int in Ht; apply negb_true_iff, Z.eqb_neq in Ht.
    split; [exact Ht|]. exists o; repeat split; assumption.
  - intros [Hp [o [Hin [Hh Ho]]]]; exists o; split; [exact Hin|].
    rewrite Hh, Ho.
    pose proof (Hok o Hin) as Hhub; rewrite Hh in Hhub; cbn [hub_ok] in Hhub.
    unfold truthy_int; apply Z.eqb_neq in Hp; rewrite Hhub, Hp.
    left; reflexivity.
Qed.

(** X2. [scan_hubs_ports] lists exactly the hub/port pairs of the port
    lines that lie in a hub section and carry a port number other than
    0: a pair is in the list if and only if some line of the output is
    observed with that hub and that port, and the port is not 0. *)
Theorem scan_lists_observed_pairs :
  forall (uhub_proc : CompletedProcess) (self : t) (h : string) (p : Z),
    In (h, p) (snd (scan_hubs_ports uhub_proc self)) <->
    p <> 0%Z
    /\ exists o,
         In o (observations (fst (scan_hubs_ports uhub_proc self)))
         /\ obs_hub o = Some h /\ obs_port o = Some p.
Proof.
  intros uhub_proc self h p; unfold scan_hubs_ports; cbn [fst snd].
  apply scan_iff_observed.
Qed.

Lemma find_exists {A : Type} (f : A -> bool) (l : list A) (x : A) :
  In x l -> f x = true -> exists y, find f l = Some y.
Proof.
  intros Hin Hf; destruct (find f l) as [y|] eqn:E; [exists y; reflexivity|].
  rewrite (find_none f l E x Hin) in Hf; discriminate.
Qed.

Lemma sample_scan_member :
  In ("1-1.3", 1%Z) (output_scan_hub_ports (mk sample_status_output)).
Proof. vm_compute. right; left; reflexivity. Qed.

(** X3. A pair that [scan_hubs_ports] lists has a line in the same
    output: the status search for that pair finds a line of that hub
    and port and answers with the classification of that line; the
    answer is not the one given for want of a line. *)
Theorem scanned_pair_has_status_line (self : t) (h : string) (p : Z) :
  In (h, p) (output_scan_hub_ports self) ->
  exists o,
    find (matches_hub_port h p) (observations self) = Some o
    /\ obs_hub o = Some h
    /\ obs_port o = Some p
    /\ output_search_port_status self h p = classify (obs_line o).
Proof.
  intros Hin; apply scan_iff_observed in Hin.
  destruct Hin as [_ [o [Hin [Hh Hp]]]].
  assert (Hm : matches_hub_port h p o = true).
  { apply matches_hub_port_iff; split; assumption. }
  destruct (find_exists _ _ o Hin Hm) as [o' Hfind].
  exists o'; split; [exact Hfind|].
  destruct (find_some _ _ Hfind) as [_ Hm'].
  apply matches_hub_port_iff in Hm'; destruct Hm' as [Hh' Hp'].
  split; [exact Hh'|]. split; [exact Hp'|].
  unfold output_search_port_status, observations in *.
  rewrite search_port_status_loop_find, Hfind; reflexivity.
Qed.

Lemma scanned_pair_has_status_line_witness :
  exists o,
    find (matches_hub_port "1-1.3" 1) (observations (mk sample_status_output))
    = Some o
    /\ obs_hub o = Some "1-1.3"
    /\ obs_port o = Some 1%Z
    /\ output_search_port_status (mk sample_status_output) "1-1.3" 1
       = classify (obs_line o).
Proof.
  exact (scanned_pair_has_status_line (mk sample_status_output) "1-1.3" 1
           sample_scan_member).
Defined.

(** X4. The description search answers with nothing or with a full
    pair, never with a hub alone or a port alone; and a pair it answers
    with has a hub that is not the empty string and a port other than
    0, and is one of the pairs that the scan of the same output
    lists. *)
Theorem desc_result_is_scanned_pair :
  forall (self : t) (desc_match : string),
    output_search_hub_port_by_desc self desc_match = (None, None)
    \/ exists h p,
         output_search_hub_port_by_desc self desc_match = (Some h, Some p)
         /\ h <> EmptyString
         /\ p <> 0%Z
         /\ In (h, p) (output_scan_hub_ports self).
Proof.
  intros self desc_match.
  unfold output_search_hub_port_by_desc.
  rewrite (search_hub_port_by_desc_loop_find desc_match _ None I).
  fold (observations self).
  destruct (find (is_desc_line_nonzero desc_match) (observations self))
    as [o|] eqn:Hfind; [|left; reflexivity].
  right; destruct (find_some _ _ Hfind) as [Hin Hline].
  unfold is_desc_line_nonzero in Hline.
  destruct (obs_hub o) as [h|] eqn:Hh; [|discriminate].
  destruct (obs_port o) as [p|] eqn:Hp; [|discriminate].
  apply andb_true_iff in Hline; destruct Hline as [Hnz _].
  apply negb_true_iff, Z.eqb_neq in Hnz.
  pose proof (observe_hub_ok (output_lines self) None I) as Hok.
  rewrite Forall_forall in Hok; specialize (Hok o Hin).
  rewrite Hh in Hok; cbn [hub_ok] in Hok.
  exists h, p; split; [reflexivity|].
  split; [intros ->; discriminate Hok|]. split; [exact Hnz|].
  apply scan_iff_observed; split; [exact Hnz|].
  exists o; repeat split; assumption.
Qed.

Lemma empty_output_lines : output_lines (mk "") = [EmptyString].
Proof. reflexivity. Qed.

(** X5. When the tool exits non-zero and says on stderr that no
    compatible devices were detected, every query of that call answers
    as for an empty topology, whatever the tool wrote to stdout and
    whatever the slot held before: the status is [unknown], the scan is
    empty and the description search finds nothing. *)
Theorem no_devices_answers (uhub_proc : CompletedProcess) (self : t)
    (hub desc_match : string) (port : Z) :
  returncode uhub_proc <> 0%Z ->
  contains "No compatible devices detected!" (stderr uhub_proc) = true ->
  snd (get_status uhub_proc self hub port) = unknown
  /\ snd (scan_hubs_ports uhub_proc self) = []
  /\ snd (get_hub_port_by_desc uhub_proc self desc_match) = (None, None).
Proof.
  intros Hrc Herr.
  unfold get_status, scan_hubs_ports, get_hub_port_by_desc.
  rewrite !(run_cmd_no_devices _ uhub_proc self Hrc Herr); cbn [fst snd].
  unfold output_search_port_status, output_scan_hub_ports,
    output_search_hub_port_by_desc.
  rewrite empty_output_lines.
  repeat split; reflexivity.
Qed.

Lemma no_devices_answers_witness :
  snd (get_status (mkProc 1 "" "No compatible devices detected!") init
         "2-1" 3) = unknown
  /\ snd (scan_hubs_ports (mkProc 1 "" "No compatible devices detected!")
            init) = []
  /\ snd (get_hub_port_by_desc
            (mkProc 1 "" "No compatible devices detected!") init "KitProg3")
     = (None, None).
Proof.
  apply (no_devices_answers (mkProc 1 "" "No compatible devices detected!")
           init "2-1" "KitProg3" 3).
  - discriminate.
  - vm_compute; reflexivity.
Defined.

(** X6. The three scanning loops read a line only after trimming it:
    two outputs whose lines agree once trimmed, whatever their
    indentation and trailing white space, give the same status, the
    same scan and the same description search. *)
Theorem searches_ignore_indentation (lines1 lines2 : list string)
    (hub desc_match : string) (port : Z) (cur : option string) :
  map strip lines1 = map strip lines2 ->
  search_port_status_loop hub port lines1 cur
  = search_port_status_loop hub port lines2 cur
  /\ scan_hub_ports_loop lines1 cur = scan_hub_ports_loop lines2 cur
  /\ search_hub_port_by_desc_loop desc_match lines1 cur
     = search_hub_port_by_desc_loop desc_match lines2 cur.
Proof.
  revert lines2 cur; induction lines1 as [|a l1 IH]; intros [|b l2] cur Hmap;
    try discriminate; [repeat split|].
  cbn [map] in Hmap; injection Hmap as Hab Hrest.
  cbn [search_port_status_loop scan_hub_ports_loop
       search_hub_port_by_desc_loop].
  rewrite Hab.
  destruct (IH l2 (line_search_update_hub (strip b) cur) Hrest)
    as [H1 [H2 H3]].
  rewrite H1, H2, H3; repeat split.
Qed.

Lemma indentation_sample :
  map strip ["Current status for hub 2-1 [x]"; "  Port 3: 0100 off  "]
  = map strip ["  Current status for hub 2-1 [x]"; "Port 3: 0100 off"].
Proof. vm_compute. reflexivity. Qed.

Lemma searches_ignore_indentation_witness :
  search_port_status_loop "2-1" 3
    ["Current status for hub 2-1 [x]"; "  Port 3: 0100 off  "] None
  = search_port_status_loop "2-1" 3
      ["  Current status for hub 2-1 [x]"; "Port 3: 0100 off"] None.
Proof.
  exact (proj1 (searches_ignore_indentation _ _ "2-1" "x" 3 None
                  indentation_sample)).
Defined.

End UhubctlScanProperties.

(** ** Binding devices: devs.py *)

Section DevsBindingProperties.
Import PyStr Uhubctl UhubctlActions Devs DevsBinding.

Lemma access_create_sound (comports : list ListPortInfo) (uid : string)
    (a : DevAccessSerial) :
  access_create_from_uid comports uid = Some a ->
  exists port, In port comports
               /\ serial_number port = Some uid
               /\ device port = address a.
Proof.
  induction comports as [|port rest IH]; cbn [access_create_from_uid];
    [discriminate|].
  destruct (serial_number port) as [sn|] eqn:Hsn.
  - destruct (String.eqb_spec sn uid) as [->|Hne].
    + intros H; injection H as <-; exists port.
      split; [left; reflexivity|]. split; [exact Hsn | reflexivity].
    + intros H; destruct (IH H) as [q [Hin Hq]].
      exists q; split; [right; exact Hin | exact Hq].
  - intros H; destruct (IH H) as [q [Hin Hq]].
    exists q; split; [right; exact Hin | exact Hq].
Qed.

(** X7. [DevAccessSerial.create_from_uid] binds a device to the first
    serial port that enumerates with the device's uid as its serial
    number, and to nothing exactly when no port has that serial number
    (a port without a serial number never matches). *)
Theorem access_is_first_port_with_uid :
  forall (comports : list ListPortInfo) (uid : string),
    match access_create_from_uid comports uid with
    | Some a =>
        exists pre port post,
          comports = pre ++ port :: post
          /\ serial_number port = Some uid
          /\ address a = device port
          /\ (forall q, In q pre -> serial_number q <> Some uid)
    | None => forall q, In q comports -> serial_number q <> Some uid
    end.
Proof.
  intros comports uid.
  induction comports as [|port rest IH]; cbn [access_create_from_uid].
  - intros q [].
  - destruct (serial_number port) as [sn|] eqn:Hsn.
    + destruct (String.eqb_spec sn uid) as [->|Hne].
      * exists [], port, rest.
        split; [reflexivity|]. split; [exact Hsn|].
        split; [reflexivity | intros q []].
      * assert (Hport : serial_number port <> Some uid)
          by (rewrite Hsn; intros H; injection H as H; exact (Hne H)).
        destruct (access_create_from_uid rest uid) as [a|].
        -- destruct IH as [pre [q [post [Heq [Hq [Ha Hpre]]]]]].
           exists (port :: pre), q, post.
           split; [rewrite Heq; reflexivity|]. split; [exact Hq|].
           split; [exact Ha|].
           intros x [<-|Hx]; [exact Hport | exact (Hpre x Hx)].
        -- intros x [<-|Hx]; [exact Hport | exact (IH x Hx)].
    + assert (Hport : serial_number port <> Some uid)
        by (rewrite Hsn; discriminate).
      destruct (access_create_from_uid rest uid) as [a|].
      * destruct IH as [pre [q [post [Heq [Hq [Ha Hpre]]]]]].
        exists (port :: pre), q, post.
        split; [rewrite Heq; reflexivity|]. split; [exact Hq|].
        split; [exact Ha|].
        intros x [<-|Hx]; [exact Hport | exact (Hpre x Hx)].
      * intros x [<-|Hx]; [exact Hport | exact (IH x Hx)].
Qed.

(** X8. [DevSwitch.create_from_uid] gives a switch exactly when the
    description search of the tool's answer finds a pair, and then the
    switch addresses that pair: its hub is a non-empty token, its port is
    not 0, and the pair is one of those that [scan_hubs_ports] lists for
    the same answer of the tool. *)
Theorem switch_from_uid_is_scanned :
  forall (uhub_proc : CompletedProcess) (hw_controller : Uhubctl.t)
         (uid : string),
    match snd (switch_create_from_uid uhub_proc hw_controller uid) with
    | Some sw =>
        snd (get_hub_port_by_desc uhub_proc hw_controller uid)
        = (Some (hub sw), Some (port sw))
        /\ hub sw <> EmptyString
        /\ port sw <> 0%Z
        /\ In (hub sw, port sw)
              (snd (scan_hubs_ports uhub_proc hw_controller))
    | None =>
        snd (get_hub_port_by_desc uhub_proc hw_controller uid) = (None, None)
    end.
Proof.
  intros uhub_proc hw_controller uid.
  unfold switch_create_from_uid, get_hub_port_by_desc, scan_hubs_ports.
  cbn [fst snd].
  set (self := fst (run_cmd ["--search"; uid] uhub_proc hw_controller)).
  assert (Hsame : fst (run_cmd [] uhub_proc hw_controller) = self).
  { subst self; unfold run_cmd.
    destruct (negb (returncode uhub_proc =? 0)%Z); [|reflexivity].
    destruct (negb (are_devices_detected (stderr uhub_proc))); reflexivity. }
  rewrite Hsame.
  unfold output_search_hub_port_by_desc.
  rewrite (search_hub_port_by_desc_loop_find uid _ None I).
  fold (observations self).
  destruct (find (is_desc_line_nonzero uid) (observations self))
    as [o|] eqn:Hfind; [|reflexivity].
  destruct (find_some _ _ Hfind) as [Hin Hline].
  unfold is_desc_line_nonzero in Hline.
  destruct (obs_hub o) as [h|] eqn:Hh; [|discriminate].
  destruct (obs_port o) as [p|] eqn:Hp; [|discriminate].
  apply andb_true_iff in Hline; destruct Hline as [Hnz _].
  pose proof (observe_hub_ok (output_lines self) None I) as Hok.
  rewrite Forall_forall in Hok; specialize (Hok o Hin).
  rewrite Hh in Hok; cbn [hub_ok] in Hok.
  cbn [truthy_hub truthy_port]; unfold truthy_int; rewrite Hok, Hnz.
  cbn [andb snd hub port].
  apply negb_true_iff, Z.eqb_neq in Hnz.
  split; [reflexivity|].
  split; [intros ->; discriminate|]. split; [exact Hnz|].
  apply scan_iff_observed; split; [exact Hnz|].
  exists o; repeat split; assumption.
Qed.

Lemma cycle_hubs_issued (hubs : list string) :
  forall k uhub_procs hw_controller,
    snd (cycle_hubs hubs k uhub_procs hw_controller)
    = map (fun h => action_args Cmd_cycle (Some h) None) hubs.
Proof.
  induction hubs as [|h rest IH]; intros k uhub_procs hw_controller;
    cbn [cycle_hubs]; [reflexivity|].
  specialize (IH (S k) uhub_procs
                (fst (run_action Cmd_cycle (Some h) None (uhub_procs k)
                        hw_controller))).
  destruct (cycle_hubs rest (S k) uhub_procs _) as [hw issued].
  cbn [snd map] in *; rewrite IH; reflexivity.
Qed.

(** X9. [DevSwitch.reset_all] issues one [cycle] command per hub that
    the scan lists, for the whole hub (no [--port]): in whatever order
    the set is iterated, no command is issued twice, and a command is
    issued exactly for the hubs of the scanned pairs. *)
Theorem reset_all_cycles_each_hub_once
    (set_iter : list string -> list string)
    (scan_proc : CompletedProcess) (uhub_procs : nat -> CompletedProcess)
    (hw_controller : Uhubctl.t) :
  iterates_set set_iter ->
  NoDup (snd (reset_all set_iter scan_proc uhub_procs hw_controller))
  /\ forall cmd,
       In cmd (snd (reset_all set_iter scan_proc uhub_procs hw_controller))
       <-> exists h p,
             In (h, p) (snd (scan_hubs_ports scan_proc hw_controller))
             /\ cmd = ["--action"; "cycle"; "--location"; h].
Proof.
  intros Hset; unfold reset_all.
  destruct (scan_hubs_ports scan_proc hw_controller) as [hw hubs_ports].
  cbn [snd]; rewrite cycle_hubs_issued.
  destruct (Hset (map fst hubs_ports)) as [Hnd Hmem].
  split.
  - clear Hmem; induction Hnd as [|h l Hh Hl IH]; cbn [map]; constructor;
      [|exact IH].
    intros Hin; apply in_map_iff in Hin; destruct Hin as [h' [Heq Hin]].
    unfold action_args in Heq; cbn [app] in Heq.
    injection Heq as ->; exact (Hh Hin).
  - intros cmd; rewrite in_map_iff; split.
    + intros [h [<- Hin]]; apply Hmem, in_map_iff in Hin.
      destruct Hin as [[h' p] [Hfst Hin]]; cbn [fst] in Hfst; subst h'.
      exists h, p; split; [exact Hin | reflexivity].
    + intros [h [p [Hin ->]]]; exists h; split; [reflexivity|].
      apply Hmem, in_map_iff; exists (h, p); split; [reflexivity | exact Hin].
Qed.

Lemma nodup_iterates_set : iterates_set (nodup string_dec).
Proof.
  intros l; split; [apply NoDup_nodup | intros x; apply nodup_In].
Qed.

Lemma reset_all_cycles_each_hub_once_witness :
  NoDup (snd (reset_all (nodup string_dec) status_proc (fun _ => status_proc)
                init)).
Proof.
  exact (proj1 (reset_all_cycles_each_hub_once (nodup string_dec) status_proc
                  (fun _ => status_proc) init nodup_iterates_set)).
Defined.

Lemma load_devices_spec (entries : list DevEntry) :
  forall k0 plugged hw_controller,
    let devices := fst (load_devices entries k0 plugged hw_controller) in
    map Devs.uid devices = map (fun e => get_or (entry_uid e) "") entries
    /\ map Devs.name devices
       = map (fun e => get_or (entry_name e) "") entries
    /\ map Devs.features devices
       = map (fun e => get_or (entry_features e) []) entries
    /\ forall k d,
         nth_error devices k = Some d ->
         access d
         = access_create_from_uid (comports (plugged (k0 + k)%nat))
             (Devs.uid d).
Proof.
  induction entries as [|e rest IH]; intros k0 plugged hw_controller;
    cbn [load_devices].
  - cbn [fst map]; repeat split; intros [|k] d; discriminate.
  - unfold device_init; cbn [Devs.uid Devs.name Devs.features].
    destruct (switch_create_from_uid (uhub_answer (plugged k0)) hw_controller
                (get_or (entry_uid e) "")) as [hw1 switch].
    specialize (IH (S k0) plugged hw1).
    destruct (load_devices rest (S k0) plugged hw1) as [devices hw2].
    cbv zeta in IH; cbn [fst] in *.
    destruct IH as [H1 [H2 [H3 H4]]].
    cbv zeta; cbn [map Devs.uid Devs.name Devs.features].
    rewrite H1, H2, H3; repeat split.
    intros [|k] d; cbn [nth_error].
    + intros H; injection H as <-; cbn [access Devs.uid].
      rewrite Nat.add_0_r; reflexivity.
    + intros H; rewrite (H4 k d H); f_equal; f_equal; f_equal; lia.
Qed.

(** X10. [Device.load_device_list_from_yml] builds one device per
    record of the document, in order, with the record's [uid], [name]
    and [features] unchanged (the empty string or the empty list for a
    key that is absent); and the k-th device has an access endpoint only
    if a serial port that enumerated when it was built carries its uid
    as serial number, and then the endpoint is that port's device
    path. *)
Theorem load_device_list_keeps_records (entries : list DevEntry)
    (plugged : nat -> Plugged) (hw_controller : Uhubctl.t) :
  let devices :=
    fst (load_device_list_from_yml entries plugged hw_controller) in
  List.length devices = List.length entries
  /\ map Devs.uid devices = map (fun e => get_or (entry_uid e) "") entries
  /\ map Devs.name devices = map (fun e => get_or (entry_name e) "") entries
  /\ map Devs.features devices
     = map (fun e => get_or (entry_features e) []) entries
  /\ forall k d a,
       nth_error devices k = Some d ->
       access d = Some a ->
       exists port,
         In port (comports (plugged k))
         /\ serial_number port = Some (Devs.uid d)
         /\ device port = address a.
Proof.
  unfold load_device_list_from_yml.
  destruct (load_devices_spec entries 0 plugged hw_controller)
    as [H1 [H2 [H3 H4]]].
  cbv zeta; split.
  - rewrite <- (length_map Devs.uid), H1, length_map; reflexivity.
  - split; [exact H1|]. split; [exact H2|]. split; [exact H3|].
    intros k d a Hnth Ha; rewrite (H4 k d Hnth) in Ha; cbn [Nat.add] in Ha.
    exact (access_create_sound _ _ _ Ha).
Qed.

Lemma load_device_list_keeps_records_witness :
  exists port,
    In port [mkPort "/dev/ttyACM0" (Some "0D17")]
    /\ serial_number port = Some "0D17"
    /\ device port = "/dev/ttyACM0".
Proof.
  exact (proj2 (proj2 (proj2 (proj2
           (load_device_list_keeps_records
              [mkEntry (Some "BOARD") (Some "0D17") None]
              (fun _ => mkPlugged [mkPort "/dev/ttyACM0" (Some "0D17")]
                          status_proc)
              init))))
           0%nat
           (mkDevice "BOARD" "0D17" [] (Some (mkAccess "/dev/ttyACM0")) None)
           (mkAccess "/dev/ttyACM0") eq_refl eq_refl).
Defined.

End DevsBindingProperties.

(** ** Running and loading tests: TestRunner *)

Section TestRunnerRunProperties.
Import PyStr TestRunner TestRunnerCalls.







Lemma custom_loop_spec (procs : Procs) (tests : list string) :
  forall k0 result,
    (result = 0%Z \/ result = 1%Z) ->
    let rc := custom_loop procs k0 tests result in
    (rc = 0%Z \/ rc = 1%Z)
    /\ (rc = 0%Z <->
        result = 0%Z
        /\ forall k, (k < List.length tests)%nat ->
                     custom_rc procs (k0 + k)%nat = 0%Z).
Proof.
  induction tests as [|t rest IH]; intros k0 result Hres; cbv zeta;
    cbn [custom_loop List.length].
  - split; [exact Hres|].
    split; [intros H; split; [exact H | intros k Hk; lia] | intros [H _]; exact H].
  - destruct (Z.eqb_spec (custom_rc procs k0) 0) as [Hz|Hnz]; cbn [negb].
    + destruct (IH (S k0) result Hres) as [IH1 IH2]; cbv zeta in IH1, IH2.
      split; [exact IH1|]. rewrite IH2; split.
      * intros [Hr H]; split; [exact Hr|].
        intros [|k] Hk; [rewrite Nat.add_0_r; exact Hz|].
        replace (k0 + S k)%nat with (S k0 + k)%nat by lia; apply H; lia.
      * intros [Hr H]; split; [exact Hr|].
        intros k Hk.
        replace (S k0 + k)%nat with (k0 + S k)%nat by lia; apply H; lia.
    + destruct (IH (S k0) 1%Z (or_intror eq_refl)) as [IH1 IH2].
      cbv zeta in IH1, IH2; split; [exact IH1|].
      rewrite IH2; split; [intros [H _]; discriminate|].
      intros [_ H]; exfalso; apply Hnz.
      rewrite <- (Nat.add_0_r k0); apply H; lia.
Qed.

(** X13. A test of type [custom] runs every one of its scripts,
    whatever the earlier ones returned, and reduces their exit statuses
    to 0 or 1: it returns 0 exactly when every script process exits 0
    and 1 otherwise. *)
Theorem custom_test_is_zero_or_one (self : t) (procs : Procs) :
  (custom_test self procs = 0%Z \/ custom_test self procs = 1%Z)
  /\ (custom_test self procs = 0%Z <->
      forall k, (k < List.length (test_script_list self))%nat ->
                custom_rc procs k = 0%Z).
Proof.
  destruct (custom_loop_spec procs (test_script_list self) 0 0%Z
              (or_introl eq_refl)) as [H1 H2].
  cbv zeta in H1, H2; unfold custom_test; split; [exact H1|].
  rewrite H2; cbn [Nat.add]; split; [intros [_ H]; exact H | intros H].
  split; [reflexivity | exact H].
Qed.

Lemma remove_first_In (x y : string) (l : list string) :
  In y (remove_first x l) -> In y l.
Proof.
  induction l as [|z l IH]; cbn [remove_first]; [intros []|].
  destruct (String.eqb z x).
  - intros H; right; exact H.
  - intros [->|H]; [left; reflexivity | right; exact (IH H)].
Qed.

Lemma remove_first_length (x : string) (l : list string) :
  (List.length l <= S (List.length (remove_first x l)))%nat.
Proof.
  induction l as [|z l IH]; cbn [remove_first List.length]; [lia|].
  destruct (String.eqb z x); cbn [List.length]; lia.
Qed.

Lemma remove_first_NoDup (x : string) (l : list string) :
  NoDup l ->
  NoDup (remove_first x l)
  /\ forall y, In y (remove_first x l) <-> In y l /\ y <> x.
Proof.
  induction l as [|z l IH]; intros Hnd; cbn [remove_first].
  - split; [constructor|]. intros y; split; [intros [] | intros [[] _]].
  - inversion Hnd as [|? ? Hz Hl]; subst.
    destruct (String.eqb_spec z x) as [->|Hne].
    + split; [exact Hl|]. intros y; split.
      * intros Hy; split; [right; exact Hy | intros ->; exact (Hz Hy)].
      * intros [[->|Hy] Hne]; [contradiction | exact Hy].
    + destruct (IH Hl) as [IH1 IH2]; split.
      * constructor; [|exact IH1].
        intros Hin; apply Hz; eapply remove_first_In; exact Hin.
      * intros y; cbn [In]; rewrite IH2; split.
        -- intros [->|[Hy Hyx]]; [split; [left; reflexivity | exact Hne]|].
           split; [right; exact Hy | exact Hyx].
        -- intros [[->|Hy] Hyx]; [left; reflexivity | right; split; assumption].
Qed.

Lemma remove_excluded_fold (excludes : list string) :
  forall args,
    let result :=
      fold_left (fun a excluded => remove_first excluded a) excludes args in
    (forall x, In x result -> In x args)
    /\ (List.length args <= List.length result + List.length excludes)%nat
    /\ (NoDup args ->
        forall x, In x result <-> In x args /\ ~ In x excludes).
Proof.
  induction excludes as [|e rest IH]; intros args; cbv zeta;
    cbn [fold_left List.length].
  - split; [auto|]. split; [lia|].
    intros _ x; split; [intros H; split; [exact H | intros []] | intros [H _]; exact H].
  - destruct (IH (remove_first e args)) as [IH1 [IH2 IH3]].
    cbv zeta in IH1, IH2, IH3; split.
    + intros x Hx; eapply remove_first_In; apply IH1; exact Hx.
    + split.
      * pose proof (remove_first_length e args); lia.
      * intros Hnd x; destruct (remove_first_NoDup e args Hnd) as [Hnd' Hmem].
        rewrite (IH3 Hnd' x), Hmem; cbn [In]; split.
        -- intros [[Hx Hne] Hrest]; split; [exact Hx|].
           intros [Heq|Hin]; [exact (Hne (eq_sym Heq)) | exact (Hrest Hin)].
        -- intros [Hx Hnot]; split; [split; [exact Hx|]|].
           ++ intros ->; apply Hnot; left; reflexivity.
           ++ intros Hin; apply Hnot; right; exact Hin.
Qed.

(** X14. The exclusion of [single_post_delay] tests removes, for each
    excluded name, at most its first occurrence in the expanded script
    list: what is left was in the list, at most one script per excluded
    name is gone, and when the expanded list holds no script twice, the
    scripts left are exactly those that are not excluded. *)
Theorem remove_excluded_tests_spec (self : t) (args : list string) :
  (forall x, In x (remove_excluded_tests self args) -> In x args)
  /\ (List.length args
      <= List.length (remove_excluded_tests self args)
         + List.length (test_exclude_list self))%nat
  /\ (NoDup args ->
      forall x, In x (remove_excluded_tests self args) <->
                In x args /\ ~ In x (test_exclude_list self)).
Proof.
  unfold remove_excluded_tests.
  apply (remove_excluded_fold (test_exclude_list self) args).
Qed.

Lemma remove_excluded_tests_spec_witness :
  NoDup ["a.py"; "b.py"]
  /\ forall x,
       In x (remove_excluded_tests
               (init "t" ["a.py"; "b.py"] ["b.py"] 5 None [] [] 0 None [])
               ["a.py"; "b.py"]) <->
       In x ["a.py"; "b.py"] /\ ~ In x ["b.py"].
Proof.
  assert (Hnd : NoDup ["a.py"; "b.py"]).
  { repeat constructor; cbn [In]; intros H;
      repeat (destruct H as [H|H]; [discriminate|]); exact H. }
  split; [exact Hnd|].
  exact (proj2 (proj2 (remove_excluded_tests_spec
           (init "t" ["a.py"; "b.py"] ["b.py"] 5 None [] [] 0 None [])
           ["a.py"; "b.py"])) Hnd).
Defined.

End TestRunnerRunProperties.

(** ** The test plan document *)

Section TestPlanYamlProperties.
Import TestPlanYaml.





End TestPlanYamlProperties.

(** ** The tracker under any sequence of calls *)

Section TrackerProperties.
Import TestPlanResults TrackerCalls.

Lemma max_retries_apply_call (s : t) (c : Call) :
  max_retries (apply_call s c) = max_retries s.
Proof.
  destruct c as [n|n|n]; cbn [apply_call].
  - reflexivity.
  - unfold register_fail; destruct (negb _); [reflexivity|].
    destruct (get_test_retry_index s n); reflexivity.
  - unfold register_pass; cbv zeta.
    destruct (mem n (fail_test_name_list s)); destruct (negb _); reflexivity.
Qed.

Lemma In_decrement_at (i : nat) (l : list TestRetries) (r : TestRetries) :
  In r (decrement_at i l) ->
  In r l \/ exists r0, In r0 l /\ r = mkRetry (test_name r0) (retries r0 - 1).
Proof.
  revert i; induction l as [|r0 l IH]; intros [|i]; cbn [decrement_at In];
    try (intros H; exfalso; exact H).
  - intros [<-|H]; [right; exists r0; split; [left|]; reflexivity|].
    left; right; exact H.
  - intros [<-|H]; [left; left; reflexivity|].
    destruct (IH i H) as [H'|[r1 [H1 H2]]]; [left; right; exact H'|].
    right; exists r1; split; [right; exact H1 | exact H2].
Qed.

Lemma In_remove_retry (o r : TestRetries) (l : list TestRetries) :
  In r (remove_retry o l) -> In r l.
Proof.
  induction l as [|y l IH]; cbn [remove_retry]; [intros []|].
  destruct (retry_eqb y o).
  - intros H; right; exact H.
  - intros [<-|H]; [left; reflexivity | right; exact (IH H)].
Qed.

(** No entry of the ledger grants more than [max_retries]. *)
Lemma retries_bounded_apply_call (s : t) (c : Call) :
  Forall (fun r => (retries r <= max_retries s)%Z) (retry_test_list s) ->
  Forall (fun r => (retries r <= max_retries s)%Z)
         (retry_test_list (apply_call s c)).
Proof.
  intros Hb; rewrite Forall_forall in *.
  destruct c as [n|n|n]; cbn [apply_call].
  - exact Hb.
  - unfold register_fail.
    destruct (negb (mem n (fail_test_name_list s))).
    + cbn [retry_test_list]; intros r Hr; apply in_app_or in Hr.
      destruct Hr as [Hr|[<-|[]]]; [exact (Hb r Hr) | cbn [retries]; lia].
    + destruct (get_test_retry_index s n) as [i|]; [|exact Hb].
      cbn [retry_test_list]; intros r Hr.
      destruct (In_decrement_at i _ r Hr) as [H|[r0 [H0 ->]]];
        [exact (Hb r H)|].
      cbn [retries]; specialize (Hb r0 H0); lia.
  - assert (Hsub : forall r, In r (retry_test_list (register_pass s n)) ->
               In r (retry_test_list s)).
    { unfold register_pass; cbv zeta.
      destruct (mem n (fail_test_name_list s)).
      - destruct (get_test_retry_index s n) as [i|].
        + destruct (nth_error (retry_test_list s) i) as [o|];
            destruct (negb _); cbn [retry_test_list]; intros r Hr;
            try exact Hr; eapply In_remove_retry; exact Hr.
        + destruct (negb _); cbn [retry_test_list]; auto.
      - destruct (negb _); cbn [retry_test_list]; auto. }
    intros r Hr; exact (Hb r (Hsub r Hr)).
Qed.

Lemma NoDup_pass_apply_call (s : t) (c : Call) :
  NoDup (pass_test_name_list s) ->
  NoDup (pass_test_name_list (apply_call s c)).
Proof.
  intros Hnd; destruct c as [n|n|n]; cbn [apply_call].
  - exact Hnd.
  - rewrite pass_list_register_fail; exact Hnd.
  - unfold register_pass; cbv zeta.
    set (s1 := if mem n (fail_test_name_list s) then _ else s).
    assert (Hp : pass_test_name_list s1 = pass_test_name_list s).
    { subst s1; destruct (mem n (fail_test_name_list s)); reflexivity. }
    destruct (mem n (pass_test_name_list s1)) eqn:Hmem; cbn [negb].
    + rewrite Hp; exact Hnd.
    + cbn [pass_test_name_list]; rewrite Hp in *.
      apply NoDup_app_last; [exact Hnd | apply mem_false_iff; exact Hmem].
Qed.

Lemma ledger_ok_apply_call (s : t) (c : Call) :
  ledger_ok s -> ledger_ok (apply_call s c).
Proof.
  intros Hok; destruct c as [n|n|n]; cbn [apply_call].
  - exact Hok.
  - apply ledger_ok_register_fail; exact Hok.
  - apply ledger_ok_register_pass; exact Hok.
Qed.

Lemma skip_list_apply_call (s : t) (c : Call) :
  skip_test_name_list (apply_call s c)
  = skip_test_name_list s
    ++ match c with call_skip n => [n] | _ => [] end.
Proof.
  destruct c as [n|n|n]; cbn [apply_call].
  - reflexivity.
  - rewrite skip_list_register_fail, app_nil_r; reflexivity.
  - rewrite skip_list_register_pass, app_nil_r; reflexivity.
Qed.

Lemma apply_calls_invariant (calls : list Call) :
  forall s,
    ledger_ok s ->
    NoDup (pass_test_name_list s) ->
    Forall (fun r => (retries r <= max_retries s)%Z) (retry_test_list s) ->
    let s' := apply_calls calls s in
    ledger_ok s'
    /\ NoDup (pass_test_name_list s')
    /\ Forall (fun r => (retries r <= max_retries s)%Z) (retry_test_list s')
    /\ max_retries s' = max_retries s
    /\ skip_test_name_list s'
       = skip_test_name_list s
         ++ flat_map (fun c => match c with call_skip n => [n] | _ => [] end)
              calls.
Proof.
  induction calls as [|c calls IH]; intros s Hok Hnd Hb; cbv zeta;
    unfold apply_calls; cbn [fold_left flat_map].
  - rewrite app_nil_r.
    split; [exact Hok|]. split; [exact Hnd|]. split; [exact Hb|].
    split; reflexivity.
  - pose proof (retries_bounded_apply_call s c Hb) as Hb'.
    rewrite <- (max_retries_apply_call s c) in Hb'.
    destruct (IH (apply_call s c) (ledger_ok_apply_call s c Hok)
                (NoDup_pass_apply_call s c Hnd) Hb')
      as [H1 [H2 [H3 [H4 H5]]]].
    cbv zeta in H1, H2, H3, H4, H5; unfold apply_calls in *.
    rewrite (max_retries_apply_call s c) in H3, H4.
    rewrite skip_list_apply_call, <- app_assoc in H5.
    split; [exact H1|]. split; [exact H2|]. split; [exact H3|].
    split; [exact H4|].
    rewrite H5; f_equal; destruct c; reflexivity.
Qed.

(** X16. Whatever sequence of [register_skip], [register_fail] and
    [register_pass] calls a fresh tracker receives: the names of the
    retry ledger are, in order, the failed list; no name is twice in the
    failed list or twice in the passed list; no ledger entry grants more
    than [max_retries]; and the skipped list is the log of the skip
    calls, in order and with repetitions. *)
Theorem tracker_invariants (max : Z) (calls : list Call) :
  let s := apply_calls calls (init max) in
  map test_name (retry_test_list s) = fail_test_name_list s
  /\ NoDup (fail_test_name_list s)
  /\ NoDup (pass_test_name_list s)
  /\ Forall (fun r => (retries r <= max)%Z) (retry_test_list s)
  /\ max_retries s = max
  /\ skip_test_name_list s
     = flat_map (fun c => match c with call_skip n => [n] | _ => [] end)
         calls.
Proof.
  destruct (apply_calls_invariant calls (init max) (ledger_ok_init max))
    as [[H1 H1'] [H2 [H3 [H4 H5]]]]; [constructor | constructor|].
  cbv zeta.
  split; [exact H1|]. split; [exact H1'|]. split; [exact H2|].
  split; [exact H3|]. split; [exact H4 | exact H5].
Qed.

(** X17. Registering a pass twice is registering it once, in every
    tracker whose failed list holds no name twice (every tracker the
    calls can reach is one). *)
Theorem register_pass_idempotent (s : t) (name : string) :
  NoDup (fail_test_name_list s) ->
  register_pass (register_pass s name) name = register_pass s name.
Proof.
  intros Hnd.
  assert (Hfail : mem name (fail_test_name_list (register_pass s name))
                  = false).
  { apply mem_false_iff; unfold register_pass; cbv zeta.
    destruct (mem name (fail_test_name_list s)) eqn:Hmem.
    - destruct (negb _); cbn [fail_test_name_list];
        apply (proj2 (NoDup_remove_name name _ Hnd)).
    - apply mem_false_iff in Hmem.
      destruct (negb _); cbn [fail_test_name_list]; exact Hmem. }
  assert (Hpass : mem name (pass_test_name_list (register_pass s name))
                  = true).
  { apply mem_true_iff, pass_list_register_pass; right; reflexivity. }
  set (s' := register_pass s name) in *.
  unfold register_pass at 1; cbv zeta; rewrite Hfail, Hpass; reflexivity.
Qed.

Lemma register_pass_idempotent_witness :
  register_pass (register_pass (mk [] [] ["T3"] 1 [mkRetry "T3" 1]) "T3") "T3"
  = register_pass (mk [] [] ["T3"] 1 [mkRetry "T3" 1]) "T3".
Proof.
  apply register_pass_idempotent.
  constructor; [intros [] | constructor].
Defined.

Lemma inner_no_entry (name : string) (test : TestRunner.t)
    (l : list TestRetries) :
  no_entry name l ->
  flat_map (fun retry =>
              if String.eqb name (test_name retry) && (retries retry >? 0)%Z
              then [test] else []) l = [].
Proof.
  induction 1 as [|r l Hr Hl IH]; cbn [flat_map]; [reflexivity|].
  destruct (String.eqb_spec name (test_name r)) as [Heq|_];
    [exfalso; apply Hr; symmetry; exact Heq|].
  cbn [andb app]; exact IH.
Qed.

Lemma inner_remaining (name : string) (test : TestRunner.t)
    (l : list TestRetries) :
  NoDup (map test_name l) ->
  forall k,
    flat_map (fun retry =>
                if String.eqb name (test_name retry) && (retries retry >? 0)%Z
                then [test] else []) l
    = if match retry_index_from k name l with
         | Some i => match nth_error l (i - k) with
                     | Some r => (retries r >? 0)%Z
                     | None => false
                     end
         | None => false
         end
      then [test] else [].
Proof.
  induction l as [|r l IH]; intros Hnd k; [reflexivity|].
  cbn [map] in Hnd; inversion Hnd as [|? ? Hhead Hnd']; subst.
  cbn [flat_map retry_index_from].
  destruct (String.eqb_spec (test_name r) name) as [Heq|Hne].
  - rewrite <- Heq, String.eqb_refl, Nat.sub_diag; cbn [andb nth_error].
    rewrite inner_no_entry, app_nil_r; [reflexivity|].
    unfold no_entry; rewrite Forall_forall; intros r' Hr' Hname.
    apply Hhead; rewrite <- Hname; apply in_map; exact Hr'.
  - destruct (String.eqb_spec name (test_name r)) as [Heq|_];
      [exfalso; apply Hne; symmetry; exact Heq|].
    cbn [andb app]; rewrite (IH Hnd' (S k)).
    destruct (retry_index_from (S k) name l) as [i|] eqn:Hidx; [|reflexivity].
    destruct (retry_index_from_some _ _ _ _ Hidx) as [j [r' [-> _]]].
    replace (S k + j - k)%nat with (S j) by lia.
    replace (S k + j - S k)%nat with j by lia.
    reflexivity.
Qed.

(** X18. In a tracker whose ledger follows its failed list (every
    tracker the calls can reach is one), [filter_retries] is a plain
    filter: it keeps, in order and once each, the tests whose name has
    retries left in the ledger. *)
Theorem filter_retries_is_filter (s : t) (tests : list TestRunner.t) :
  ledger_ok s ->
  filter_retries s tests
  = filter (fun test => match remaining s (TestRunner.name test) with
                        | Some r => (r >? 0)%Z
                        | None => false
                        end) tests.
Proof.
  intros Hok; pose proof (ledger_names_NoDup s Hok) as Hnd.
  unfold filter_retries.
  induction tests as [|test tests IH]; cbn [flat_map filter]; [reflexivity|].
  rewrite IH, (inner_remaining _ test _ Hnd 0).
  unfold remaining, get_test_retry_index.
  destruct (retry_index_from 0 (TestRunner.name test) (retry_test_list s))
    as [i|]; [|reflexivity].
  rewrite Nat.sub_0_r.
  destruct (nth_error (retry_test_list s) i) as [r|]; cbn [option_map];
    [|reflexivity].
  destruct (retries r >? 0)%Z; reflexivity.
Qed.

Lemma tracker_one_retry_left_ok :
  ledger_ok Scenario.tracker_one_retry_left.
Proof.
  split; [reflexivity|].
  cbn [Scenario.tracker_one_retry_left fail_test_name_list].
  repeat constructor; cbn [In]; intros H;
    repeat (destruct H as [H|H]; [discriminate H|]); exact H.
Qed.

Lemma tracker_one_retry_left_kept :
  filter (fun test =>
            match remaining Scenario.tracker_one_retry_left
                    (TestRunner.name test) with
            | Some r => (r >? 0)%Z
            | None => false
            end) [Scenario.T2; Scenario.T3; Scenario.T1]
  = [Scenario.T3].
Proof. vm_compute. reflexivity. Qed.

Lemma filter_retries_is_filter_witness :
  filter_retries Scenario.tracker_one_retry_left
    [Scenario.T2; Scenario.T3; Scenario.T1]
  = [Scenario.T3].
Proof.
  rewrite <- tracker_one_retry_left_kept.
  apply filter_retries_is_filter; exact tracker_one_retry_left_ok.
Defined.

(** X19. Consecutive failures of one name are counted down without a
    floor: after [n + 1] failures on a fresh tracker the name is once in
    the failed list and its one ledger entry holds [max_retries - n],
    which is negative once the failures outnumber the retries. *)
Theorem consecutive_failures_count_down (max : Z) (name : string) (n : nat) :
  fail_times (S n) name (init max)
  = mk [] [] [name] max [mkRetry name (max - Z.of_nat n)]
  /\ remaining (fail_times (S n) name (init max)) name
     = Some (max - Z.of_nat n)%Z.
Proof.
  assert (H : fail_times (S n) name (init max)
              = mk [] [] [name] max [mkRetry name (max - Z.of_nat n)]).
  { induction n as [|n IH].
    - cbn [fail_times]; unfold register_fail, init, mem.
      cbn [fail_test_name_list existsb negb pass_test_name_list
           skip_test_name_list max_retries retry_test_list app].
      rewrite Z.sub_0_r; reflexivity.
    - change (fail_times (S (S n)) name (init max))
        with (register_fail (fail_times (S n) name (init max)) name).
      rewrite IH.
      unfold register_fail, get_test_retry_index, mem.
      cbn [fail_test_name_list retry_test_list existsb retry_index_from
           test_name pass_test_name_list skip_test_name_list max_retries].
      rewrite String.eqb_refl; cbn [orb negb decrement_at test_name retries].
      do 3 f_equal; lia. }
  split; [exact H|].
  rewrite H; unfold remaining, get_test_retry_index.
  cbn [retry_test_list retry_index_from test_name].
  rewrite String.eqb_refl; reflexivity.
Qed.

End TrackerProperties.

(** ** The passes of a run *)

Section RunRoundsProperties.
Import Devs TestPlanResults TrackerCalls TestPlanRunner RetryRounds Scenario.

Lemma failing_pass_step (w : World) (t3 : TestRunner.t) (max v : Z)
    (fuel tick : nat) :
  TestRunner.type t3 = "single" ->
  (forall tick, access (fst (get_test_devs w tick t3)) <> None) ->
  (forall tick k, TestRunner.run_tests_rc (procs w tick) k = 1%Z) ->
  exists p,
    pass_tests p = [t3]
    /\ In (test_fail_info (TestRunner.name t3)) (pass_events p)
    /\ while_pending (S fuel) w [t3] tick
         (mk [] [] [TestRunner.name t3] max [mkRetry (TestRunner.name t3) v])
       = if (v - 1 >? 0)%Z
         then
           (p :: fst (while_pending fuel w [t3] (S tick)
                        (mk [] [] [TestRunner.name t3] max
                            [mkRetry (TestRunner.name t3) (v - 1)])),
            snd (while_pending fuel w [t3] (S tick)
                   (mk [] [] [TestRunner.name t3] max
                       [mkRetry (TestRunner.name t3) (v - 1)])))
         else
           ([p], Exit 1 (mk [] [] [TestRunner.name t3] max
                            [mkRetry (TestRunner.name t3) (v - 1)])).
Proof.
  intros Htype Hdut Hrc.
  destruct (single_pass_fails w t3 tick
              (mk [] [] [TestRunner.name t3] max
                  [mkRetry (TestRunner.name t3) v])
              Htype (Hdut _) (Hrc _ _)) as [ev [Hp _]].
  rewrite register_fail_again in Hp.
  eexists; split; [|split].
  3: { rewrite while_pending_S, Hp; cbv zeta.
       cbn [pass_raised pass_results pass_tick].
       rewrite filter_retries_one.
       destruct (v - 1 >? 0)%Z; cbv iota; [|reflexivity].
       destruct (while_pending fuel w [t3] (S tick) _) as [ps out].
       reflexivity. }
  - reflexivity.
  - cbn [pass_events]; apply in_or_app; right; left; reflexivity.
Qed.

Lemma failing_retry_passes (w : World) (t3 : TestRunner.t) (max : Z) :
  TestRunner.type t3 = "single" ->
  (forall tick, access (fst (get_test_devs w tick t3)) <> None) ->
  (forall tick k, TestRunner.run_tests_rc (procs w tick) k = 1%Z) ->
  forall (r fuel tick : nat),
    (S r <= fuel)%nat ->
    exists passes,
      while_pending fuel w [t3] tick
        (mk [] [] [TestRunner.name t3] max
            [mkRetry (TestRunner.name t3) (Z.of_nat (S r))])
      = (passes,
         Exit 1 (mk [] [] [TestRunner.name t3] max
                    [mkRetry (TestRunner.name t3) 0]))
      /\ List.length passes = S r
      /\ Forall (fun p =>
                   pass_tests p = [t3]
                   /\ In (test_fail_info (TestRunner.name t3))
                         (pass_events p)) passes.
Proof.
  intros Htype Hdut Hrc.
  induction r as [|r IH]; intros fuel tick Hfuel;
    (destruct fuel as [|fuel]; [lia|]).
  - destruct (failing_pass_step w t3 max (Z.of_nat 1) fuel tick Htype Hdut
                Hrc) as [p [Hp1 [Hp2 Hrun]]].
    change (Z.of_nat 1 - 1 >? 0)%Z with false in Hrun; cbv iota in Hrun.
    rewrite Hrun.
    eexists; split; [reflexivity|]. split; [reflexivity|].
    constructor; [split; assumption | constructor].
  - destruct (failing_pass_step w t3 max (Z.of_nat (S (S r))) fuel tick Htype
                Hdut Hrc) as [p [Hp1 [Hp2 Hrun]]].
    replace (Z.of_nat (S (S r)) - 1)%Z with (Z.of_nat (S r)) in Hrun by lia.
    assert (Hgt : (Z.of_nat (S r) >? 0)%Z = true) by (apply Z.gtb_lt; lia).
    rewrite Hgt in Hrun; rewrite Hrun.
    destruct (IH fuel (S tick)) as [passes [Hrest [Hlen Hall]]]; [lia|].
    rewrite Hrest; cbn [fst snd].
    eexists; split; [reflexivity|].
    split; [cbn [List.length]; rewrite Hlen; reflexivity|].
    constructor; [split; assumption | exact Hall].
Qed.

(** X20. One test of type [single] whose device is there at every pass
    and whose script always exits 1, run with [max_retries = m]: the
    loop makes exactly [m + 1] passes, each of which runs the test and
    registers its failure; the run exits with status 1, the test alone
    in the failed list and its ledger entry at 0. *)
Theorem always_failing_single_test_passes (w : World) (t3 : TestRunner.t)
    (m fuel : nat) :
  TestRunner.type t3 = "single" ->
  (forall tick, access (fst (get_test_devs w tick t3)) <> None) ->
  (forall tick k, TestRunner.run_tests_rc (procs w tick) k = 1%Z) ->
  (S m <= fuel)%nat ->
  exists passes,
    run fuel w [t3] [] (Z.of_nat m)
    = (passes,
       Exit 1 (mk [] [] [TestRunner.name t3] (Z.of_nat m)
                  [mkRetry (TestRunner.name t3) 0]))
    /\ List.length passes = S m
    /\ Forall (fun p =>
                 pass_tests p = [t3]
                 /\ In (test_fail_info (TestRunner.name t3)) (pass_events p))
              passes.
Proof.
  intros Htype Hdut Hrc Hfuel.
  destruct fuel as [|fuel]; [lia|].
  destruct (single_pass_fails w t3 0 (init (Z.of_nat m)) Htype (Hdut _)
              (Hrc _ _)) as [ev [Hp _]].
  change (register_fail (init (Z.of_nat m)) (TestRunner.name t3))
    with (mk [] [] [TestRunner.name t3] (Z.of_nat m)
             [mkRetry (TestRunner.name t3) (Z.of_nat m)]) in Hp.
  unfold run; cbn [get_test_list].
  rewrite while_pending_S, Hp; cbv zeta.
  cbn [pass_raised pass_results pass_tick].
  rewrite filter_retries_one.
  assert (Hfirst : pass_tests
                     (mkPass [t3] (ev ++ [test_fail_info (TestRunner.name t3)])
                        [mk [] [] [TestRunner.name t3] (Z.of_nat m)
                            [mkRetry (TestRunner.name t3) (Z.of_nat m)]]
                        (mk [] [] [TestRunner.name t3] (Z.of_nat m)
                            [mkRetry (TestRunner.name t3) (Z.of_nat m)])
                        1 false) = [t3]
                   /\ In (test_fail_info (TestRunner.name t3))
                         (pass_events
                            (mkPass [t3]
                               (ev ++ [test_fail_info (TestRunner.name t3)])
                               [mk [] [] [TestRunner.name t3] (Z.of_nat m)
                                   [mkRetry (TestRunner.name t3)
                                      (Z.of_nat m)]]
                               (mk [] [] [TestRunner.name t3] (Z.of_nat m)
                                   [mkRetry (TestRunner.name t3)
                                      (Z.of_nat m)])
                               1 false))).
  { split; [reflexivity|].
    cbn [pass_events]; apply in_or_app; right; left; reflexivity. }
  destruct m as [|r].
  - change (Z.of_nat 0 >? 0)%Z with false; cbv iota.
    eexists; split; [reflexivity|]. split; [reflexivity|].
    constructor; [exact Hfirst | constructor].
  - assert (Hgt : (Z.of_nat (S r) >? 0)%Z = true) by (apply Z.gtb_lt; lia).
    rewrite Hgt; cbv iota.
    destruct (failing_retry_passes w t3 (Z.of_nat (S r)) Htype Hdut Hrc
                r fuel 1%nat) as [passes [Hrun [Hlen Hall]]]; [lia|].
    rewrite Hrun.
    eexists; split; [reflexivity|].
    split; [cbn [List.length]; rewrite Hlen; reflexivity|].
    constructor; [exact Hfirst | exact Hall].
Qed.

Lemma always_failing_single_test_passes_witness :
  exists passes,
    run 5 world_always_failing [T3] [] (Z.of_nat 4)
    = (passes,
       Exit 1 (mk [] [] [TestRunner.name T3] (Z.of_nat 4)
                  [mkRetry (TestRunner.name T3) 0]))
    /\ List.length passes = 5%nat
    /\ Forall (fun p =>
                 pass_tests p = [T3]
                 /\ In (test_fail_info (TestRunner.name T3)) (pass_events p))
              passes.
Proof.
  apply (always_failing_single_test_passes world_always_failing T3 4 5).
  - reflexivity.
  - intros tick; discriminate.
  - intros tick k; reflexivity.
  - lia.
Defined.

Lemma bounded_inv_step (w : World) (max : Z) (tick : nat)
    (test : TestRunner.t) (s : t) (ev : list Event) (s' : t) :
  bounded_inv max s ->
  iteration w tick test s = Continue ev s' ->
  bounded_inv max s'.
Proof.
  intros [Hmax Hb] Hit.
  assert (Hcall : exists c, s' = apply_call s c).
  { pose proof (iteration_cases w tick test s) as Hcases.
    rewrite Hit in Hcases.
    destruct Hcases as [[_ [_ ->]] | [_ [-> | ->]]].
    - exists (call_skip (TestRunner.name test)); reflexivity.
    - exists (call_fail (TestRunner.name test)); reflexivity.
    - exists (call_pass (TestRunner.name test)); reflexivity. }
  destruct Hcall as [c ->].
  split; [rewrite max_retries_apply_call; exact Hmax|].
  rewrite <- Hmax in *; apply retries_bounded_apply_call; exact Hb.
Qed.

(** X21. With [max_retries] zero or negative the loop makes exactly
    one pass, over the selected tests, whatever the plan, the selection
    and the answers of the devices and of the scripts, and then exits
    or raises: there is no retry pass. *)
Theorem no_retries_single_pass (w : World) (plan : list TestRunner.t)
    (names : list string) (max : Z) (fuel : nat) :
  (max <= 0)%Z ->
  exists p out,
    run (S fuel) w plan names max = ([p], out)
    /\ ended out
    /\ pass_tests p = get_test_list plan names.
Proof.
  intros Hmax; unfold run.
  set (tests := get_test_list plan names).
  rewrite while_pending_S; cbv zeta.
  pose proof (run_pass_invariant w (fun _ s => bounded_inv max s)
                (fun tick test rest s ev s' =>
                   bounded_inv_step w max tick test s ev s')
                tests 0 (init max)) as Hb.
  cbv beta in Hb.
  destruct (pass_raised (run_pass w tests 0 (init max))).
  - do 2 eexists; split; [reflexivity|].
    split; [exact I | apply pass_tests_run_pass].
  - destruct Hb as [_ Hb]; [split; [reflexivity | constructor] | reflexivity|].
    destruct (filter_retries (pass_results (run_pass w tests 0 (init max)))
                tests) as [|t0 ts] eqn:Hflt.
    + do 2 eexists; split; [reflexivity|].
      split; [exact I | apply pass_tests_run_pass].
    + exfalso.
      assert (Hin : In t0 (filter_retries
                             (pass_results (run_pass w tests 0 (init max)))
                             tests))
        by (rewrite Hflt; left; reflexivity).
      destruct (filter_retries_names _ _ _ Hin) as [_ [e [He [_ Hpos]]]].
      rewrite Forall_forall in Hb; specialize (Hb e He); lia.
Qed.

Lemma no_retries_single_pass_witness :
  exists p out,
    run 1 world_always_failing [T3] [] 0 = ([p], out)
    /\ ended out
    /\ pass_tests p = get_test_list [T3] [].
Proof.
  apply (no_retries_single_pass world_always_failing [T3] [] 0 0); lia.
Defined.




(** In the world where every script exits 0 and [T1] has no board,
    [T1] is skipped and the two other tests run and pass. *)
Lemma world_passing_run :
  run 1 world_passing_no_board_for_T1 [T1; T3; T2] [] 2
  = ([mkPass [T1; T3; T2]
        [test_skip_info "T1";
         test_info "T3" (Some "/dev/ttyACM0") None; test_pass_info "T3";
         test_info "T2" (Some "/dev/ttyACM0") None; test_pass_info "T2"]
        [mk [] ["T1"] [] 2 []; mk ["T3"] ["T1"] [] 2 [];
         mk ["T3"; "T2"] ["T1"] [] 2 []]
        (mk ["T3"; "T2"] ["T1"] [] 2 []) 3 false],
     Exit 0 (mk ["T3"; "T2"] ["T1"] [] 2 [])).
Proof. vm_compute. reflexivity. Qed.



Lemma fail_list_register_pass_incl (s : t) (n x : string) :
  In x (fail_test_name_list (register_pass s n)) ->
  In x (fail_test_name_list s).
Proof.
  unfold register_pass; cbv zeta.
  destruct (mem n (fail_test_name_list s)); destruct (negb _);
    cbn [fail_test_name_list]; intros H; try exact H;
    exact (In_remove_name _ _ _ H).
Qed.

Lemma names_inv_step (w : World) (tests0 : list TestRunner.t) (tick : nat)
    (test : TestRunner.t) (rest : list TestRunner.t) (s : t)
    (ev : list Event) (s' : t) :
  names_inv tests0 (test :: rest) s ->
  iteration w tick test s = Continue ev s' ->
  names_inv tests0 rest s'.
Proof.
  intros [Hincl Hnames] Hit.
  assert (Hname : In (TestRunner.name test) (map TestRunner.name tests0))
    by (apply in_map, Hincl; left; reflexivity).
  split; [intros t Ht; apply Hincl; right; exact Ht|].
  pose proof (iteration_cases w tick test s) as Hcases.
  rewrite Hit in Hcases.
  destruct Hcases as [[_ [_ ->]] | [_ [-> | ->]]]; intros n Hn.
  - cbn [register_skip pass_test_name_list fail_test_name_list
         skip_test_name_list] in Hn.
    destruct Hn as [Hn|[Hn|Hn]];
      [apply Hnames; left; exact Hn
      | apply Hnames; right; left; exact Hn |].
    apply in_app_or in Hn; destruct Hn as [Hn|[<-|[]]];
      [apply Hnames; right; right; exact Hn | exact Hname].
  - rewrite pass_list_register_fail, skip_list_register_fail in Hn.
    destruct Hn as [Hn|[Hn|Hn]];
      [apply Hnames; left; exact Hn | 
      | apply Hnames; right; right; exact Hn].
    apply fail_list_register_fail in Hn; destruct Hn as [Hn| ->];
      [apply Hnames; right; left; exact Hn | exact Hname].
  - rewrite skip_list_register_pass in Hn.
    destruct Hn as [Hn|[Hn|Hn]];
      [| apply Hnames; right; left;
         exact (fail_list_register_pass_incl _ _ _ Hn)
       | apply Hnames; right; right; exact Hn].
    apply pass_list_register_pass in Hn; destruct Hn as [Hn| ->];
      [apply Hnames; left; exact Hn | exact Hname].
Qed.

(** X23. At every moment of a run, every name in the passed, the
    failed or the skipped list is the name of a test of the list the
    run started with. *)
Theorem recorded_names_are_test_names (w : World)
    (plan : list TestRunner.t) (names : list string) (max : Z)
    (fuel : nat) :
  Forall (fun s =>
            forall n,
              In n (pass_test_name_list s) \/ In n (fail_test_name_list s)
              \/ In n (skip_test_name_list s) ->
              In n (map TestRunner.name (get_test_list plan names)))
         (states_of max (fst (run fuel w plan names max))).
Proof.
  unfold states_of, run.
  set (tests0 := get_test_list plan names).
  constructor.
  - intros n [[]|[[]|[]]].
  - pose proof (while_pending_invariant w (names_inv tests0)
                  (fun tests => incl tests tests0)
                  (names_inv_step w tests0)) as Hinv.
    destruct (Hinv
                (fun tests s HT HJ =>
                   conj (fun t Ht =>
                           HT t (proj1 (filter_retries_names s tests t Ht)))
                        (conj (fun t Ht =>
                                 HT t (proj1 (filter_retries_names s tests
                                                t Ht)))
                              (proj2 HJ)))
                fuel tests0 0%nat (init max) (incl_refl tests0))
      as [Hstates _].
    + split; [apply incl_refl | intros n [[]|[[]|[]]]].
    + eapply Forall_impl; [|exact Hstates].
      intros s [rest [_ Hnames]]; exact Hnames.
Qed.

(** X24. A selection of names keeps the tests of the plan that bear one
    of the names; and a selection none of whose names is borne by a
    test of the plan is no error: the run makes one pass over nothing
    and exits with status 0. *)
Theorem selected_tests_spec (plan : list TestRunner.t) (n : string)
    (names : list string) :
  (forall t, In t (get_test_list plan (n :: names)) <->
             In t plan /\ In (TestRunner.name t) (n :: names))
  /\ ((forall t, In t plan -> ~ In (TestRunner.name t) (n :: names)) ->
      forall (w : World) (max : Z) (fuel : nat),
        run (S fuel) w plan (n :: names) max
        = ([mkPass [] [] [] (init max) 0 false], Exit 0 (init max))).
Proof.
  assert (Hmem : forall t, In t (get_test_list plan (n :: names)) <->
                           In t plan /\ In (TestRunner.name t) (n :: names)).
  { intros t; unfold get_test_list; rewrite in_flat_map; split.
    - intros [x [Hx Ht]]; apply filter_In in Ht; destruct Ht as [Ht Heq].
      apply String.eqb_eq in Heq; rewrite Heq; split; assumption.
    - intros [Ht Hx]; exists (TestRunner.name t); split; [exact Hx|].
      apply filter_In; split; [exact Ht | apply String.eqb_refl]. }
  split; [exact Hmem|].
  intros Hnone w max fuel.
  assert (Hempty : get_test_list plan (n :: names) = []).
  { destruct (get_test_list plan (n :: names)) as [|t ts] eqn:Hl;
      [reflexivity|].
    exfalso; destruct (proj1 (Hmem t)) as [Ht Hx];
      [left; reflexivity | exact (Hnone t Ht Hx)]. }
  unfold run; rewrite Hempty; reflexivity.
Qed.

Lemma selected_tests_spec_witness :
  (forall t, In t (get_test_list [T3] ["T9"]) <->
             In t [T3] /\ In (TestRunner.name t) ["T9"])
  /\ forall (w : World) (max : Z) (fuel : nat),
       run (S fuel) w [T3] ["T9"] max
       = ([mkPass [] [] [] (init max) 0 false], Exit 0 (init max)).
Proof.
  destruct (selected_tests_spec [T3] "T9" []) as [Hmem Hrun].
  split; [exact Hmem|].
  apply Hrun.
  intros t [<-|[]] [H|[]]; discriminate H.
Defined.

End RunRoundsProperties.

(** ** The wait for a device after a power cycle *)

Section SwitchResetProperties.
Import SwitchReset.

Lemma poll_bounds (status : nat -> string) (fuel : nat) :
  forall t,
    (t <= 5)%nat -> (5 <= t + fuel)%nat ->
    (t <= poll status t fuel <= 5)%nat
    /\ (forall j, (t <= j < poll status t fuel)%nat ->
                  status j <> "on connected")
    /\ ((poll status t fuel < 5)%nat ->
        status (poll status t fuel) = "on connected").
Proof.
  induction fuel as [|fuel IH]; intros t Ht Hf; cbn [poll].
  - split; [lia|]. split; intros; lia.
  - destruct (String.eqb_spec (status t) "on connected") as [Heq|Hne];
      cbn [negb andb].
    + split; [lia|]. split; [intros; lia | intros _; exact Heq].
    + destruct (Nat.ltb_spec t 5) as [Hlt|Hge].
      * destruct (IH (S t)) as [Hk [Hbefore Hat]]; [lia | lia|].
        split; [lia|]. split; [|exact Hat].
        intros j Hj; destruct (Nat.eq_dec j t) as [->|Hjt];
          [exact Hne | apply Hbefore; lia].
      * split; [lia|]. split; intros; lia.
Qed.

Lemma poll_fuel (status : nat -> string) (fuel : nat) :
  forall t, (5 <= t + fuel)%nat ->
            poll status t (S fuel) = poll status t fuel.
Proof.
  induction fuel as [|fuel IH]; intros t Hf.
  - cbn [poll]; destruct (Nat.ltb_spec t 5) as [Hlt|Hge]; [lia|].
    rewrite Bool.andb_false_r; reflexivity.
  - change (poll status t (S (S fuel)))
      with (if negb (String.eqb (status t) "on connected")
               && (t <? 5)%nat
            then poll status (S t) (S fuel) else t).
    change (poll status t (S fuel))
      with (if negb (String.eqb (status t) "on connected")
               && (t <? 5)%nat
            then poll status (S t) fuel else t).
    rewrite IH by lia; reflexivity.
Qed.

(** X25. After a power cycle the loop polls the switch once a second
    until it answers [on connected], and gives up after 5 seconds
    without raising: the seconds slept are the index of the first such
    answer among the first five, or 5; more rounds change nothing. *)
Theorem poll_stops_at_first_connected (status : nat -> string) :
  (poll status 0 5 <= 5)%nat
  /\ (forall j, (j < poll status 0 5)%nat -> status j <> "on connected")
  /\ ((poll status 0 5 < 5)%nat ->
      status (poll status 0 5) = "on connected")
  /\ (forall extra, poll status 0 (5 + extra) = poll status 0 5)
  /\ (2 <= reset_seconds status <= 7)%nat.
Proof.
  destruct (poll_bounds status 5 0) as [Hk [Hbefore Hat]]; [lia | lia|].
  split; [lia|].
  split; [intros j Hj; apply Hbefore; lia|].
  split; [exact Hat|].
  split; [|unfold reset_seconds; lia].
  induction extra as [|extra IH]; [reflexivity|].
  rewrite <- IH, Nat.add_succ_r; apply poll_fuel; lia.
Qed.

End SwitchResetProperties.

(** ** The number of passes when the gate is stable *)

Section RetryRoundsBound.
Import Devs TestPlanResults TestPlanRunner RetryRounds Scenario.

Lemma In_decrement_at_nth (l : list TestRetries) :
  NoDup (map test_name l) ->
  forall (i : nat) (r e : TestRetries),
    nth_error l i = Some r ->
    In e (decrement_at i l) ->
    (In e l /\ test_name e <> test_name r)
    \/ e = mkRetry (test_name r) (retries r - 1).
Proof.
  induction l as [|r0 l IH]; intros Hnd i r e Hnth Hin.
  - destruct i; discriminate Hnth.
  - cbn [map] in Hnd; inversion Hnd as [|? ? Hhead Hnd']; subst.
    destruct i as [|i]; cbn [nth_error decrement_at In] in Hnth, Hin.
    + injection Hnth as <-.
      destruct Hin as [<-|Hin]; [right; reflexivity|].
      left; split; [right; exact Hin|].
      intros Heq; apply Hhead; rewrite <- Heq; apply in_map; exact Hin.
    + destruct Hin as [<-|Hin].
      * left; split; [left; reflexivity|].
        intros Heq; apply Hhead; rewrite Heq.
        apply in_map; eapply nth_error_In; exact Hnth.
      * destruct (IH Hnd' i r e Hnth Hin) as [[H1 H2]|H];
          [left; split; [right; exact H1 | exact H2] | right; exact H].
Qed.

(** A further failure of a name with a ledger entry changes that entry
    alone. *)
Lemma register_fail_ledger (s : t) (n : string) (r0 : Z) (e : TestRetries) :
  ledger_ok s ->
  In (mkRetry n r0) (retry_test_list s) ->
  In e (retry_test_list (register_fail s n)) ->
  (In e (retry_test_list s) /\ test_name e <> n) \/ e = mkRetry n (r0 - 1).
Proof.
  intros Hok Hentry Hin.
  pose proof (ledger_entry_failed s n r0 Hok Hentry) as Hmem.
  destruct (remove_entry n r0 _ (ledger_names_NoDup s Hok) Hentry 0)
    as [i [Hidx [Hnth _]]].
  unfold register_fail, get_test_retry_index in Hin.
  rewrite Hmem, Hidx in Hin; cbn [negb retry_test_list Nat.add] in Hin.
  exact (In_decrement_at_nth _ (ledger_names_NoDup s Hok) i _ e Hnth Hin).
Qed.

Lemma ledger_register_pass_incl (s : t) (n : string) (e : TestRetries) :
  In e (retry_test_list (register_pass s n)) -> In e (retry_test_list s).
Proof.
  unfold register_pass; cbv zeta.
  destruct (mem n (fail_test_name_list s)).
  - destruct (get_test_retry_index s n) as [i|].
    + destruct (nth_error (retry_test_list s) i) as [o|];
        destruct (negb _); cbn [retry_test_list]; intros He;
        try exact He; eapply In_remove_retry; exact He.
    + destruct (negb _); cbn [retry_test_list]; intros He; exact He.
  - destruct (negb _); cbn [retry_test_list]; intros He; exact He.
Qed.

(** A pass of a name leaves no ledger entry under that name. *)
Lemma register_pass_ledger (s : t) (n : string) (e : TestRetries) :
  ledger_ok s ->
  In e (retry_test_list (register_pass s n)) ->
  In e (retry_test_list s) /\ test_name e <> n.
Proof.
  intros Hok He; split; [exact (ledger_register_pass_incl s n e He)|].
  destruct (ledger_ok_register_pass s n Hok) as [[Hnames _] Hfail].
  apply (Hfail (test_name e)); rewrite <- Hnames; apply in_map; exact He.
Qed.

Lemma filter_retries_keeps (s : t) (tests : list TestRunner.t)
    (test : TestRunner.t) (e : TestRetries) :
  In test tests ->
  In e (retry_test_list s) ->
  test_name e = TestRunner.name test ->
  (0 < retries e)%Z ->
  In test (filter_retries s tests).
Proof.
  intros Ht He Hname Hpos; unfold filter_retries.
  apply in_flat_map; exists test; split; [exact Ht|].
  apply in_flat_map; exists e; split; [exact He|].
  rewrite Hname, String.eqb_refl.
  replace (retries e >? 0)%Z with true
    by (symmetry; apply Z.gtb_lt; exact Hpos).
  left; reflexivity.
Qed.

Lemma level_inv_step (w : World) (tests : list TestRunner.t) (v : Z)
    (l c : nat) (tick : nat) (test : TestRunner.t)
    (rest : list TestRunner.t) (s : t) (ev : list Event) (s' : t) :
  level_inv w tests v l c (test :: rest) s ->
  iteration w tick test s = Continue ev s' ->
  level_inv w tests v l c rest s'.
Proof.
  intros [Hretry [Hincl Hlev]] Hit.
  split; [exact (retry_inv_step w l c tick test rest s ev s' Hretry Hit)|].
  split; [intros x Hx; apply Hincl; right; exact Hx|].
  destruct Hretry as [Hok [Hnd [Hrest _]]].
  destruct (Hrest test (or_introl eq_refl)) as [Havail [r [Hentry Hpos]]].
  assert (Hother : forall e,
             In e (retry_test_list s) ->
             test_name e <> TestRunner.name test ->
             (retries e <= 0)%Z
             \/ (In (test_name e) (map TestRunner.name rest)
                 /\ (retries e <= v)%Z)
             \/ ((retries e <= v - 1)%Z
                 /\ In (test_name e) (map TestRunner.name tests))).
  { intros e Hold Hne.
    destruct (Hlev e Hold) as [H0 | [[Hin Hv] | H3]];
      [left; exact H0 | | right; right; exact H3].
    right; left; split; [|exact Hv].
    cbn [map In] in Hin; destruct Hin as [Heq|Hin];
      [exfalso; apply Hne; symmetry; exact Heq | exact Hin]. }
  pose proof (iteration_cases w tick test s) as Hcases; rewrite Hit in Hcases.
  rewrite (Havail tick) in Hcases.
  destruct Hcases as [[Hfalse _] | [_ [-> | ->]]]; [discriminate| |];
    intros e He.
  - destruct (register_fail_ledger s _ r e Hok Hentry He) as [[Hold Hne] | ->];
      [exact (Hother e Hold Hne)|].
    cbn [test_name retries].
    destruct (Hlev _ Hentry) as [H0 | [[_ Hv] | [Hv Hin]]];
      cbn [test_name retries] in *.
    + left; lia.
    + right; right; split; [lia|].
      apply in_map, Hincl; left; reflexivity.
    + right; right; split; [lia | exact Hin].
  - destruct (register_pass_ledger s _ e Hok He) as [Hold Hne].
    exact (Hother e Hold Hne).
Qed.

(** A pass at level [v] is followed by at most [v - 1] more. *)
Lemma while_pending_level (w : World) :
  forall (v fuel : nat) (tests : list TestRunner.t) (tick : nat) (s : t),
    tests <> [] ->
    level_inv w tests (Z.of_nat v) (List.length tests) (budget s) tests s ->
    (v <= fuel)%nat ->
    ended (snd (while_pending fuel w tests tick s))
    /\ (List.length (fst (while_pending fuel w tests tick s)) <= v)%nat.
Proof.
  induction v as [|v IH]; intros fuel tests tick s Hne Hinv Hfuel.
  - exfalso; destruct tests as [|t0 ts]; [apply Hne; reflexivity|].
    destruct Hinv as [[_ [_ [Hrest _]]] [_ Hlev]].
    destruct (Hrest t0 (or_introl eq_refl)) as [_ [r [Hentry Hpos]]].
    destruct (Hlev _ Hentry) as [H|[[_ H]|[H _]]]; cbn [retries] in H; lia.
  - destruct fuel as [|fuel]; [lia|].
    rewrite while_pending_S; cbv zeta.
    pose proof (run_pass_invariant w
                  (level_inv w tests (Z.of_nat (S v)) (List.length tests)
                     (budget s))
                  (level_inv_step w tests _ _ _) tests tick s Hinv) as Hpass.
    destruct (pass_raised (run_pass w tests tick s));
      [split; [exact I | cbn [fst List.length]; lia]|].
    destruct (Hpass eq_refl) as [[Hok _] [_ Hlev]].
    set (final := pass_results (run_pass w tests tick s)) in *.
    destruct (filter_retries final tests) as [|t0 ts] eqn:Hflt;
      [split; [exact I | cbn [fst List.length]; lia]|].
    destruct Hinv as [[_ [Hnd [Hrest _]]] _].
    assert (Hnext : level_inv w (t0 :: ts) (Z.of_nat v)
                      (List.length (t0 :: ts)) (budget final) (t0 :: ts)
                      final).
    { rewrite <- Hflt; split; [|split; [apply incl_refl|]].
      - apply retry_inv_next; [exact Hok | exact Hnd|].
        intros t Ht; apply (Hrest t), (proj1 (filter_retries_names _ _ _ Ht)).
      - intros e He.
        destruct (Hlev e He) as [H0|[[[] _]|[Hv Hin]]]; [left; exact H0|].
        destruct (Z_le_gt_dec (retries e) 0) as [Hle|Hgt]; [left; exact Hle|].
        right; left; split; [|lia].
        apply in_map_iff in Hin; destruct Hin as [t [Hname Ht]].
        apply in_map_iff; exists t; split; [exact Hname|].
        apply (filter_retries_keeps final tests t e Ht He);
          [symmetry; exact Hname | lia]. }
    destruct (IH fuel (t0 :: ts) (pass_tick (run_pass w tests tick s)) final)
      as [Hend Hlen]; [discriminate | exact Hnext | lia|].
    destruct (while_pending fuel w (t0 :: ts) _ final) as [ps out].
    cbn [fst snd List.length] in *; split; [exact Hend | lia].
Qed.

(** X26. On a test list with pairwise distinct names, and with a gate
    that gives each test the same answer at every iteration, the loop
    makes at most [max_retries + 1] passes (one pass when [max_retries]
    is negative) and then exits or raises. *)
Theorem retry_rounds_bounded (w : World) (plan : list TestRunner.t)
    (names : list string) (max : Z) (avail : TestRunner.t -> bool)
    (fuel : nat) :
  NoDup (map TestRunner.name (get_test_list plan names)) ->
  (forall tick t, In t (get_test_list plan names) ->
                  available_at w tick t = avail t) ->
  (Z.to_nat max < fuel)%nat ->
  ended (snd (run fuel w plan names max))
  /\ (List.length (fst (run fuel w plan names max)) <= S (Z.to_nat max))%nat.
Proof.
  intros Hnd Hstable Hfuel; unfold run.
  destruct fuel as [|fuel]; [lia|].
  set (tests0 := get_test_list plan names) in *.
  set (p := run_pass w tests0 0 (init max)).
  rewrite while_pending_S; cbv zeta; fold p.
  assert (Hgate : pass_raised p = false ->
                  gate_inv tests0 avail [] (pass_results p)).
  { apply (run_pass_invariant w _ (gate_inv_step w tests0 avail Hstable)).
    split; [apply incl_refl|]. split; [intros n []|intros n [[]|[]]]. }
  pose proof (run_pass_ledger_ok w tests0 0 (init max) (ledger_ok_init max))
    as Hok; fold p in Hok.
  pose proof (run_pass_invariant w (fun _ s => bounded_inv max s)
                (fun tick test rest s ev s' =>
                   bounded_inv_step w max tick test s ev s')
                tests0 0 (init max)) as Hb.
  cbv beta in Hb; fold p in Hb.
  destruct (pass_raised p); [split; [exact I | cbn [fst List.length]; lia]|].
  specialize (Hgate eq_refl); specialize (Hok eq_refl).
  destruct Hb as [_ Hb]; [split; [reflexivity | constructor] | reflexivity|].
  destruct (filter_retries (pass_results p) tests0) as [|t0 ts] eqn:Hflt;
    [split; [exact I | cbn [fst List.length]; lia]|].
  assert (Hnext : level_inv w (t0 :: ts) (Z.of_nat (Z.to_nat max))
                    (List.length (t0 :: ts)) (budget (pass_results p))
                    (t0 :: ts) (pass_results p)).
  { rewrite <- Hflt; split; [|split; [apply incl_refl|]].
    - apply retry_inv_next; [exact Hok | exact Hnd|].
      intros t Ht tick.
      destruct (filter_retries_failed _ _ _ Hok Ht) as [Hin Hfailed].
      destruct Hgate as [_ [_ Hrun]].
      destruct (Hrun _ (or_intror Hfailed)) as [t' [Hin' [Hname Havail]]].
      rewrite (NoDup_name_inj tests0 Hnd t' t Hin' Hin Hname) in Havail.
      rewrite (Hstable tick t Hin); exact Havail.
    - intros e He.
      rewrite Forall_forall in Hb; specialize (Hb e He).
      destruct (Z_le_gt_dec (retries e) 0) as [Hle|Hgt]; [left; exact Hle|].
      right; left; split; [|rewrite Z2Nat.id; lia].
      assert (Hfailed : In (test_name e)
                           (fail_test_name_list (pass_results p)))
        by (rewrite <- (proj1 Hok); apply in_map; exact He).
      destruct Hgate as [_ [_ Hrun]].
      destruct (Hrun _ (or_intror Hfailed)) as [t' [Hin' [Hname _]]].
      apply in_map_iff; exists t'; split; [exact Hname|].
      apply (filter_retries_keeps (pass_results p) tests0 t' e Hin' He);
        [symmetry; exact Hname | lia]. }
  destruct (while_pending_level w (Z.to_nat max) fuel (t0 :: ts)
              (pass_tick p) (pass_results p)) as [Hend Hlen];
    [discriminate | exact Hnext | lia|].
  destruct (while_pending fuel w (t0 :: ts) (pass_tick p) (pass_results p))
    as [ps out].
  cbn [fst snd List.length] in *; split; [exact Hend | lia].
Qed.

Lemma retry_rounds_bounded_witness :
  ended (snd (run 3 world_always_failing [T3; T1] [] 2))
  /\ (List.length (fst (run 3 world_always_failing [T3; T1] [] 2))
      <= S (Z.to_nat 2))%nat.
Proof.
  apply (retry_rounds_bounded world_always_failing [T3; T1] [] 2
           (fun _ => true) 3).
  - cbn [get_test_list map]; constructor.
    + cbn [In]; intros [H|[]]; discriminate H.
    + constructor; [intros [] | constructor].
  - intros tick t [<-|[<-|[]]]; reflexivity.
  - cbn [Z.to_nat Pos.to_nat Pos.iter_op Nat.add]; lia.
Defined.

End RetryRoundsBound.

(** ** The devices of a role in the HIL catalog *)

Section HILResolutionProperties.
Import Devs TestPlanRunnerHIL.

Lemma feature_mem_In (v : string) (fs : list string) :
  feature_mem v fs = true <-> In v fs.
Proof.
  unfold feature_mem; rewrite existsb_exists; split.
  - intros [x [Hx Heq]]; apply String.eqb_eq in Heq; rewrite Heq; exact Hx.
  - intros Hv; exists v; split; [exact Hv | apply String.eqb_refl].
Qed.

Lemma supported_matches (dev : Device) (sd : TestRunner.SupportedDev) :
  TestRunner.opt_str_eqb (Some (name dev)) (TestRunner.board sd)
  && match TestRunner.version sd with
     | None => true
     | Some v => feature_mem v (features dev)
     end = true
  <-> TestRunner.board sd = Some (name dev)
      /\ match TestRunner.version sd with
         | None => True
         | Some v => In v (features dev)
         end.
Proof.
  rewrite Bool.andb_true_iff; unfold TestRunner.opt_str_eqb.
  destruct (TestRunner.board sd) as [b|].
  - rewrite String.eqb_eq.
    destruct (TestRunner.version sd) as [v|].
    + rewrite feature_mem_In; split; intros [H1 H2];
        (split; [congruence | exact H2]).
    + split; intros [H1 _]; (split; [congruence | auto]).
  - split; intros [H _]; discriminate H.
Qed.

Lemma devs_for_supported_spec (load : Registry)
    (sup : list TestRunner.SupportedDev) :
  forall calls,
    snd (devs_for_supported load calls sup) = (calls + List.length sup)%nat
    /\ forall dev,
         In dev (fst (devs_for_supported load calls sup)) <->
         exists k sd,
           nth_error sup k = Some sd
           /\ In dev (load (calls + k)%nat)
           /\ TestRunner.board sd = Some (name dev)
           /\ match TestRunner.version sd with
              | None => True
              | Some v => In v (features dev)
              end.
Proof.
  induction sup as [|sd sup IH]; intros calls; cbn [devs_for_supported].
  - cbn [fst snd List.length]; split; [lia|].
    intros dev; split; [intros [] | intros [[|k] [sd [H _]]]; discriminate H].
  - destruct (IH (S calls)) as [Hcalls Hdevs].
    destruct (devs_for_supported load (S calls) sup) as [more calls'].
    cbn [fst snd List.length] in *; split; [lia|].
    intros dev; rewrite in_app_iff, filter_In, supported_matches, Hdevs.
    split.
    + intros [[Hload [Hb Hv]] | [k [sd' [Hn [Hload [Hb Hv]]]]]].
      * exists 0%nat, sd; rewrite Nat.add_0_r.
        split; [reflexivity|]. split; [exact Hload|]. split; assumption.
      * exists (S k), sd'; rewrite Nat.add_succ_r.
        split; [exact Hn|]. split; [exact Hload|]. split; assumption.
    + intros [[|k] [sd' [Hn [Hload [Hb Hv]]]]]; cbn [nth_error] in Hn.
      * injection Hn as <-; rewrite Nat.add_0_r in Hload.
        left; split; [exact Hload|]. split; assumption.
      * rewrite Nat.add_succ_r in Hload.
        right; exists k, sd'; split; [exact Hn|].
        split; [exact Hload|]. split; assumption.
Qed.

(** X27. [TestPlanRunnerHIL.__get_devs_for_role] reads the catalog once
    for each device entry of the test that is listed for the role under
    the board name, and returns exactly the catalog entries that bear
    the name of the board and whose features hold the version the
    device entry asks for (any features when it asks for none), each
    taken from the reading made for its device entry. *)
Theorem devs_for_role_come_from_the_catalog (load : Registry) (calls : nat)
    (test : TestRunner.t) (board : string) (role : TestRunner.DeviceRole) :
  let sup := TestRunner.get_supported_dev_list test role board None in
  snd (get_devs_for_role load calls test board role)
  = (calls + List.length sup)%nat
  /\ forall dev,
       In dev (fst (get_devs_for_role load calls test board role)) <->
       exists k sd,
         nth_error sup k = Some sd
         /\ In dev (load (calls + k)%nat)
         /\ name dev = board
         /\ match TestRunner.version sd with
            | None => True
            | Some v => In v (features dev)
            end.
Proof.
  cbv zeta; unfold get_devs_for_role.
  destruct (devs_for_supported_spec load
              (TestRunner.get_supported_dev_list test role board None) calls)
    as [Hcalls Hdevs].
  split; [exact Hcalls|].
  intros dev; rewrite Hdevs.
  assert (Hboard : forall k sd,
             nth_error (TestRunner.get_supported_dev_list test role board
                          None) k = Some sd ->
             TestRunner.board sd = Some board).
  { intros k sd Hn; apply nth_error_In in Hn.
    unfold TestRunner.get_supported_dev_list in Hn.
    apply filter_In in Hn; destruct Hn as [_ Hok].
    apply Bool.andb_true_iff in Hok; destruct Hok as [Hb _].
    unfold TestRunner.opt_str_eqb in Hb.
    destruct (TestRunner.board sd) as [b|]; [|discriminate Hb].
    apply String.eqb_eq in Hb; rewrite Hb; reflexivity. }
  split; intros [k [sd [Hn [Hload [Hb Hv]]]]]; exists k, sd;
    (split; [exact Hn|]); (split; [exact Hload|]);
    (split; [|exact Hv]); pose proof (Hboard k sd Hn) as Hsd.
  - rewrite Hsd in Hb; injection Hb as Hb; symmetry; exact Hb.
  - rewrite Hsd, Hb; reflexivity.
Qed.

End HILResolutionProperties.

(** ** The command line of the test-plan runner *)

Section TestPlanRunnerCLIProperties.
Import PyStr TestPlanRunnerCLI.

(** X28. Arguments that pass [__set_validate_args] carry a test plan
    and are of one of two kinds. With a catalog ([--hil-devs]) there is
    a board and no port, and [main_run_test_plan] builds the HIL
    runner. Without one there is no board and both ports are set, the
    defaults standing in for the ports not given, and it builds the
    ports runner, except when [--dut-port] is the empty string: then no
    runner is built. *)
Theorem validated_args_select_a_runner (fs : Paths) (args a : Namespace) :
  (forall s, truthy_str s = true -> truthy_str (abspath fs s) = true) ->
  set_validate_args fs args = inl a ->
  test_plan a <> None
  /\ (truthy (hil_devs args) = true ->
      hil_devs a = option_map (abspath fs) (hil_devs args)
      /\ board a <> None
      /\ truthy (dut_port a) = false
      /\ truthy (stub_port a) = false
      /\ select_runner a = Runner_HIL (test_plan a) (hil_devs a) (board a))
  /\ (truthy (hil_devs args) = false ->
      board a = None
      /\ dut_port a
         = Some match dut_port args with
                | Some d => d
                | None => "/dev/ttyACM0"
                end
      /\ stub_port a
         = Some match stub_port args with
                | Some d => d
                | None => "/dev/ttyACM1"
                end
      /\ (select_runner a = No_runner <-> dut_port args = Some EmptyString)
      /\ (dut_port args <> Some EmptyString ->
          select_runner a
          = Runner_Ports (test_plan a) (dut_port a) (stub_port a))).
Proof.
  intros Habs Hval.
  destruct args as [ts tp hd bd dp sp mr mrd mrp].
  unfold set_validate_args in Hval.
  cbn [test_suite test_plan hil_devs board dut_port stub_port max_retries
       mpy_root_dir mpy_root_path] in *.
  destruct (truthy hd) eqn:Hhil.
  - destruct bd as [b|]; cbn [is_none] in Hval; [|discriminate].
    destruct (truthy dp || truthy sp) eqn:Hports; [discriminate|].
    apply Bool.orb_false_iff in Hports; destruct Hports as [Hdp Hsp].
    cbv zeta in Hval;
      cbn [test_suite test_plan hil_devs board dut_port stub_port
           max_retries mpy_root_dir mpy_root_path] in Hval.
    injection Hval as <-.
    cbn [test_suite test_plan hil_devs board dut_port stub_port max_retries
         mpy_root_dir mpy_root_path].
    split; [destruct tp; discriminate|].
    split; [|intros H; discriminate H].
    intros _; split; [reflexivity|]. split; [discriminate|].
    split; [exact Hdp|]. split; [exact Hsp|].
    unfold select_runner;
      cbn [test_suite test_plan hil_devs board dut_port stub_port
           max_retries mpy_root_dir mpy_root_path].
    destruct hd as [h|]; [|discriminate Hhil].
    cbn [truthy option_map] in *; rewrite (Habs h Hhil); reflexivity.
  - destruct bd as [b|]; cbn [is_none negb] in Hval; [discriminate|].
    cbv zeta in Hval;
      cbn [test_suite test_plan hil_devs board dut_port stub_port
           max_retries mpy_root_dir mpy_root_path] in Hval.
    injection Hval as <-.
    cbn [test_suite test_plan hil_devs board dut_port stub_port max_retries
         mpy_root_dir mpy_root_path].
    split; [destruct tp; discriminate|].
    split; [intros H; discriminate H|].
    intros _; split; [reflexivity|].
    split; [destruct dp; reflexivity|].
    split; [destruct sp; reflexivity|].
    unfold select_runner;
      cbn [test_suite test_plan hil_devs board dut_port stub_port
           max_retries mpy_root_dir mpy_root_path].
    rewrite Hhil.
    destruct dp as [[|c d]|]; cbn [truthy truthy_str].
    + split; [split; reflexivity | intros H; exfalso; apply H; reflexivity].
    + split; [split; intros H; discriminate H | intros _; reflexivity].
    + split; [split; intros H; discriminate H | intros _; reflexivity].
Qed.

Lemma validated_args_select_a_runner_witness :
  select_runner
    (mkArgs [] (Some "plan.yml") None None (Some EmptyString)
       (Some "/dev/ttyACM1") 0 (Some "mpy") None)
  = No_runner.
Proof.
  destruct (validated_args_select_a_runner
              (mkPaths (fun s => s) "test-plan.yml" "mpy")
              (mkArgs [] (Some "plan.yml") None None (Some EmptyString) None
                 0 (Some "mpy") None)
              (mkArgs [] (Some "plan.yml") None None (Some EmptyString)
                 (Some "/dev/ttyACM1") 0 (Some "mpy") None))
    as [_ [_ Hports]].
  - intros s H; exact H.
  - reflexivity.
  - destruct (Hports eq_refl) as [_ [_ [_ [Hnone _]]]].
    apply Hnone; reflexivity.
Defined.

End TestPlanRunnerCLIProperties.

(** ** The filters of the device query *)

Section DevsQueryCLIProperties.
Import PyStr DevsQueryCLI.

Lemma split_eq_spec (f : string) :
  has_eq f = true ->
  exists k v,
    split_eq f = [k; v]
    /\ f = (k ++ String "="%char v)%string
    /\ has_eq k = false.
Proof.
  unfold has_eq; induction f as [|c rest IH].
  - intros H; discriminate H.
  - cbn [split_eq contains String.prefix].
    destruct (Ascii.eqb_spec c "="%char) as [->|Hne].
    + intros _; exists EmptyString, rest.
      split; [reflexivity|]. split; reflexivity.
    + destruct (ascii_dec "="%char c) as [Heq|_];
        [exfalso; apply Hne; symmetry; exact Heq|].
      cbn [orb]; intros H.
      destruct (IH H) as [k [v [Hs [Hf Hk]]]].
      exists (String c k), v; rewrite Hs.
      split; [reflexivity|].
      split; [cbn [String.append]; rewrite <- Hf; reflexivity|].
      cbn [contains String.prefix].
      destruct (ascii_dec "="%char c) as [Heq|_];
        [exfalso; apply Hne; symmetry; exact Heq|].
      cbn [orb]; exact Hk.
Qed.

Lemma parse_filters_ok (l : list string) :
  forallb has_eq l = true ->
  exists filters,
    parse_filters l = Some filters
    /\ map (fun f => (attr_key f ++ String "="%char (attr_value f))%string)
           filters = l
    /\ Forall (fun f => has_eq (attr_key f) = false /\ exact f = true)
              filters.
Proof.
  induction l as [|f l IH]; cbn [forallb parse_filters].
  - intros _; exists []; split; [reflexivity|].
    split; [reflexivity | constructor].
  - intros H; apply Bool.andb_true_iff in H; destruct H as [Hf Hl].
    destruct (split_eq_spec f Hf) as [k [v [Hs [Heq Hk]]]].
    destruct (IH Hl) as [filters [Hp [Hmap Hall]]].
    rewrite Hs, Hp.
    exists (mkFilter k v true :: filters); split; [reflexivity|].
    split; [cbn [map attr_key attr_value]; rewrite Hmap, <- Heq; reflexivity|].
    constructor; [split; [exact Hk | reflexivity] | exact Hall].
Qed.

(** X29. Filters that pass [__set_validate_args] are the arguments of
    all [-f] options, flattened in order, and [parse_filters] does not
    raise on them: it gives one exact filter per argument, whose key is
    what stands before the first [=] (and holds no [=]) and whose value
    is all that follows it. *)
Theorem validated_filters_parse (fl : list FilterArg) (l : list string) :
  set_validate_args (Some fl) = inl (Some l) ->
  l = flatten fl
  /\ exists filters,
       parse_filters l = Some filters
       /\ map (fun f => (attr_key f ++ String "="%char (attr_value f))%string)
              filters = l
       /\ Forall (fun f => has_eq (attr_key f) = false /\ exact f = true)
                 filters.
Proof.
  unfold set_validate_args; destruct fl as [|f0 fl].
  - intros H; injection H as <-; split; [reflexivity|].
    apply parse_filters_ok; reflexivity.
  - destruct (forallb has_eq (flatten (f0 :: fl))) eqn:Hall;
      [|intros H; discriminate H].
    intros H; injection H as <-; split; [reflexivity|].
    apply parse_filters_ok; exact Hall.
Qed.

Lemma sample_filters_validated :
  set_validate_args
    (Some [Several ["name=a=b"; "uid=1"]; Single "features=x"])
  = inl (Some ["name=a=b"; "uid=1"; "features=x"]).
Proof. vm_compute. reflexivity. Qed.

Lemma validated_filters_parse_witness :
  ["name=a=b"; "uid=1"; "features=x"]
  = flatten [Several ["name=a=b"; "uid=1"]; Single "features=x"]
  /\ exists filters,
       parse_filters ["name=a=b"; "uid=1"; "features=x"] = Some filters
       /\ map (fun f => (attr_key f ++ String "="%char (attr_value f))%string)
              filters = ["name=a=b"; "uid=1"; "features=x"]
       /\ Forall (fun f => has_eq (attr_key f) = false /\ exact f = true)
                 filters.
Proof.
  apply (validated_filters_parse
           [Several ["name=a=b"; "uid=1"]; Single "features=x"]).
  exact sample_filters_validated.
Defined.

End DevsQueryCLIProperties.
